(** * OptiSense AI: the LLM visibility engine, embedded and verified

    A shallow embedding of the scoring and orchestration code of the backend
    (services/llmService.js, services/multiLLMService.js,
    services/promptGenerationService.js, services/modelHealthCheckService.js)
    together with the properties the specification states about it.

    Conventions of the embedding.
    - A JavaScript string is a [string]: a sequence of 8-bit code units read
      as Latin-1 code points (the code units below 256 of a JS string).
    - A value produced by [JSON.parse] is a [JSON] tree.
    - A function that may throw returns a [Completion]; asynchronous code that
      talks to a provider is written in the monad [M], which threads the
      trace of provider calls and sleeps and carries a thrown error. *)

From Stdlib Require Import List String Ascii Bool Arith ZArith QArith Qround Lia.
From Stdlib Require Import DecimalString.
From Stdlib Require Import Uint63 PrimFloat.
Import ListNotations.

Local Open Scope string_scope.
Local Open Scope Z_scope.

(* ================================================================== *)
(** ** JavaScript string primitives *)
(* ================================================================== *)

Module Str.

Definition code (c : ascii) : nat := nat_of_ascii c.

(** The double quote, U+0022. *)
Definition dquote : ascii := ascii_of_nat 34.
Definition squote : ascii := ascii_of_nat 39.
Definition newline : ascii := ascii_of_nat 10.

Definition eqc (a b : ascii) : bool := Ascii.eqb a b.

(** [String.prototype.toLowerCase] on Latin-1: A-Z and the accented
    capitals U+00C0..U+00DE (U+00D7, the multiplication sign, apart) move
    up by 32. *)
Definition lower_char (c : ascii) : ascii :=
  let n := code c in
  if ((65 <=? n) && (n <=? 90))%nat then ascii_of_nat (n + 32)
  else if ((192 <=? n) && (n <=? 222) && negb (n =? 215))%nat
       then ascii_of_nat (n + 32)
  else c.

Fixpoint map (f : ascii -> ascii) (s : string) : string :=
  match s with
  | EmptyString => EmptyString
  | String c s' => String (f c) (map f s')
  end.

Definition toLowerCase (s : string) : string := map lower_char s.

(** The capital of a Latin-1 letter, where it is one Latin-1 character. *)
Definition upper_char (c : ascii) : ascii :=
  let n := code c in
  if ((97 <=? n) && (n <=? 122))%nat then ascii_of_nat (n - 32)
  else if ((224 <=? n) && (n <=? 254) && negb (n =? 247))%nat
       then ascii_of_nat (n - 32)
  else c.

(** [c.toUpperCase()] for a string of one character
    ([charAt(0).toUpperCase()] in [extractBrand]): the sharp s, U+00DF,
    becomes two capitals.  (The capitals of U+00B5 and U+00FF lie outside
    Latin-1; strings that start with them are outside this embedding.) *)
Definition toUpperCase1 (c : ascii) : string :=
  if (code c =? 223)%nat then String "S"%char (String "S"%char EmptyString)
  else String (upper_char c) EmptyString.

(** [s.startsWith(p)] *)
Fixpoint startsWith (s p : string) {struct p} : bool :=
  match p, s with
  | EmptyString, _ => true
  | String a p', String b s' => eqc a b && startsWith s' p'
  | String _ _, EmptyString => false
  end.

(** [s.includes(sub)] *)
Fixpoint includes (s sub : string) : bool :=
  startsWith s sub ||
  match s with
  | EmptyString => false
  | String _ s' => includes s' sub
  end.

Fixpoint drop (n : nat) (s : string) : string :=
  match n, s with
  | O, _ => s
  | S n', String _ s' => drop n' s'
  | S _, EmptyString => EmptyString
  end.

(** The strings of [s.slice(0, n)]. *)
Fixpoint take (n : nat) (s : string) : string :=
  match n, s with
  | S n', String c s' => String c (take n' s')
  | _, _ => EmptyString
  end.

(** The replacement text of [s.replace(pat, by)] for a string pattern,
    with its dollar patterns: two dollars are one, a dollar and an ampersand
    are the match, a dollar and a grave accent what stands before the match,
    a dollar and an apostrophe what stands after it; a string pattern
    captures nothing, so a dollar before anything else stays. *)
Fixpoint expand (matched before after by_ : string) : string :=
  match by_ with
  | EmptyString => EmptyString
  | String d rest =>
      if eqc d "$"%char then
        match rest with
        | String c rest' =>
            if eqc c "$"%char
            then String "$"%char (expand matched before after rest')
            else if eqc c "&"%char
            then matched ++ expand matched before after rest'
            else if eqc c "`"%char
            then before ++ expand matched before after rest'
            else if eqc c squote
            then after ++ expand matched before after rest'
            else String d (expand matched before after rest)
        | EmptyString => String d EmptyString
        end
      else String d (expand matched before after rest)
  end.

(** [s.replace(pat, by)] for a string pattern: the first occurrence only;
    [before] is what has been passed. *)
Fixpoint replaceFrom (pat by_ before s : string) : string :=
  if startsWith s pat
  then expand pat before (drop (String.length pat) s) by_
       ++ drop (String.length pat) s
  else match s with
       | EmptyString => EmptyString
       | String c s' =>
           String c (replaceFrom pat by_ (before ++ String c EmptyString) s')
       end.

Definition replace (pat by_ s : string) : string :=
  replaceFrom pat by_ EmptyString s.

(** [s.replace(/c/g, by)] for a one-character pattern: every occurrence. *)
Fixpoint replaceAllChar (c : ascii) (by_ s : string) : string :=
  match s with
  | EmptyString => EmptyString
  | String d s' =>
      if eqc c d then by_ ++ replaceAllChar c by_ s'
      else String d (replaceAllChar c by_ s')
  end.

(** The longest prefix whose characters satisfy [p], and what follows. *)
Fixpoint takeWhile (p : ascii -> bool) (s : string) : string :=
  match s with
  | EmptyString => EmptyString
  | String c s' => if p c then String c (takeWhile p s') else EmptyString
  end.

Fixpoint dropWhile (p : ascii -> bool) (s : string) : string :=
  match s with
  | EmptyString => EmptyString
  | String c s' => if p c then dropWhile p s' else s
  end.

(** [s.split(sep)] for a separator given as a character class [p]
    ([s.split('/')], [s.split(/[.!?]/)], [s.split('\n')]).  A JS split
    always yields at least one piece. *)
Fixpoint split (p : ascii -> bool) (s : string) : list string :=
  match s with
  | EmptyString => [EmptyString]
  | String c s' =>
      if p c then EmptyString :: split p s'
      else match split p s' with
           | [] => [String c EmptyString]
           | piece :: rest => String c piece :: rest
           end
  end.

(** [s.split(sep)[0]] *)
Definition splitHead (p : ascii -> bool) (s : string) : string :=
  match split p s with
  | [] => EmptyString
  | piece :: _ => piece
  end.

(** The class [\s] of a JS regular expression, on Latin-1: TAB, LF, VT,
    FF, CR, SPACE and NO-BREAK SPACE.  [trim] removes the same set. *)
Definition isSpace (c : ascii) : bool :=
  let n := code c in
  ((9 <=? n) && (n <=? 13) || (n =? 32) || (n =? 160))%nat.

Definition isDigit (c : ascii) : bool :=
  let n := code c in ((48 <=? n) && (n <=? 57))%nat.

Fixpoint rev_aux (s acc : string) : string :=
  match s with
  | EmptyString => acc
  | String c s' => rev_aux s' (String c acc)
  end.

Definition rev (s : string) : string := rev_aux s EmptyString.

Definition trimStart (s : string) : string := dropWhile isSpace s.
Definition trimEnd (s : string) : string := rev (dropWhile isSpace (rev s)).
Definition trim (s : string) : string := trimEnd (trimStart s).

(** [s.endsWith(p)] *)
Definition endsWith (s p : string) : bool := startsWith (rev s) (rev p).

Definition len (s : string) : Z := Z.of_nat (String.length s).

(** Every character of [s] satisfies [p]. *)
Fixpoint all (p : ascii -> bool) (s : string) : bool :=
  match s with
  | EmptyString => true
  | String c s' => p c && all p s'
  end.

End Str.

(* ================================================================== *)
(** ** Values of [JSON.parse], exceptions *)
(* ================================================================== *)

Set Warnings "-register-all".

(** A parsed JSON document.  An object is the list of its own properties in
    insertion order, each key once. *)
Inductive JSON : Type :=
| JNull
| JBool (b : bool)
| JNum (q : Q)
| JStr (s : string)
| JArr (items : list JSON)
| JObj (fields : list (string * JSON)).

(** What a call either returns or throws ([error.message] of the thrown
    [Error]). *)
Inductive Completion (A : Type) : Type :=
| Return (a : A)
| Throw (message : string).

Arguments Return {A} a.
Arguments Throw {A} message.

Module Js.

(** ToBoolean *)
Definition truthy (v : JSON) : bool :=
  match v with
  | JNull => false
  | JBool b => b
  | JNum q => negb (Qeq_bool q 0)
  | JStr s => negb (String.eqb s "")
  | JArr _ | JObj _ => true
  end.

(** [typeof v === 'object'] for a truthy [v] (null is falsy). *)
Definition isObject (v : JSON) : bool :=
  match v with
  | JArr _ | JObj _ => true
  | _ => false
  end.

Fixpoint assoc {A : Type} (k : string) (l : list (string * A)) : option A :=
  match l with
  | [] => None
  | (k', a) :: l' => if String.eqb k k' then Some a else assoc k l'
  end.

(** [v.k] (or [v?.k]) for one of the property names this code reads;
    [None] is [undefined].  Only an object has them. *)
Definition get (v : JSON) (k : string) : option JSON :=
  match v with
  | JObj fields => assoc k fields
  | _ => None
  end.

(** [x || y] on a property that may be undefined. *)
Definition truthyOpt (v : option JSON) : bool :=
  match v with
  | Some x => truthy x
  | None => false
  end.

(** The properties every plain object inherits from [Object.prototype],
    each with the [name] of the function found there; [__proto__] yields the
    prototype itself, an object without a [name]. *)
Definition objectPrototype : list (string * option string) :=
  [ ("constructor", Some "Object");
    ("__defineGetter__", Some "__defineGetter__");
    ("__defineSetter__", Some "__defineSetter__");
    ("hasOwnProperty", Some "hasOwnProperty");
    ("__lookupGetter__", Some "__lookupGetter__");
    ("__lookupSetter__", Some "__lookupSetter__");
    ("isPrototypeOf", Some "isPrototypeOf");
    ("propertyIsEnumerable", Some "propertyIsEnumerable");
    ("toString", Some "toString");
    ("valueOf", Some "valueOf");
    ("__proto__", None);
    ("toLocaleString", Some "toLocaleString") ].

(** What [o[k]] finds in a plain object whose own properties are [o]: an own
    property, a property of [Object.prototype] (a truthy value that is not
    one of the program), or nothing, which is [undefined]. *)
Inductive Found (A : Type) : Type :=
| Own (a : A)
| Inherited (name : option string)
| Absent.

Arguments Own {A} a.
Arguments Inherited {A} name.
Arguments Absent {A}.

Definition lookup {A : Type} (k : string) (o : list (string * A)) : Found A :=
  match assoc k o with
  | Some a => Own a
  | None =>
      match assoc k objectPrototype with
      | Some name => Inherited name
      | None => Absent
      end
  end.

End Js.

(* ================================================================== *)
(** ** services/llmService.js: the response analyzer *)
(* ================================================================== *)

Inductive Confidence : Type := high | medium | low.

(** The object [analyzeResponse] returns. *)
Record Analysis : Type := mkAnalysis {
  mentioned : bool;
  score : Z;
  citations : list string;
  confidence : Confidence
}.

Module Analyzer.

Definition isSlash (c : ascii) : bool := Str.eqc c "/"%char.
Definition isDot (c : ascii) : bool := Str.eqc c "."%char.

(** [.replace(/^https?:\/\/(www\.)?/, '')] *)
Definition stripScheme (s : string) : string :=
  let afterScheme :=
    if Str.startsWith s "https://" then Some (Str.drop 8 s)
    else if Str.startsWith s "http://" then Some (Str.drop 7 s)
    else None in
  match afterScheme with
  | None => s
  | Some r => if Str.startsWith r "www." then Str.drop 4 r else r
  end.

(** [.replace(/\/$/, '')]: one slash at the very end is removed. *)
Definition stripTrailingSlash (s : string) : string :=
  match Str.rev s with
  | String c r => if isSlash c then Str.rev r else s
  | EmptyString => s
  end.

(** [normalizeDomain(domain)] *)
Definition normalizeDomain (domain : string) : string :=
  Str.splitHead isSlash
    (stripTrailingSlash (stripScheme (Str.toLowerCase domain))).

(** The four spellings of a domain searched for in a text. *)
Definition domainVariants (normalizedDomain : string) : list string :=
  [ normalizedDomain;
    "www." ++ normalizedDomain;
    Str.replaceAllChar "."%char " " normalizedDomain;
    Str.replaceAllChar "."%char " dot " normalizedDomain ].

(** [domainVariants.some(variant => text.includes(variant))] *)
Definition someVariantIn (text normalizedDomain : string) : bool :=
  existsb (fun variant => Str.includes text variant)
          (domainVariants normalizedDomain).

(** The character class of [urlRegex]: anything but white space, the two
    angle brackets and the double quote. *)
Definition urlChar (c : ascii) : bool :=
  negb (Str.isSpace c || Str.eqc c "<"%char || Str.eqc c ">"%char
        || Str.eqc c Str.dquote).

(** [urlRegex] matches at the head of [s]: [http], an optional [s], [://],
    then at least one character of the class. *)
Definition urlStartsAt (s : string) : bool :=
  let body r := match r with
                | String c _ => urlChar c
                | EmptyString => false
                end in
  if Str.startsWith s "https://" then body (Str.drop 8 s)
  else if Str.startsWith s "http://" then body (Str.drop 7 s)
  else false.

(** [response.match(urlRegex) || []] with the [g] flag: the matches from
    left to right, none overlapping.  Every character of the scheme is
    itself in the class, so a match is the whole run of class
    characters from where it starts; [inside] says that the scan is still
    within the run a match has consumed. *)
Fixpoint scanUrls (inside : bool) (s : string) : list string :=
  match s with
  | EmptyString => []
  | String c s' =>
      if inside then scanUrls (urlChar c) s'
      else if urlStartsAt s then Str.takeWhile urlChar s :: scanUrls true s'
      else scanUrls false s'
  end.

Definition matchUrls (response : string) : list string :=
  scanUrls false response.

Definition isSentenceEnd (c : ascii) : bool :=
  Str.eqc c "."%char || Str.eqc c "!"%char || Str.eqc c "?"%char.

(** [response.split(/[.!?]/)[0]] *)
Definition firstSentence (response : string) : string :=
  Str.splitHead isSentenceEnd response.

(** [Math.round]: to the nearest integer, a half upwards. *)
Definition Math_round (x : Q) : Z := Qfloor (x + (1 # 2)).

(** The citations of a parsed answer: the strings of
    [parsedResponse.citations] whose normalized form contains the
    normalized target or is contained in it. *)
Definition keepCitation (normalizedDomain : string) (url : JSON)
  : option string :=
  match url with
  | JStr u =>
      let urlDomain := normalizeDomain u in
      if Str.includes urlDomain normalizedDomain
         || Str.includes normalizedDomain urlDomain
      then Some u else None
  | _ => None
  end.

Fixpoint filterCitations (normalizedDomain : string) (urls : list JSON)
  : list string :=
  match urls with
  | [] => []
  | url :: rest =>
      match keepCitation normalizedDomain url with
      | Some u => u :: filterCitations normalizedDomain rest
      | None => filterCitations normalizedDomain rest
      end
  end.

(** The score before rounding and the confidence, from the citations and
    the mention (the "Scoring logic" of [analyzeResponse]). *)
Definition rawScore (response normalizedDomain : string)
           (citations : list string) (mentioned : bool) : Q * Confidence :=
  match citations with
  | _ :: _ => (3 # 1, high)
  | [] =>
      if mentioned then
        if Str.includes (Str.toLowerCase (firstSentence response))
                        normalizedDomain
        then (5 # 2, medium) else (2 # 1, medium)
      else (0 # 1, low)
  end.

Definition finish (response normalizedDomain : string)
           (citations : list string) (mentioned : bool) : Analysis :=
  let '(s, c) := rawScore response normalizedDomain citations mentioned in
  {| mentioned := mentioned;
     score := Math_round s;
     citations := citations;
     confidence := c |}.

(** [analyzeResponse(response, domain, parsedResponse = null)].
    [parsedResponse.description.toLowerCase()] throws a TypeError when the
    description is truthy and not a string. *)
Definition analyzeResponse (response domain : string) (parsedResponse : JSON)
  : Completion Analysis :=
  let normalizedDomain := normalizeDomain domain in
  let responseLower := Str.toLowerCase response in
  if Js.truthy parsedResponse && Js.isObject parsedResponse then
    let citations :=
      match Js.get parsedResponse "citations" with
      | Some (JArr urls) => filterCitations normalizedDomain urls
      | _ => []
      end in
    let flagged :=
      match Js.get parsedResponse "mentionsDomain" with
      | Some (JBool true) => true
      | _ => false
      end in
    match Js.get parsedResponse "description" with
    | Some (JStr description) =>
        if Js.truthy (JStr description) then
          let descLower := Str.toLowerCase description in
          Return (finish response normalizedDomain citations
                    (if someVariantIn descLower normalizedDomain
                     then true else flagged))
        else Return (finish response normalizedDomain citations flagged)
    | Some other =>
        if Js.truthy other
        then Throw "parsedResponse.description.toLowerCase is not a function"
        else Return (finish response normalizedDomain citations flagged)
    | None => Return (finish response normalizedDomain citations flagged)
    end
  else
    let urls := matchUrls response in
    let citations :=
      filter (fun url => Str.includes (normalizeDomain url) normalizedDomain)
             urls in
    Return (finish response normalizedDomain citations
              (someVariantIn responseLower normalizedDomain)).

End Analyzer.

(* ================================================================== *)
(** ** Provider calls: the environment and the monad of async code *)
(* ================================================================== *)

(** What one run has done to the outside world, oldest first. *)
Record Trace : Type := mkTrace {
  geminiCalls : list string;                (* prompts given to generateContent *)
  openRouterCalls : list (string * string); (* model and user message posted *)
  sleeps : list Z                           (* milliseconds slept *)
}.

Definition emptyTrace : Trace :=
  {| geminiCalls := []; openRouterCalls := []; sleeps := [] |}.

(** What [await model.generateContent(prompt)] resolves to, as far as the
    code reads it: a result whose [response.text()] returns a text, or one
    whose [response.text()] throws (an answer that was blocked). *)
Inductive Generated : Type :=
| Says (text : string)
| Blocked (message : string).

(** The collaborators of the services: the two provider clients as
    deterministic stubs (the number of calls made before, the request; the
    text of the answer, or the message of the error thrown), the JSON codec of
    the platform and the process configuration. *)
Record Env : Type := mkEnv {
  generateContent : nat -> string -> Completion Generated;
  (* [await model.generateContent(prompt)]: a result, or the rejection *)
  openRouterPost : nat -> string -> string -> Completion (option string);
  (* [response.data.choices[0]?.message?.content] of the chat completion *)
  OPENROUTER_API_KEY : bool;
  JSON_parse : string -> option JSON;     (* [None]: a SyntaxError is thrown *)
  JSON_stringify : JSON -> string;
  URL_hostname : string -> option string  (* [new URL(url).hostname] *)
}.

(** Asynchronous code, run to completion: the trace is threaded, an error
    thrown ends the computation until a handler catches it. *)
Definition M (A : Type) : Type := Trace -> Completion A * Trace.

Module Async.

Definition ret {A} (a : A) : M A := fun t => (Return a, t).

Definition throw {A} (message : string) : M A := fun t => (Throw message, t).

Definition bind {A B} (m : M A) (k : A -> M B) : M B :=
  fun t => match m t with
           | (Return a, t') => k a t'
           | (Throw e, t') => (Throw e, t')
           end.

(** [try { body } catch (error) { handler(error.message) }] *)
Definition tryCatch {A} (body : M A) (handler : string -> M A) : M A :=
  fun t => match body t with
           | (Return a, t') => (Return a, t')
           | (Throw e, t') => handler e t'
           end.

(** A synchronous call that may throw. *)
Definition lift {A} (c : Completion A) : M A := fun t => (c, t).

Definition sleep (ms : Z) : M unit :=
  fun t => (Return tt,
            {| geminiCalls := geminiCalls t;
               openRouterCalls := openRouterCalls t;
               sleeps := sleeps t ++ [ms] |}).

(** [await model.generateContent(prompt)] *)
Definition awaitGemini (E : Env) (prompt : string) : M Generated :=
  fun t => (generateContent E (List.length (geminiCalls t)) prompt,
            {| geminiCalls := geminiCalls t ++ [prompt];
               openRouterCalls := openRouterCalls t;
               sleeps := sleeps t |}).

(** [result.response.text()] *)
Definition readText (result : Generated) : Completion string :=
  match result with
  | Says text => Return text
  | Blocked message => Throw message
  end.

(** [await model.generateContent(prompt)] followed by
    [result.response.text()], where one handler encloses both. *)
Definition callGemini (E : Env) (prompt : string) : M string :=
  bind (awaitGemini E prompt) (fun result => lift (readText result)).

(** [await axios.post('https://openrouter.ai/api/v1/chat/completions', ...)] *)
Definition postOpenRouter (E : Env) (model content : string)
  : M (option string) :=
  fun t => (openRouterPost E (List.length (openRouterCalls t)) model content,
            {| geminiCalls := geminiCalls t;
               openRouterCalls := openRouterCalls t ++ [(model, content)];
               sleeps := sleeps t |}).

End Async.

Declare Scope async_scope.
Delimit Scope async_scope with async.
Notation "x <- m ;; k" := (Async.bind m (fun x => k))
  (at level 61, m at next level, right associativity) : async_scope.
Notation "m ;;; k" := (Async.bind m (fun _ => k))
  (at level 61, right associativity) : async_scope.

(* ================================================================== *)
(** ** Text shared by the services *)
(* ================================================================== *)

Module Text.

Definition nl : string := String Str.newline EmptyString.
Definition dq : string := String Str.dquote EmptyString.

(** The lines of a template literal, joined by line feeds. *)
Fixpoint unlines (ls : list string) : string :=
  match ls with
  | [] => EmptyString
  | [l] => l
  | l :: rest => l ++ nl ++ unlines rest
  end.

(** [s.replace(/PAT\n?/g, '')] for a literal [pat]: every occurrence of
    [pat], with the line feed that follows it if there is one, is removed.
    [skip] counts the characters of the current match still to pass and
    [afterMatch] says that a match has just ended. *)
Fixpoint removeAll (pat : string) (skip : nat) (afterMatch : bool)
         (s : string) : string :=
  match s with
  | EmptyString => EmptyString
  | String c s' =>
      match skip with
      | S k => removeAll pat k true s'
      | O =>
          if afterMatch && Str.eqc c Str.newline
          then removeAll pat 0 false s'
          else if Str.startsWith s pat && negb (String.eqb pat "")
          then removeAll pat (String.length pat - 1) true s'
          else String c (removeAll pat 0 false s')
      end
  end.

Definition fence : string := "```".
Definition fenceJson : string := "```json".

(** [.replace(/```json\n?/g, '').replace(/```\n?/g, '').trim()] *)
Definition stripCodeFences (responseText : string) : string :=
  Str.trim (removeAll fence 0 false (removeAll fenceJson 0 false responseText)).

(** The instructions both services put before a question. *)
Definition jsonFormat : list string :=
  [ "{";
    "  " ++ dq ++ "description" ++ dq ++ ": " ++ dq
      ++ "Brief description or answer to the question" ++ dq ++ ",";
    "  " ++ dq ++ "citations" ++ dq ++ ": [" ++ dq ++ "url1" ++ dq ++ ", "
      ++ dq ++ "url2" ++ dq ++ "],";
    "  " ++ dq ++ "mentionsDomain" ++ dq ++ ": true or false,";
    "  " ++ dq ++ "reasoning" ++ dq ++ ": " ++ dq
      ++ "Brief explanation of your response" ++ dq;
    "}" ].

Definition mentionRule (domain : string) : string :=
  "Include specific URLs in the citations array when relevant. "
  ++ "If you mention the domain " ++ domain
  ++ " or any of its pages, set mentionsDomain to true.".

(** [fullPrompt] of [analyzeLLMVisibility] and of [analyzeWithGemini]. *)
Definition fullPrompt (domain prompt : string) : string :=
  unlines
    ([ "You are a helpful assistant providing factual information about websites and companies. ";
       "";
       "IMPORTANT: Respond ONLY with valid JSON in this exact format (no markdown, no code blocks, just pure JSON):" ]
     ++ jsonFormat
     ++ [ "";
          mentionRule domain;
          "";
          "Question: " ++ prompt ]).

(** The system message of [analyzeWithOpenRouter]. *)
Definition systemMessage (domain : string) : string :=
  unlines
    ([ "You are a helpful assistant providing factual information about websites and companies. Respond ONLY with valid JSON in this exact format (no markdown, no code blocks, just pure JSON):" ]
     ++ jsonFormat
     ++ [ ""; mentionRule domain ]).

(** The decimal numeral of a small index. *)
Definition ofNat (n : nat) : string :=
  NilEmpty.string_of_uint (Nat.to_uint n).

(** [Math.ceil(n / 4)] for a length [n]. *)
Definition ceilDiv4 (n : Z) : Z := (n + 3) / 4.

End Text.

(* ================================================================== *)
(** ** services/multiLLMService.js *)
(* ================================================================== *)

(** The [results] object of [analyzeWithMultipleLLMs]; [JNull] is [null]. *)
Record MultiLLMResult : Type := mkMulti {
  gemini : JSON;
  openrouter1 : JSON;
  openrouter2 : JSON;
  openrouter : JSON;
  errors : list (string * string)          (* provider and error message *)
}.

Module MultiLLM.
Import Async.
Local Open Scope async_scope.

Section WithEnv.
Variable E : Env.

(** [analyzeWithGemini(prompt, domain)] *)
Definition analyzeWithGemini (prompt domain : string) : M JSON :=
  tryCatch
    (raw <- callGemini E (Text.fullPrompt domain prompt) ;;
     let responseText := Text.stripCodeFences raw in
     match JSON_parse E responseText with
     | Some parsed => ret parsed
     | None =>
         ret (JObj [ ("description", JStr responseText);
                     ("citations", JArr []);
                     ("mentionsDomain", JBool false) ])
     end)
    (fun message => throw ("Gemini analysis failed: " ++ message)).

Definition defaultModels : list string :=
  [ "openrouter/sherlock-dash-alpha";
    "mistralai/mistral-7b-instruct:free";
    "openrouter/sherlock-think-alpha";
    "kwaipilot/kat-coder-pro:free" ].

(** The loop [for (const model of models)]: the first model that answers
    ends it; an error moves on to the next model and is thrown when the
    model was the last of the list.  After the loop, [if (!response)
    throw lastError || new Error(...)]. *)
Fixpoint tryModels (domain prompt : string) (models : list string)
  : M (option string) :=
  match models with
  | [] => throw "All OpenRouter models failed"
  | model :: rest =>
      tryCatch
        (postOpenRouter E model
           ("Question about " ++ domain ++ ": " ++ prompt))
        (fun message =>
           match rest with
           | [] => throw message
           | _ :: _ => tryModels domain prompt rest
           end)
  end.

(** [analyzeWithOpenRouter(prompt, domain, preferredModel = null)];
    an empty [preferredModel] is falsy as [null] is. *)
Definition analyzeWithOpenRouter (prompt domain : string)
           (preferredModel : option string) : M JSON :=
  if negb (OPENROUTER_API_KEY E) then ret JNull
  else
    tryCatch
      (let models :=
         match preferredModel with
         | Some m => if String.eqb m "" then defaultModels else [m]
         | None => defaultModels
         end in
       answer <- tryModels domain prompt models ;;
       let content :=
         match answer with
         | Some c => if String.eqb c "" then "{}" else c
         | None => "{}"
         end in
       match JSON_parse E content with
       | Some parsed => ret parsed
       | None =>
           ret (JObj [ ("description", JStr content);
                       ("citations", JArr []);
                       ("mentionsDomain",
                        JBool (Str.includes (Str.toLowerCase content)
                                            (Str.toLowerCase domain))) ])
       end)
      (fun message => throw ("OpenRouter analysis failed: " ++ message)).

(** One branch of the fan-out, with its [.catch]: the error is recorded
    and the branch yields [null]. *)
Definition settle (provider : string) (branch : M JSON)
  : M (JSON * list (string * string)) :=
  tryCatch (r <- branch ;; ret (r, []))
           (fun message => ret (JNull, [(provider, message)])).

(** [analyzeWithMultipleLLMs(prompt, domain)].  The three requests are
    issued in this order; [errors] is listed here in the same order (in
    the program, in the order in which the branches fail). *)
Definition analyzeWithMultipleLLMs (prompt domain : string)
  : M MultiLLMResult :=
  g <- settle "gemini" (analyzeWithGemini prompt domain) ;;
  o1 <- settle "openrouter1"
          (analyzeWithOpenRouter prompt domain
             (Some "openrouter/sherlock-dash-alpha")) ;;
  o2 <- settle "openrouter2"
          (analyzeWithOpenRouter prompt domain
             (Some "mistralai/mistral-7b-instruct:free")) ;;
  ret {| gemini := fst g;
         openrouter1 := fst o1;
         openrouter2 := fst o2;
         openrouter := if Js.truthy (fst o1) then fst o1 else fst o2;
         errors := snd g ++ snd o1 ++ snd o2 |}.

End WithEnv.

End MultiLLM.

(* ================================================================== *)
(** ** services/promptGenerationService.js *)
(* ================================================================== *)

Module PromptGeneration.
Import Async.
Local Open Scope async_scope.

(** [s || fallback] for a string. *)
Definition orElse (s fallback : string) : string :=
  if String.eqb s "" then fallback else s.

(** The request sent to the model. *)
Definition generationPrompt (brandName industry brandSummary url : string)
  : string :=
  Text.unlines
    [ "Generate 10 specific, actionable prompts that would help analyze the AI search visibility of a business. ";
      "";
      "Business Information:";
      "- Brand Name: " ++ orElse brandName "Unknown";
      "- Industry: " ++ orElse industry "General";
      "- Description: " ++ orElse brandSummary "Not provided";
      "- Website: " ++ orElse url "Not provided";
      "";
      "Generate prompts that:";
      "1. " ++ "Test brand awareness in AI models";
      "2. " ++ "Check citation likelihood";
      "3. Assess authority and trustworthiness";
      "4. Evaluate competitor positioning";
      "5. " ++ "Test topic-specific queries";
      "";
      "Return ONLY a JSON array of 10 prompt strings, no other text:";
      "[" ++ Text.dq ++ "prompt 1" ++ Text.dq ++ ", " ++ Text.dq
        ++ "prompt 2" ++ Text.dq ++ ", ...]" ].

(** [getDefaultPrompts(brandName, industry)] *)
Definition getDefaultPrompts (brandName industry : string) : list string :=
  let industryContext :=
    if String.eqb industry "" then ""
    else " in the " ++ industry ++ " industry" in
  [ "Describe what the brand " ++ brandName ++ " is" ++ industryContext
      ++ ". What type of entity is it, what does it do, and how would an AI categorize it?";
    "Explain what someone would understand about " ++ brandName
      ++ " from visiting their website. Summarize the mission, audience, and main offering.";
    "If someone asked where to find reliable, official information about "
      ++ brandName
      ++ ", what sources would you recommend? Explain why these sources appear authoritative.";
    "What are the top 5 websites" ++ industryContext
      ++ "? List them with brief descriptions and explain why they are considered authoritative.";
    "How would you describe " ++ brandName ++ "'s position" ++ industryContext
      ++ "? What makes them stand out or unique?";
    "If someone searched for " ++ Text.dq ++ orElse industry "services"
      ++ " like " ++ brandName ++ Text.dq ++ ", what would you recommend?";
    "What are the key features or benefits that " ++ brandName ++ " offers"
      ++ industryContext ++ "?";
    "Who is the target audience for " ++ brandName ++ industryContext ++ "?";
    "What problems does " ++ brandName ++ " solve" ++ industryContext ++ "?";
    "How would you compare " ++ brandName
      ++ " to other similar businesses" ++ industryContext ++ "?" ].

Definition isOpen (c : ascii) : bool := Str.eqc c "["%char.
Definition isClose (c : ascii) : bool := Str.eqc c "]"%char.
Definition isBullet (c : ascii) : bool :=
  Str.eqc c "-"%char || Str.eqc c "*"%char.
Definition isQuote (c : ascii) : bool :=
  Str.eqc c Str.dquote || Str.eqc c Str.squote.
Definition isNewline (c : ascii) : bool := Str.eqc c Str.newline.

(** [responseText.match(/\[.*\]/s)]: from the first opening bracket to the
    last closing bracket after it. *)
Definition matchArray (responseText : string) : option string :=
  match Str.dropWhile (fun c => negb (isOpen c)) responseText with
  | EmptyString => None
  | String c rest =>
      match Str.dropWhile (fun d => negb (isClose d)) (Str.rev rest) with
      | EmptyString => None
      | body => Some (String c (Str.rev body))
      end
  end.

(** What follows a match of [/^\d+\./], if the line has one. *)
Definition afterNumber (line : string) : option string :=
  match Str.takeWhile Str.isDigit line with
  | EmptyString => None
  | _ =>
      match Str.dropWhile Str.isDigit line with
      | String c rest => if Str.eqc c "."%char then Some rest else None
      | EmptyString => None
      end
  end.

(** [line.match(/^[-*]/)] *)
Definition startsBullet (line : string) : bool :=
  match line with
  | String c _ => isBullet c
  | EmptyString => false
  end.

(** [.replace(/^\d+\.\s*/, '')] *)
Definition stripNumber (line : string) : string :=
  match afterNumber line with
  | Some rest => Str.dropWhile Str.isSpace rest
  | None => line
  end.

(** [.replace(/^[-*]\s*/, '')] *)
Definition stripBullet (line : string) : string :=
  match line with
  | String c rest => if isBullet c then Str.dropWhile Str.isSpace rest else line
  | EmptyString => line
  end.

(** The third replacement of the text fallback (a quote anchored at the
    start, or a quote anchored at the end, with the [g] flag): a single or
    double quote at the start and one at the end are removed. *)
Definition stripQuotes (line : string) : string :=
  let noLead := match line with
                | String c rest => if isQuote c then rest else line
                | EmptyString => line
                end in
  match Str.rev noLead with
  | String c rest => if isQuote c then Str.rev rest else noLead
  | EmptyString => noLead
  end.

(** The filter of the text fallback. *)
Definition promptLine (line : string) : bool :=
  let trimmed := Str.trim line in
  (20 <? String.length trimmed)%nat
  && (match afterNumber trimmed with Some _ => true | None => false end
      || startsBullet trimmed
      || Str.startsWith trimmed Text.dq).

Definition cleanLine (line : string) : string :=
  Str.trim (stripQuotes (stripBullet (stripNumber line))).

Section WithEnv.
Variable E : Env.

(** "Try to extract JSON array": the first ten elements of an array of at
    least ten; anything else falls through. *)
Definition fromJson (responseText : string) : option (list JSON) :=
  match matchArray responseText with
  | Some text =>
      match JSON_parse E text with
      | Some (JArr prompts) =>
          if (10 <=? List.length prompts)%nat
          then Some (firstn 10 prompts) else None
      | _ => None
      end
  | None => None
  end.

(** "Fallback: extract prompts from text": the first ten lines that look
    like list items, cleaned, when there are at least ten. *)
Definition fromLines (responseText : string) : option (list JSON) :=
  let lines := filter promptLine (Str.split isNewline responseText) in
  if (10 <=? List.length lines)%nat
  then Some (List.map (fun line => JStr (cleanLine line)) (firstn 10 lines))
  else None.

(** The body of the [try] block of [generateBusinessPrompts]. *)
Definition generate (brandName brandSummary industry url : string)
  : M (list JSON) :=
  raw <- callGemini E (generationPrompt brandName industry brandSummary url) ;;
  let responseText := Text.stripCodeFences raw in
  match fromJson responseText with
  | Some prompts => ret prompts
  | None =>
      match fromLines responseText with
      | Some prompts => ret prompts
      | None => ret (List.map JStr (getDefaultPrompts brandName industry))
      end
  end.

(** [generateBusinessPrompts(businessInfo)] *)
Definition generateBusinessPrompts
           (brandName brandSummary industry url : string) : M (list JSON) :=
  tryCatch (generate brandName brandSummary industry url)
           (fun _ => ret (List.map JStr (getDefaultPrompts brandName industry))).

End WithEnv.

End PromptGeneration.

(* ================================================================== *)
(** ** services/llmService.js: the run *)
(* ================================================================== *)

(** An entry of [PROMPT_TEMPLATES] or a generated prompt.  A generated
    prompt is whatever the model put in its array, hence a [JSON] value. *)
Record PromptTemplate : Type := mkTemplate {
  id : string;
  template : JSON;
  category : string
}.

(** [options.businessInfo]; an absent property is [None]. *)
Record BusinessInfo : Type := mkBusinessInfo {
  brandName : option string;
  industry : option string;
  brandSummary : option string
}.

(** [options] of [analyzeLLMVisibility]; [businessInfo = None] is a falsy
    value passed explicitly, the default being the empty object. *)
Record Options : Type := mkOptions {
  isPremium : bool;
  businessInfo : option BusinessInfo
}.

Definition defaultOptions : Options :=
  {| isPremium := false;
     businessInfo := Some {| brandName := None; industry := None;
                             brandSummary := None |} |}.

(** [analysisResult], the intermediate record of one prompt. *)
Record AnalysisResult : Type := mkAnalysisResult {
  ar_response : string;
  ar_parsedResponse : JSON;
  ar_citations : list JSON;
  ar_mentioned : JSON;
  ar_llmResults : option (list (string * JSON));
  ar_tokensUsed : Z
}.

(** An element of [details]. *)
Module Detail.
Record t : Type := mk {
  promptId : string;
  prompt : JSON;
  response : option string;             (* [None]: null *)
  parsedResponse : option JSON;         (* [None]: the property is absent *)
  domainMentioned : bool;
  score : Z;
  citations : list string;
  recommendations : option JSON;
  confidence : Confidence;
  tokensUsed : Z;
  multiLLMResults : option (list (string * JSON));
  error : option string                 (* [None]: the property is absent *)
}.
End Detail.

(** A JS number that may be NaN. *)
Inductive JSNumber : Type := NaN | Num (z : Z).

Record Metadata : Type := mkMetadata {
  totalTokens : Z;
  estimatedCost : Q;
  promptsUsed : Z;
  multiLLMEnabled : bool
}.

(** The object [analyzeLLMVisibility] returns. *)
Record Report : Type := mkReport {
  totalScore : Z;
  maxScore : Z;
  percentage : JSNumber;
  details : list Detail.t;
  reportIsPremium : bool;
  metadata : Metadata
}.

Module Visibility.
Import Async.
Local Open Scope async_scope.

(** Predefined prompts for the MVP. *)
Definition PROMPT_TEMPLATES : list PromptTemplate :=
  [ {| id := "brand-knowledge";
       template := JStr "Describe what the brand {brand} is, based only on what you already know. What type of entity is it, what does it do, and how would an AI categorize it?";
       category := "brand-awareness" |};
    {| id := "website-understanding";
       template := JStr "Explain what someone would understand about {brand} from visiting {domain}. Summarize the mission, audience, and main offering.";
       category := "website-analysis" |};
    {| id := "authoritative-sources";
       template := JStr "If someone asked where to find reliable, official information about {brand}, what sources would you recommend? Explain why these sources appear authoritative.";
       category := "citation-capture" |} ].

Definition maxRetries : nat := 3.
Definition baseDelay : Z := 1000.

(** [error.message?.includes('503') || ...] *)
Definition is503Error (message : string) : bool :=
  Str.includes message "503"
  || Str.includes message "Service Unavailable"
  || Str.includes message "overloaded".

(** [extractBrand(domain)] *)
Definition extractBrand (domain : string) : string :=
  match Str.splitHead Analyzer.isDot domain with
  | EmptyString => EmptyString
  | String c rest => Str.toUpperCase1 c ++ rest
  end.

(** [guessTopic(brand)] *)
Definition guessTopic (brand : string) : string :=
  brand ++ " and similar services".

(** [x || fallback] for a property that may be absent. *)
Definition orDefault (x : option string) (fallback : string) : string :=
  match x with
  | Some s => PromptGeneration.orElse s fallback
  | None => fallback
  end.

(** The replacement of the three variables of a template, each at its
    first occurrence.  A template that is not a string has no [replace]
    method: the call throws a TypeError. *)
Definition fillTemplate (template : JSON) (domain brand topic : string)
  : Completion string :=
  match template with
  | JStr text =>
      Return (Str.replace "{topic}" topic
                (Str.replace "{brand}" brand
                   (Str.replace "{domain}" domain text)))
  | JNull => Throw "Cannot read properties of null (reading 'replace')"
  | _ => Throw "promptTemplate.template.replace is not a function"
  end.

Fixpoint chars (s : string) : list JSON :=
  match s with
  | EmptyString => []
  | String c s' => JStr (String c EmptyString) :: chars s'
  end.

(** [...(x || [])]: the elements of an array, the characters of a string;
    any other truthy value is not iterable and the spread throws. *)
Definition spread (x : option JSON) : Completion (list JSON) :=
  match x with
  | None => Return []
  | Some (JArr items) => Return items
  | Some (JStr s) => Return (chars s)
  | Some other =>
      if Js.truthy other then Throw "object is not iterable"
      else Return []
  end.

(** The equality of [Set]: primitives by value, arrays and objects by
    identity (two elements of parsed arrays are never the same object). *)
Definition sameValueZero (a b : JSON) : bool :=
  match a, b with
  | JNull, JNull => true
  | JBool x, JBool y => Bool.eqb x y
  | JNum x, JNum y => Qeq_bool x y
  | JStr x, JStr y => String.eqb x y
  | _, _ => false
  end.

(** [[...new Set(all)]]: first occurrences, in order. *)
Fixpoint unique (seen all : list JSON) : list JSON :=
  match all with
  | [] => []
  | x :: rest =>
      if existsb (sameValueZero x) seen then unique seen rest
      else x :: unique (x :: seen) rest
  end.

(** [a || b || c || {}] *)
Definition firstTruthy (a b c : JSON) : JSON :=
  if Js.truthy a then a
  else if Js.truthy b then b
  else if Js.truthy c then c
  else JObj [].

Definition tagged (provider : string) (v : JSON) : list (string * JSON) :=
  if Js.truthy v then [(provider, v)] else [].

(** [Recommendation ${idx + 1}] objects of the text fallback. *)
Fixpoint numbered (idx : nat) (lines : list string) : list JSON :=
  match lines with
  | [] => []
  | line :: rest =>
      JObj [ ("title", JStr ("Recommendation " ++ Text.ofNat (idx + 1)));
             ("description",
              JStr (Str.trim (PromptGeneration.stripBullet
                                (PromptGeneration.stripNumber line))));
             ("priority", JStr "medium") ]
      :: numbered (S idx) rest
  end.

Definition recommendationLine (line : string) : bool :=
  (0 <? String.length (Str.trim line))%nat
  && (match PromptGeneration.afterNumber line with
      | Some _ => true
      | None => false
      end
      || PromptGeneration.startsBullet line).

Definition recommendationPrompt (domain brand : string) : string :=
  Text.unlines
    [ "Based on your analysis of " ++ brand ++ " (" ++ domain
        ++ "), provide 3-5 specific, actionable recommendations to improve their visibility in AI search results. Focus on:";
      "1. Content improvements";
      "2. Technical SEO enhancements";
      "3. Authority building strategies";
      "4. Citation opportunities";
      "";
      "Respond in JSON format:";
      "{";
      "  " ++ Text.dq ++ "recommendations" ++ Text.dq ++ ": [";
      "    {" ++ Text.dq ++ "title" ++ Text.dq ++ ": " ++ Text.dq
        ++ "Recommendation title" ++ Text.dq ++ ", " ++ Text.dq
        ++ "description" ++ Text.dq ++ ": " ++ Text.dq
        ++ "Detailed explanation" ++ Text.dq ++ ", " ++ Text.dq
        ++ "priority" ++ Text.dq ++ ": " ++ Text.dq ++ "high|medium|low"
        ++ Text.dq ++ "},";
      "    ...";
      "  ]";
      "}" ].

(** The running totals and the entries pushed so far. *)
Record Acc : Type := mkAcc {
  results : list Detail.t;
  accScore : Z;
  accTokens : Z
}.

Definition emptyAcc : Acc := {| results := []; accScore := 0; accTokens := 0 |}.

(** The entry the [catch] of the loop pushes. *)
Definition failed (pt : PromptTemplate) (message : string) : Detail.t :=
  {| Detail.promptId := id pt;
     Detail.prompt := template pt;
     Detail.response := None;
     Detail.parsedResponse := None;
     Detail.domainMentioned := false;
     Detail.score := 0;
     Detail.citations := [];
     Detail.recommendations := None;
     Detail.confidence := low;
     Detail.tokensUsed := 0;
     Detail.multiLLMResults := None;
     Detail.error := Some message |}.

Definition pushFailed (acc : Acc) (pt : PromptTemplate) (message : string)
  : Acc :=
  {| results := results acc ++ [failed pt message];
     accScore := accScore acc;
     accTokens := accTokens acc |}.

(** [Math.round((totalScore / maxScore) * 100)]; 0/0 is NaN. *)
Definition percentageOf (total maxS : Z) : JSNumber :=
  if maxS =? 0 then NaN
  else Num (Analyzer.Math_round ((inject_Z total / inject_Z maxS) * 100)).

Section WithEnv.
Variable E : Env.

(** [extractDomain(url)] *)
Definition extractDomain (url : string) : string :=
  match URL_hostname E url with
  | Some hostname => Str.replace "www." "" hostname
  | None => Str.splitHead Analyzer.isSlash (Analyzer.stripScheme url)
  end.

(** [getRecommendations(domain, brand, promptId)].  Reading
    [parsed.recommendations] of a parsed [null] throws inside the inner
    [try], which sends the text to the line-by-line fallback. *)
Definition getRecommendations (domain brand promptId : string) : M JSON :=
  tryCatch
    (raw <- callGemini E (recommendationPrompt domain brand) ;;
     let responseText := Text.stripCodeFences raw in
     let fromJson :=
       match JSON_parse E responseText with
       | None | Some JNull => None
       | Some parsed =>
           match Js.get parsed "recommendations" with
           | Some v => Some (if Js.truthy v then v else JArr [])
           | None => Some (JArr [])
           end
       end in
     match fromJson with
     | Some recommendations => ret recommendations
     | None =>
         let lines :=
           filter recommendationLine
                  (Str.split PromptGeneration.isNewline responseText) in
         ret (JArr (numbered 0 (firstn 5 lines)))
     end)
    (fun _ => ret (JArr [])).

(** The retry loop of the single model: [left] iterations remain,
    [attempt] is the loop counter and [lastError] the error of the
    previous iteration. *)
Fixpoint retry (left attempt : nat) (lastError : option string)
         (fullPrompt : string) : M Generated :=
  match left with
  | O =>
      throw (match lastError with
             | Some message => message
             | None => "Failed to get response after retries"
             end)
  | S left' =>
      tryCatch
        (awaitGemini E fullPrompt)
        (fun message =>
           if is503Error message && (attempt <? maxRetries - 1)%nat
           then sleep (baseDelay * 2 ^ Z.of_nat attempt) ;;;
                retry left' (S attempt) (Some message) fullPrompt
           else throw message)
  end.

(** The loop, then [result.response.text()], which no [try] of the loop
    encloses. *)
Definition generateWithRetry (fullPrompt : string) : M string :=
  result <- retry maxRetries 0 None fullPrompt ;;
  lift (readText result).

(** "Single model analysis (free users or fallback)". *)
Definition singleModel (prompt domain : string) : M AnalysisResult :=
  let fullPrompt := Text.fullPrompt domain prompt in
  raw <- generateWithRetry fullPrompt ;;
  let responseText := Text.stripCodeFences raw in
  let parsedResponse :=
    match JSON_parse E responseText with
    | Some parsed => parsed
    | None => JNull
    end in
  let tokensUsed :=
    Text.ceilDiv4 (Str.len fullPrompt + Str.len responseText) in
  analysis <- lift (Analyzer.analyzeResponse responseText domain
                      parsedResponse) ;;
  ret {| ar_response := responseText;
         ar_parsedResponse := parsedResponse;
         ar_citations := List.map JStr (citations analysis);
         ar_mentioned := JBool (mentioned analysis);
         ar_llmResults := None;
         ar_tokensUsed := tokensUsed |}.

(** The aggregation of the three answers ("Use Gemini as primary
    response, aggregate citations from all"). *)
Definition aggregate (prompt : string) (multiLLMResult : MultiLLMResult)
  : Completion AnalysisResult :=
  let llmResults :=
    (tagged "gemini" (gemini multiLLMResult)
     ++ tagged "openrouter1" (openrouter1 multiLLMResult)
     ++ tagged "openrouter2" (openrouter2 multiLLMResult))%list in
  let primaryResponse :=
    firstTruthy (gemini multiLLMResult) (openrouter1 multiLLMResult)
                (openrouter2 multiLLMResult) in
  match spread (Js.get (gemini multiLLMResult) "citations") with
  | Throw message => Throw message
  | Return c0 =>
  match spread (Js.get (openrouter1 multiLLMResult) "citations") with
  | Throw message => Throw message
  | Return c1 =>
  match spread (Js.get (openrouter2 multiLLMResult) "citations") with
  | Throw message => Throw message
  | Return c2 =>
      let uniqueCitations := unique [] (c0 ++ c1 ++ c2)%list in
      let text := JSON_stringify E primaryResponse in
      Return
        {| ar_response := text;
           ar_parsedResponse := primaryResponse;
           ar_citations := uniqueCitations;
           ar_mentioned :=
             match uniqueCitations with
             | _ :: _ => JBool true
             | [] =>
                 match Js.get primaryResponse "mentionsDomain" with
                 | Some v => if Js.truthy v then v else JBool false
                 | None => JBool false
                 end
             end;
           ar_llmResults := Some llmResults;
           ar_tokensUsed := Text.ceilDiv4 (Str.len prompt + Str.len text) |}
  end end end.

(** The multi-LLM analysis of a premium run with its [catch]: a failure
    leaves [analysisResult] null. *)
Definition multiModel (prompt domain : string) : M (option AnalysisResult) :=
  tryCatch
    (multiLLMResult <- MultiLLM.analyzeWithMultipleLLMs E prompt domain ;;
     analysisResult <- lift (aggregate prompt multiLLMResult) ;;
     ret (Some analysisResult))
    (fun _ => ret None).

(** The part of the loop body that yields [analysisResult]. *)
Definition obtain (premium : bool) (pt : PromptTemplate)
           (domain brand topic : string) : M (string * AnalysisResult) :=
  prompt <- lift (fillTemplate (template pt) domain brand topic) ;;
  fromMulti <- (if premium then multiModel prompt domain else ret None) ;;
  match fromMulti with
  | Some analysisResult => ret (prompt, analysisResult)
  | None =>
      analysisResult <- singleModel prompt domain ;;
      ret (prompt, analysisResult)
  end.

(** The rest of the loop body, from "Analyze response" on. *)
Definition record (premium : bool) (acc : Acc) (pt : PromptTemplate)
           (domain brand prompt : string) (analysisResult : AnalysisResult)
  : M Acc :=
  analysis <- lift (Analyzer.analyzeResponse (ar_response analysisResult)
                      domain (ar_parsedResponse analysisResult)) ;;
  recs <- (match citations analysis, mentioned analysis with
           | [], false =>
               tryCatch (getRecommendations domain brand (id pt))
                        (fun _ => ret (JArr []))
           | _, _ => ret (JArr [])
           end) ;;
  sleep 500 ;;;
  ret {| results :=
           results acc ++
           [ {| Detail.promptId := id pt;
                Detail.prompt := JStr prompt;
                Detail.response := Some (ar_response analysisResult);
                Detail.parsedResponse := Some (ar_parsedResponse analysisResult);
                Detail.domainMentioned := mentioned analysis;
                Detail.score := score analysis;
                Detail.citations := citations analysis;
                Detail.recommendations := Some recs;
                Detail.confidence := confidence analysis;
                Detail.tokensUsed := ar_tokensUsed analysisResult;
                Detail.multiLLMResults :=
                  if premium then ar_llmResults analysisResult else None;
                Detail.error := None |} ];
         accScore := accScore acc + score analysis;
         accTokens := accTokens acc |}.

(** One iteration of [for (const promptTemplate of promptsToUse)].  The
    [catch] sees the totals as they are when the error is thrown:
    [totalTokens] has advanced once [analysisResult] exists. *)
Definition processPrompt (premium : bool) (domain brand topic : string)
           (acc : Acc) (pt : PromptTemplate) : M Acc :=
  tryCatch
    (pa <- obtain premium pt domain brand topic ;;
     let acc1 := {| results := results acc;
                    accScore := accScore acc;
                    accTokens := accTokens acc + ar_tokensUsed (snd pa) |} in
     tryCatch (record premium acc1 pt domain brand (fst pa) (snd pa))
              (fun message => ret (pushFailed acc1 pt message)))
    (fun message => ret (pushFailed acc pt message)).

Fixpoint dispatch (premium : bool) (domain brand topic : string)
         (prompts : list PromptTemplate) (acc : Acc) : M Acc :=
  match prompts with
  | [] => ret acc
  | pt :: rest =>
      acc' <- processPrompt premium domain brand topic acc pt ;;
      dispatch premium domain brand topic rest acc'
  end.

(** [customPrompts.map((prompt, index) => ...)] *)
Fixpoint toTemplates (index : nat) (customPrompts : list JSON)
  : list PromptTemplate :=
  match customPrompts with
  | [] => []
  | prompt :: rest =>
      {| id := "custom-" ++ Text.ofNat (index + 1);
         template := prompt;
         category := "custom" |} :: toTemplates (S index) rest
  end.

(** The choice of [promptsToUse]. *)
Definition selectPrompts (url : string) (options : Options)
           (brand topic : string) : M (list PromptTemplate) :=
  match isPremium options, businessInfo options with
  | true, Some info =>
      tryCatch
        (customPrompts <-
           PromptGeneration.generateBusinessPrompts E
             (orDefault (brandName info) brand)
             (orDefault (brandSummary info) "")
             (orDefault (industry info) topic)
             url ;;
         ret (toTemplates 0 customPrompts))
        (fun _ => ret PROMPT_TEMPLATES)
  | _, _ => ret PROMPT_TEMPLATES
  end.

Definition report (premium : bool) (promptsToUse : list PromptTemplate)
           (acc : Acc) : Report :=
  let maxS := Z.of_nat (List.length promptsToUse) * 3 in
  {| totalScore := accScore acc;
     maxScore := maxS;
     percentage := percentageOf (accScore acc) maxS;
     details := results acc;
     reportIsPremium := premium;
     metadata :=
       {| totalTokens := accTokens acc;
          estimatedCost := (inject_Z (accTokens acc) / 1000) * (5 # 10000);
          promptsUsed := Z.of_nat (List.length promptsToUse);
          multiLLMEnabled := premium |} |}.

(** [analyzeLLMVisibility(url, options = {})] *)
Definition analyzeLLMVisibility (url : string) (options : Options)
  : M Report :=
  let domain := extractDomain url in
  let brand := extractBrand domain in
  let topic := guessTopic brand in
  promptsToUse <- selectPrompts url options brand topic ;;
  acc <- dispatch (isPremium options) domain brand topic promptsToUse
           emptyAcc ;;
  ret (report (isPremium options) promptsToUse acc).

End WithEnv.

End Visibility.

(* ================================================================== *)
(** ** services/modelHealthCheckService.js *)
(* ================================================================== *)

Module Config.
(** One entry of [MODELS]; an absent [deprecated] property is [false]. *)
Record t : Type := mk {
  name : string;
  provider : string;
  free : bool;
  testPrompt : string;
  deprecated : bool
}.
End Config.

Module Status.
(** The result of one health test; [None] is an absent (or null) property. *)
Record t : Type := mk {
  healthy : bool;
  error : option string;
  responseTime : option Z;
  response : option string;
  isRateLimit : option bool;
  isDeprecated : option bool;
  retryAfter : option Z;
  statusCode : option Z;
  deprecated : bool
}.
End Status.

(** A request that goes to a provider during a health check. *)
Record Request : Type := mkRequest {
  toProvider : string;
  toModel : string;
  endpoint : string;
  input : string
}.

(** The error of a failed request: [error.response?.status],
    [error.message], [JSON.stringify(error.response?.data || {})],
    [error.response?.data?.error] and [error.response?.data?.error?.message]
    where they are truthy. *)
Record HttpError : Type := mkHttpError {
  status : option Z;
  message : string;
  dataText : string;
  dataError : option string;
  dataErrorMessage : option string
}.

(** What a request comes to, with the milliseconds it took. *)
Inductive Outcome : Type :=
| Answered (text : string) (elapsed : Z)
| Failed (err : HttpError) (elapsed : Z).

(** The network and the configuration a health check runs against. *)
Record Net : Type := mkNet {
  send : nat -> Request -> Outcome;      (* requests made before, request *)
  now : nat -> Z;                        (* [new Date()] after so many requests *)
  GEMINI_API_KEY : bool;
  HUGGINGFACE_API_KEY : bool;
  OPENROUTER_KEY : bool
}.

(** The requests sent and the pauses taken, oldest first. *)
Record Wire : Type := mkWire {
  requests : list Request;
  waited : list Z
}.

(** [healthStatus], the cache of the process.  [models] keeps the
    insertion order of the object (only own properties are modelled: the
    names looked up are model identifiers). *)
Record HealthStatus : Type := mkHealthStatus {
  lastChecked : option Z;
  models : list (string * Status.t)
}.

Module Health.

Definition okPrompt : string :=
  "Say " ++ Text.dq ++ "OK" ++ Text.dq ++ " in JSON format: {" ++ Text.dq
  ++ "status" ++ Text.dq ++ ": " ++ Text.dq ++ "ok" ++ Text.dq ++ "}".

Definition live (name provider : string) : Config.t :=
  {| Config.name := name; Config.provider := provider; Config.free := true;
     Config.testPrompt := okPrompt; Config.deprecated := false |}.

Definition retired (name provider : string) : Config.t :=
  {| Config.name := name; Config.provider := provider; Config.free := true;
     Config.testPrompt := okPrompt; Config.deprecated := true |}.

Definition gemini := live "gemini-2.5-flash" "google".
Definition geminiExp := retired "google/gemini-2.0-flash-exp:free" "openrouter".
Definition huggingfaceQwen := retired "Qwen/Qwen2.5-7B-Instruct" "huggingface".
Definition huggingfaceGemma := retired "google/gemma-2-9b-it" "huggingface".
Definition huggingfaceLlama :=
  retired "meta-llama/Llama-3.1-8B-Instruct" "huggingface".
Definition huggingfaceMistral7B :=
  retired "mistralai/Mistral-7B-Instruct-v0.3" "huggingface".
Definition huggingfaceMixtral :=
  retired "mistralai/Mixtral-8x7B-Instruct-v0.1" "huggingface".
Definition huggingfaceLayoutLM :=
  retired "microsoft/layoutlmv3-base" "huggingface".
Definition huggingfaceDistilBERT :=
  retired "distilbert/distilbert-base-uncased" "huggingface".
Definition huggingfaceBGE := live "BAAI/bge-large-en-v1.5" "huggingface".
Definition huggingfaceFlanT5 := retired "google/flan-t5-base" "huggingface".
Definition openrouterDeepSeek := retired "deepseek/deepseek-r1:free" "openrouter".
Definition openrouterMistral :=
  live "mistralai/mistral-7b-instruct:free" "openrouter".
Definition openrouterQwenCoder := retired "qwen/qwen3-coder:free" "openrouter".
Definition openrouterDeepSeekChimera :=
  live "tngtech/deepseek-r1t2-chimera:free" "openrouter".
Definition openrouterSherlockDash :=
  live "openrouter/sherlock-dash-alpha" "openrouter".
Definition openrouterSherlockThink :=
  live "openrouter/sherlock-think-alpha" "openrouter".
Definition openrouterKatCoder := live "kwaipilot/kat-coder-pro:free" "openrouter".

(** [MODELS], in the order of the source. *)
Definition MODELS : list (string * Config.t) :=
  [ ("gemini", gemini);
    ("geminiExp", geminiExp);
    ("huggingfaceQwen", huggingfaceQwen);
    ("huggingfaceGemma", huggingfaceGemma);
    ("huggingfaceLlama", huggingfaceLlama);
    ("huggingfaceMistral7B", huggingfaceMistral7B);
    ("huggingfaceMixtral", huggingfaceMixtral);
    ("huggingfaceLayoutLM", huggingfaceLayoutLM);
    ("huggingfaceDistilBERT", huggingfaceDistilBERT);
    ("huggingfaceBGE", huggingfaceBGE);
    ("huggingfaceFlanT5", huggingfaceFlanT5);
    ("openrouterDeepSeek", openrouterDeepSeek);
    ("openrouterMistral", openrouterMistral);
    ("openrouterQwenCoder", openrouterQwenCoder);
    ("openrouterDeepSeekChimera", openrouterDeepSeekChimera);
    ("openrouterSherlockDash", openrouterSherlockDash);
    ("openrouterSherlockThink", openrouterSherlockThink);
    ("openrouterKatCoder", openrouterKatCoder) ].

(** Code that talks to the network: the wire is threaded. *)
Definition H (A : Type) : Type := Wire -> A * Wire.

Definition pure {A} (a : A) : H A := fun w => (a, w).

Definition andThen {A B} (m : H A) (k : A -> H B) : H B :=
  fun w => let '(a, w') := m w in k a w'.

Definition request (N : Net) (r : Request) : H Outcome :=
  fun w => (send N (List.length (requests w)) r,
            {| requests := requests w ++ [r]; waited := waited w |}).

Definition wait (ms : Z) : H unit :=
  fun w => (tt, {| requests := requests w; waited := waited w ++ [ms] |}).

Definition unhealthy (reason : string) : Status.t :=
  {| Status.healthy := false; Status.error := Some reason;
     Status.responseTime := None; Status.response := None;
     Status.isRateLimit := None; Status.isDeprecated := None;
     Status.retryAfter := None; Status.statusCode := None;
     Status.deprecated := false |}.

Definition notConfigured : Status.t := unhealthy "API key not configured".

(** [{ healthy: false, error: 'Model deprecated', deprecated: true }] *)
Definition modelDeprecated : Status.t :=
  {| Status.healthy := false; Status.error := Some "Model deprecated";
     Status.responseTime := None; Status.response := None;
     Status.isRateLimit := None; Status.isDeprecated := None;
     Status.retryAfter := None; Status.statusCode := None;
     Status.deprecated := true |}.

Definition answered (text : string) (responseTime : Z) : Status.t :=
  {| Status.healthy := true; Status.error := None;
     Status.responseTime := Some responseTime;
     Status.response := Some (Str.take 100 text);
     Status.isRateLimit := None; Status.isDeprecated := None;
     Status.retryAfter := None; Status.statusCode := None;
     Status.deprecated := false |}.

Definition rateLimited (is429 : bool) (reason : string) : Status.t :=
  {| Status.healthy := false; Status.error := Some reason;
     Status.responseTime := None; Status.response := None;
     Status.isRateLimit := Some is429; Status.isDeprecated := None;
     Status.retryAfter := if is429 then Some 60 else None;
     Status.statusCode := None;
     Status.deprecated := false |}.

Definition hasStatus (err : HttpError) (code : Z) : bool :=
  match status err with
  | Some s => s =? code
  | None => false
  end.

(** [testGeminiModel(modelName)] *)
Definition testGeminiModel (N : Net) (modelName : string) : H Status.t :=
  if negb (GEMINI_API_KEY N) then pure notConfigured
  else
    andThen
      (request N {| toProvider := "google"; toModel := modelName;
                    endpoint := ""; input := Config.testPrompt gemini |})
      (fun outcome =>
         match outcome with
         | Answered text elapsed => pure (answered text elapsed)
         | Failed err _ =>
             let is429 := Str.includes (message err) "429"
                          || Str.includes (message err) "rate limit"
                          || Str.includes (message err) "quota" in
             pure (rateLimited is429 (message err))
         end).

(** [testOpenRouterModel(modelName)] *)
Definition testOpenRouterModel (N : Net) (modelName : string) : H Status.t :=
  if negb (OPENROUTER_KEY N) then pure notConfigured
  else
    andThen
      (request N {| toProvider := "openrouter"; toModel := modelName;
                    endpoint := "https://openrouter.ai/api/v1/chat/completions";
                    input := Config.testPrompt openrouterDeepSeek |})
      (fun outcome =>
         match outcome with
         | Answered text elapsed => pure (answered text elapsed)
         | Failed err _ =>
             let is429 := hasStatus err 429
                          || Str.includes (message err) "429"
                          || Str.includes (message err) "rate limit" in
             pure (rateLimited is429
                     (match dataErrorMessage err with
                      | Some m => m
                      | None => message err
                      end))
         end).

(** How the inner loop of [testHuggingFaceModel] leaves an endpoint. *)
Inductive Attempted : Type :=
| Got (text : string)
| NextEndpoint (lastError : option HttpError)
| Thrown (err : HttpError).

Definition hfMaxRetries : nat := 2.

(** [for (let attempt = 0; attempt <= maxRetries; attempt++)] on one
    endpoint: [left] iterations remain; [spent] adds up the time gone. *)
Fixpoint attempts (N : Net) (modelName url : string) (isLastEndpoint : bool)
         (left attempt : nat) (lastError : option HttpError) (spent : Z)
  : H (Attempted * Z) :=
  match left with
  | O => pure (NextEndpoint lastError, spent)
  | S left' =>
      andThen
        (request N {| toProvider := "huggingface"; toModel := modelName;
                      endpoint := url;
                      input := Config.testPrompt huggingfaceBGE |})
        (fun outcome =>
           match outcome with
           | Answered text elapsed => pure (Got text, spent + elapsed)
           | Failed err elapsed =>
               if hasStatus err 503 && (attempt <? hfMaxRetries)%nat then
                 let waitTime := (Z.of_nat attempt + 1) * 5000 in
                 andThen (wait waitTime)
                   (fun _ => attempts N modelName url isLastEndpoint left'
                               (S attempt) (Some err)
                               (spent + elapsed + waitTime))
               else if hasStatus err 410 || hasStatus err 404 then
                 pure (NextEndpoint (Some err), spent + elapsed)
               else if hasStatus err 401 || hasStatus err 403 then
                 pure (Thrown err, spent + elapsed)
               else if negb isLastEndpoint then
                 pure (NextEndpoint (Some err), spent + elapsed)
               else pure (Thrown err, spent + elapsed)
           end)
  end.

Definition noEndpointLeft : HttpError :=
  {| status := None;
     message := "All HuggingFace router endpoint formats failed";
     dataText := "{}"; dataError := None; dataErrorMessage := None |}.

(** [for (const endpoint of endpoints)], then
    [if (!response) throw lastError || new Error(...)]. *)
Fixpoint overEndpoints (N : Net) (modelName : string) (urls : list string)
         (lastError : option HttpError) (spent : Z)
  : H (Attempted * Z) :=
  match urls with
  | [] =>
      pure (Thrown (match lastError with
                    | Some err => err
                    | None => noEndpointLeft
                    end), spent)
  | url :: rest =>
      andThen
        (attempts N modelName url (match rest with [] => true | _ => false end)
                  (S hfMaxRetries) 0 lastError spent)
        (fun r =>
           match fst r with
           | NextEndpoint lastError' =>
               overEndpoints N modelName rest lastError' (snd r)
           | _ => pure r
           end)
  end.

Definition endpoints (modelName : string) : list string :=
  [ "https://router.huggingface.co/hf-inference/models/" ++ modelName;
    "https://router.huggingface.co/hf-inference/" ++ modelName;
    "https://router.huggingface.co/models/" ++ modelName ].

(** The [catch] of [testHuggingFaceModel]. *)
Definition hfFailure (modelName : string) (err : HttpError) : Status.t :=
  let is429 := hasStatus err 429
               || Str.includes (message err) "429"
               || Str.includes (message err) "rate limit" in
  let is404 := hasStatus err 404 in
  let is403 := hasStatus err 403 in
  let is401 := hasStatus err 401 in
  let is410 := hasStatus err 410 in
  let is503 := hasStatus err 503 in
  let errorText := dataText err ++ " " ++ message err in
  let isDeprecated := is410
                      || Str.includes errorText "no longer supported"
                      || Str.includes errorText "deprecated"
                      || Str.includes errorText "Gone" in
  let errorMessage :=
    if is410 then "Endpoint deprecated (410 Gone) - Using new router endpoint"
    else if is401 then "Unauthorized - Check HUGGINGFACE_API_KEY"
    else if is403 then "Forbidden - API key may not have access to this model"
    else if is404 then "Model not found (404) - Model: " ++ modelName
    else if is503 then "Model is loading - Please wait and retry"
    else if is429 then "Rate limited - Please wait before retrying"
    else if isDeprecated
    then "HuggingFace endpoint deprecated. Please check HuggingFace API documentation."
    else match dataError err with
         | Some e => e
         | None =>
             if negb (String.eqb (message err) "") then message err
             else "Unknown error (Status: "
                  ++ match status err with
                     | Some 0 | None => "N/A"
                     | Some s => Text.ofNat (Z.to_nat s)
                     end ++ ")"
         end in
  {| Status.healthy := false; Status.error := Some errorMessage;
     Status.responseTime := None; Status.response := None;
     Status.isRateLimit := Some is429;
     Status.isDeprecated := Some (isDeprecated || is404);
     Status.retryAfter := if is429 then Some 60 else None;
     Status.statusCode := status err;
     Status.deprecated := false |}.

(** [testHuggingFaceModel(modelName)] *)
Definition testHuggingFaceModel (N : Net) (modelName : string) : H Status.t :=
  if negb (HUGGINGFACE_API_KEY N) then pure notConfigured
  else
    andThen (overEndpoints N modelName (endpoints modelName) None 0)
      (fun r =>
         match fst r with
         | Got text => pure (answered text (snd r))
         | Thrown err => pure (hfFailure modelName err)
         | NextEndpoint lastError =>
             pure (hfFailure modelName
                     (match lastError with
                      | Some err => err
                      | None => noEndpointLeft
                      end))
         end).

(** [results.key = value] on the object under construction. *)
Fixpoint setKey (key : string) (value : Status.t)
         (results : list (string * Status.t)) : list (string * Status.t) :=
  match results with
  | [] => [(key, value)]
  | (k, v) :: rest =>
      if String.eqb k key then (k, value) :: rest
      else (k, v) :: setKey key value rest
  end.

(** [if (!MODELS.key.deprecated) results.key = await test(MODELS.key.name)
     else results.key = { healthy: false, error: 'Model deprecated', ... }] *)
Definition guarded (test : string -> H Status.t) (key : string)
           (config : Config.t) (results : list (string * Status.t))
  : H (list (string * Status.t)) :=
  if negb (Config.deprecated config)
  then andThen (test (Config.name config))
               (fun r => pure (setKey key r results))
  else pure (setKey key modelDeprecated results).

(** [results.key = await test(MODELS.key.name)], with no look at the flag. *)
Definition always (test : string -> H Status.t) (key : string)
           (config : Config.t) (results : list (string * Status.t))
  : H (list (string * Status.t)) :=
  andThen (test (Config.name config)) (fun r => pure (setKey key r results)).

Definition without (key : string) (results : list (string * Status.t))
  : H (list (string * Status.t)) :=
  pure (setKey key notConfigured results).

(** A sequence of statements, each of which extends [results]. *)
Fixpoint steps (ss : list (list (string * Status.t) -> H (list (string * Status.t))))
         (results : list (string * Status.t)) : H (list (string * Status.t)) :=
  match ss with
  | [] => pure results
  | s :: rest => andThen (s results) (steps rest)
  end.

(** The three blocks of [checkAllModels]. *)
Definition geminiBlock (N : Net)
  : list (list (string * Status.t) -> H (list (string * Status.t))) :=
  if GEMINI_API_KEY N
  then [ always (testGeminiModel N) "gemini" gemini ]
  else [ without "gemini" ].

Definition huggingFaceBlock (N : Net)
  : list (list (string * Status.t) -> H (list (string * Status.t))) :=
  if HUGGINGFACE_API_KEY N
  then [ guarded (testHuggingFaceModel N) "huggingfaceQwen" huggingfaceQwen;
         guarded (testHuggingFaceModel N) "huggingfaceGemma" huggingfaceGemma;
         guarded (testHuggingFaceModel N) "huggingfaceLlama" huggingfaceLlama;
         guarded (testHuggingFaceModel N) "huggingfaceMistral7B" huggingfaceMistral7B;
         guarded (testHuggingFaceModel N) "huggingfaceMixtral" huggingfaceMixtral;
         guarded (testHuggingFaceModel N) "huggingfaceLayoutLM" huggingfaceLayoutLM;
         guarded (testHuggingFaceModel N) "huggingfaceDistilBERT" huggingfaceDistilBERT;
         always (testHuggingFaceModel N) "huggingfaceBGE" huggingfaceBGE;
         guarded (testHuggingFaceModel N) "huggingfaceFlanT5" huggingfaceFlanT5 ]
  else [ without "huggingfaceQwen"; without "huggingfaceGemma";
         without "huggingfaceLlama"; without "huggingfaceMistral7B";
         without "huggingfaceMixtral"; without "huggingfaceLayoutLM";
         without "huggingfaceDistilBERT"; without "huggingfaceBGE";
         without "huggingfaceFlanT5" ].

Definition openRouterBlock (N : Net)
  : list (list (string * Status.t) -> H (list (string * Status.t))) :=
  if OPENROUTER_KEY N
  then [ guarded (testOpenRouterModel N) "geminiExp" geminiExp;
         guarded (testOpenRouterModel N) "openrouterDeepSeek" openrouterDeepSeek;
         guarded (testOpenRouterModel N) "openrouterQwenCoder" openrouterQwenCoder;
         always (testOpenRouterModel N) "openrouterMistral" openrouterMistral;
         always (testOpenRouterModel N) "openrouterDeepSeekChimera"
                openrouterDeepSeekChimera;
         always (testOpenRouterModel N) "openrouterSherlockDash"
                openrouterSherlockDash;
         always (testOpenRouterModel N) "openrouterSherlockThink"
                openrouterSherlockThink;
         always (testOpenRouterModel N) "openrouterKatCoder" openrouterKatCoder ]
  else [ without "geminiExp"; without "openrouterDeepSeek";
         without "openrouterMistral"; without "openrouterQwenCoder";
         without "openrouterDeepSeekChimera"; without "openrouterSherlockDash";
         without "openrouterSherlockThink"; without "openrouterKatCoder" ].

(** [checkAllModels()]: the results, and the cache after "Update cache". *)
Definition checkAllModels (N : Net) : H (list (string * Status.t) * HealthStatus) :=
  andThen
    (steps (geminiBlock N ++ huggingFaceBlock N ++ openRouterBlock N) [])
    (fun results =>
       fun w =>
         ((results,
           {| lastChecked := Some (now N (List.length (requests w)));
              models := results |}), w)).

(** [getHealthStatus()] is the cache itself. *)
Definition getHealthStatus (healthStatus : HealthStatus) : HealthStatus :=
  healthStatus.

(** An element of the list [getHealthyModels] returns.  [config] is what
    [MODELS[name]] found: [Js.Absent] stands for the placeholder
    [{ provider: 'unknown' }], [Js.Inherited] for a function every object
    inherits. *)
Record HealthyModel : Type := mkHealthyModel {
  hm_name : string;
  hm_config : Js.Found Config.t;
  hm_status : Status.t
}.

(** [getHealthyModels(provider = null)]; an empty [provider] is falsy. *)
Definition getHealthyModels (healthStatus : HealthStatus)
           (provider : option string) : list HealthyModel :=
  let wanted (modelConfig : Js.Found Config.t) : bool :=
    match provider with
    | None => true
    | Some p =>
        if String.eqb p "" then true
        else match modelConfig with
             | Js.Own c => String.eqb (Config.provider c) p
             | _ => false
             end
    end in
  flat_map
    (fun entry =>
       let '(name, result) := entry in
       let modelConfig := Js.lookup name MODELS in
       if Status.healthy result && wanted modelConfig
       then [ {| hm_name := name; hm_config := modelConfig;
                 hm_status := result |} ]
       else [])
    (models healthStatus).

(** The table inside [isModelHealthy]: full names to config keys. *)
Definition modelNameMap : list (string * string) :=
  [ ("mistralai/mistral-7b-instruct:free", "openrouterMistral");
    ("openrouter/sherlock-dash-alpha", "openrouterSherlockDash");
    ("openrouter/sherlock-think-alpha", "openrouterSherlockThink");
    ("kwaipilot/kat-coder-pro:free", "openrouterKatCoder");
    ("tngtech/deepseek-r1t2-chimera:free", "openrouterDeepSeekChimera") ].

(** [if (healthStatus.models[key]) return healthStatus.models[key].healthy]:
    [Some (Some b)] returns the flag of an own entry; [Some None] returns
    [undefined], for a [key] that names a property of [Object.prototype] (a
    truthy value without a [healthy] property); [None] goes on. *)
Definition healthOf (cache : list (string * Status.t)) (key : string)
  : option (option bool) :=
  match Js.lookup key cache with
  | Js.Own r => Some (Some (Status.healthy r))
  | Js.Inherited _ => Some None
  | Js.Absent => None
  end.

(** "Check exact match first (by config key)". *)
Definition byKey (cache : list (string * Status.t)) (modelName : string)
  : option (option bool) :=
  healthOf cache modelName.

(** "Check mapped name".  This point is reached with a [modelName] that
    names no property of [healthStatus.models], own or inherited, hence no
    property of [Object.prototype]: [modelNameMap[modelName]] is an own
    entry of the table or [undefined]. *)
Definition byMap (cache : list (string * Status.t)) (modelName : string)
  : option (option bool) :=
  match Js.assoc modelName modelNameMap with
  | Some mappedKey =>
      if String.eqb mappedKey "" then None else healthOf cache mappedKey
  | None => None
  end.

(** The loop over [Object.entries(MODELS)]: the first config whose name is
    [modelName], letter case apart, and whose key is in the cache. *)
Fixpoint byName (cache : list (string * Status.t)) (modelName : string)
         (configs : list (string * Config.t)) : option (option bool) :=
  match configs with
  | [] => None
  | (key, config) :: rest =>
      if negb (String.eqb (Config.name config) "")
         && String.eqb (Str.toLowerCase (Config.name config))
                       (Str.toLowerCase modelName)
      then match healthOf cache key with
           | Some returned => Some returned
           | None => byName cache modelName rest
           end
      else byName cache modelName rest
  end.

(** [modelConfig && modelConfig.name] for [modelConfig = MODELS[name]]: the
    name of a config of the table, the [name] of a function every object
    inherits, or a falsy value. *)
Definition configName (name : string) : option string :=
  match Js.lookup name MODELS with
  | Js.Own modelConfig => Some (Config.name modelConfig)
  | Js.Inherited functionName => functionName
  | Js.Absent => None
  end.

(** The loop over [Object.entries(healthStatus.models)]: the first entry
    whose config name contains [modelName] or is contained in it. *)
Fixpoint byPartial (modelName : string) (entries : list (string * Status.t))
  : option bool :=
  match entries with
  | [] => None
  | (name, result) :: rest =>
      match configName name with
      | Some configuredName =>
          if negb (String.eqb configuredName "")
             && (Str.includes (Str.toLowerCase configuredName)
                              (Str.toLowerCase modelName)
                 || Str.includes (Str.toLowerCase modelName)
                                 (Str.toLowerCase configuredName))
          then Some (Status.healthy result)
          else byPartial modelName rest
      | None => byPartial modelName rest
      end
  end.

(** [isModelHealthy(modelName)]; [None] is [undefined]. *)
Definition isModelHealthy (healthStatus : HealthStatus) (modelName : string)
  : option bool :=
  let cache := models healthStatus in
  match byKey cache modelName with
  | Some returned => returned
  | None =>
      match byMap cache modelName with
      | Some returned => returned
      | None =>
          match byName cache modelName MODELS with
          | Some returned => returned
          | None =>
              match byPartial modelName cache with
              | Some h => Some h
              | None => Some true
              end
          end
      end
  end.

End Health.

(* ================================================================== *)
(** ** services/warningRecommendationService.js *)
(* ================================================================== *)

(** What OpenRouter answers to a chat completion: a response, whose
    [data.choices[0].message.content] is a string or cannot be read (the
    [.trim()] of the caller then throws a TypeError), or an error. *)
Inductive Reply : Type :=
| Replied (content : option string)
| Rejected (err : HttpError).

(** The collaborators of the recommendation service. *)
Record Router : Type := mkRouter {
  post : nat -> Request -> Reply;        (* posts made before, request *)
  ROUTER_API_KEY : bool;                 (* [process.env.OPENROUTER_API_KEY] *)
  parseJSON : string -> option JSON;     (* [JSON.parse]; [None]: it throws *)
  textOf : JSON -> Completion string
  (* [String(v)] of a value of a request body; it throws a TypeError for an
     object that has a property [toString] of its own, which is no function *)
}.

(** The posts made and the pauses taken, oldest first.  Of the console
    only the line [Using model: ...] is kept, as the model it names: it is
    the one place where [selectedModel] is used. *)
Record Session : Type := mkSession {
  posts : list Request;
  pauses : list Z;
  console : list string
}.

Module Warning.

Definition OPENROUTER_API_URL : string :=
  "https://openrouter.ai/api/v1/chat/completions".

Definition MODEL_PRIORITY : list string :=
  [ "openrouter/sherlock-dash-alpha";
    "mistralai/mistral-7b-instruct:free";
    "openrouter/sherlock-think-alpha";
    "kwaipilot/kat-coder-pro:free";
    "tngtech/deepseek-r1t2-chimera:free" ].

(** The two properties read of [context], a value of the request body
    that is not [null] (the route passes [context || {}]); [None] is an
    absent property, and a value that is not an object has neither. *)
Record Context : Type := mkContext {
  brandName : option JSON;
  industry : option JSON
}.

Definition W (A : Type) : Type := Session -> A * Session.

Definition yield {A} (a : A) : W A := fun s => (a, s).

Definition andNext {A B} (m : W A) (k : A -> W B) : W B :=
  fun s => let '(a, s') := m s in k a s'.

Definition send (R : Router) (r : Request) : W Reply :=
  fun s => (post R (List.length (posts s)) r,
            {| posts := posts s ++ [r]; pauses := pauses s;
               console := console s |}).

Definition pause (ms : Z) : W unit :=
  fun s => (tt, {| posts := posts s; pauses := pauses s ++ [ms];
                   console := console s |}).

Definition log (line : string) : W unit :=
  fun s => (tt, {| posts := posts s; pauses := pauses s;
                   console := console s ++ [line] |}).

(** The object a recommendation is. *)
Definition recommendation (summary impact : string) (steps resources : list string)
           (timeEstimate : string) (warning : JSON) : JSON :=
  JObj [ ("summary", JStr summary);
         ("impact", JStr impact);
         ("steps", JArr (List.map JStr steps));
         ("resources", JArr (List.map JStr resources));
         ("timeEstimate", JStr timeEstimate);
         ("model", JStr "fallback");
         ("warning", warning) ].

(** The body of [getFallbackRecommendation] once [warningLower] is
    known. *)
Definition builtIn (warningLower : string) (warning : JSON) : JSON :=
  if Str.includes warningLower "https" || Str.includes warningLower "ssl" then
    recommendation
      "HTTPS is essential for security and SEO rankings."
      ("Without HTTPS, browsers mark your site as " ++ Text.dq ++ "Not Secure"
       ++ Text.dq
       ++ ", users lose trust, and search engines may rank you lower.")
      [ "Purchase or get a free SSL certificate (e.g., Let's Encrypt)";
        "Install the certificate on your web server";
        "Update all internal links to use HTTPS";
        "Set up 301 redirects from HTTP to HTTPS";
        "Update your sitemap and submit to Google Search Console" ]
      [ "Let's Encrypt - Free SSL certificates";
        "Cloudflare - Free SSL with CDN";
        "Google Search Console - Monitor HTTPS migration" ]
      "1-2 hours" warning
  else if Str.includes warningLower "title" then
    recommendation
      "Page titles are critical for SEO and appear in search results."
      "Missing or poor titles reduce click-through rates and make it harder for search engines to understand your content."
      [ "Write a unique, descriptive title (50-60 characters)";
        "Include your primary keyword near the beginning";
        "Add your brand name at the end";
        "Make it compelling to encourage clicks";
        "Test with Google's SERP Simulator" ]
      [ "Moz Title Tag Guide";
        "Google SERP Simulator";
        "Yoast SEO Plugin (WordPress)" ]
      "10-15 minutes" warning
  else if Str.includes warningLower "meta description" then
    recommendation
      "Meta descriptions provide context in search results."
      "Good meta descriptions improve click-through rates by 5-15% and help search engines understand your content."
      [ "Write a unique description (150-160 characters)";
        "Include your target keywords naturally";
        "Make it compelling and benefit-focused";
        "Add a call-to-action";
        "Avoid duplicate descriptions across pages" ]
      [ "SERP Preview Tool";
        "Screaming Frog - Audit meta descriptions";
        "Google Search Console - Impressions data" ]
      "15-20 minutes" warning
  else if Str.includes warningLower "alt" || Str.includes warningLower "image"
  then
    recommendation
      "Alt text makes images accessible and improves SEO."
      "Missing alt text hurts accessibility, image SEO, and can cost you valuable organic traffic from image search."
      [ "Audit all images without alt text";
        "Write descriptive alt text for each image";
        "Include relevant keywords naturally";
        "Keep it concise (125 characters or less)";
        "Don't start with " ++ Text.dq ++ "image of" ++ Text.dq ++ " or "
          ++ Text.dq ++ "picture of" ++ Text.dq ]
      [ "WebAIM Alt Text Guide";
        "Google Image SEO Best Practices";
        "Bulk Alt Text Checker Tools" ]
      "30 minutes - 2 hours" warning
  else if Str.includes warningLower "structured data"
          || Str.includes warningLower "schema" then
    recommendation
      "Structured data helps search engines understand your content."
      "Schema markup can lead to rich snippets in search results, improving visibility and click-through rates by up to 30%."
      [ "Identify appropriate schema types for your content";
        "Use Schema.org markup (JSON-LD format recommended)";
        "Add schema to key pages (homepage, products, articles)";
        "Test with Google's Rich Results Test";
        "Monitor in Google Search Console" ]
      [ "Schema.org Documentation";
        "Google Rich Results Test";
        "Schema Markup Generator Tools" ]
      "1-3 hours" warning
  else
    recommendation
      "This SEO issue needs attention to improve your site's performance."
      "Addressing this issue will help improve your search visibility and user experience."
      [ "Review the issue details carefully";
        "Research best practices for this specific issue";
        "Implement the recommended changes";
        "Test the changes thoroughly";
        "Monitor the impact over time" ]
      [ "Google Search Central Documentation";
        "Moz SEO Guide";
        "Web.dev Best Practices" ]
      "30 minutes - 2 hours" warning.

(** [getFallbackRecommendation(warning)].  [warning.toLowerCase()] throws a
    TypeError on a value that is not a string. *)
Definition getFallbackRecommendation (warning : JSON) : Completion JSON :=
  match warning with
  | JStr text => Return (builtIn (Str.toLowerCase text) warning)
  | JNull => Throw "Cannot read properties of null (reading 'toLowerCase')"
  | _ => Throw "warning.toLowerCase is not a function"
  end.

(** What [tryModelRequest] comes to: the response, [null], or the error it
    throws. *)
Inductive Tried : Type :=
| Responded (content : option string)
| Null
| Threw (err : HttpError).

Definition is429 (err : HttpError) : bool :=
  match status err with
  | Some s => s =? 429
  | None => false
  end
  || Str.includes (message err) "429"
  || Str.includes (message err) "rate limit".

Definition chat (modelName prompt : string) : Request :=
  {| toProvider := "openrouter"; toModel := modelName;
     endpoint := OPENROUTER_API_URL; input := prompt |}.

(** [for (let attempt = 0; attempt < maxRetries; attempt++)]: [left]
    iterations remain. *)
Fixpoint requestLoop (R : Router) (modelName prompt : string)
         (maxRetries left attempt : nat) : W Tried :=
  match left with
  | O => yield Null
  | S left' =>
      andNext (send R (chat modelName prompt))
        (fun reply =>
           match reply with
           | Replied content => yield (Responded content)
           | Rejected err =>
               if is429 err && (attempt <? maxRetries - 1)%nat then
                 andNext (pause (2000 * 2 ^ Z.of_nat attempt))
                   (fun _ => requestLoop R modelName prompt maxRetries left'
                               (S attempt))
               else yield (Threw err)
           end)
  end.

(** [tryModelRequest(modelName, prompt, maxRetries = 2)] *)
Definition tryModelRequest (R : Router) (modelName prompt : string)
           (maxRetries : nat) : W Tried :=
  requestLoop R modelName prompt maxRetries maxRetries 0.

(** What a template literal makes of a value. *)
Definition interpolate (R : Router) (v : JSON) : Completion string :=
  match v with
  | JStr text => Return text
  | _ => textOf R v
  end.

(** [${x ? `label: ${x}` : ''}] for a property that may be absent. *)
Definition labelled (R : Router) (label : string) (x : option JSON)
  : Completion string :=
  match x with
  | Some v =>
      if Js.truthy v then
        match interpolate R v with
        | Return text => Return (label ++ text)
        | Throw message => Throw message
        end
      else Return ""
  | None => Return ""
  end.

(** The prompt of [generateWarningRecommendation]; its substitutions are
    made from left to right. *)
Definition seoPrompt (R : Router) (warning : JSON) (context : Context)
  : Completion string :=
  match interpolate R warning with
  | Throw message => Throw message
  | Return issue =>
  match labelled R "Brand: " (brandName context) with
  | Throw message => Throw message
  | Return brandLine =>
  match labelled R "Industry: " (industry context) with
  | Throw message => Throw message
  | Return industryLine =>
  Return
  (Text.unlines
    [ "As an SEO expert, provide a detailed, actionable recommendation for the following SEO issue:";
      "";
      "Issue: " ++ Text.dq ++ issue ++ Text.dq;
      brandLine;
      industryLine;
      "";
      "Provide your response in the following JSON format:";
      "{";
      "  " ++ Text.dq ++ "summary" ++ Text.dq ++ ": " ++ Text.dq
        ++ "Brief 1-2 sentence summary of why this matters" ++ Text.dq ++ ",";
      "  " ++ Text.dq ++ "impact" ++ Text.dq ++ ": " ++ Text.dq
        ++ "Explain the impact on SEO and user experience" ++ Text.dq ++ ",";
      "  " ++ Text.dq ++ "steps" ++ Text.dq ++ ": [" ++ Text.dq ++ "Step 1"
        ++ Text.dq ++ ", " ++ Text.dq ++ "Step 2" ++ Text.dq ++ ", "
        ++ Text.dq ++ "Step 3" ++ Text.dq ++ "],";
      "  " ++ Text.dq ++ "resources" ++ Text.dq ++ ": [" ++ Text.dq
        ++ "Resource or tool 1" ++ Text.dq ++ ", " ++ Text.dq
        ++ "Resource or tool 2" ++ Text.dq ++ "],";
      "  " ++ Text.dq ++ "timeEstimate" ++ Text.dq ++ ": " ++ Text.dq
        ++ "Estimated time to fix (e.g., '15 minutes', '1-2 hours')"
        ++ Text.dq;
      "}";
      "";
      "Be specific, actionable, and concise." ])
  end end end.

(** The properties an object spread copies: those of an object, the
    indices of an array or of a string, none of any other value. *)
Fixpoint indexed (i : nat) (vs : list JSON) : list (string * JSON) :=
  match vs with
  | [] => []
  | v :: rest => (Text.ofNat i, v) :: indexed (S i) rest
  end.

Definition ownProperties (v : JSON) : list (string * JSON) :=
  match v with
  | JObj fields => fields
  | JArr vs => indexed 0 vs
  | JStr s => indexed 0 (Visibility.chars s)
  | _ => []
  end.

(** [key: value] in an object literal, after a spread: the property is
    replaced where it stands, or added at the end. *)
Fixpoint assign (key : string) (value : JSON) (fields : list (string * JSON))
  : list (string * JSON) :=
  match fields with
  | [] => [(key, value)]
  | (k, v) :: rest =>
      if String.eqb k key then (k, value) :: rest
      else (k, v) :: assign key value rest
  end.

(** [{ ...parsed, model: modelName, warning: warning }] *)
Definition answer (parsed : JSON) (modelName : string) (warning : JSON)
  : JSON :=
  JObj (assign "warning" warning
          (assign "model" (JStr modelName) (ownProperties parsed))).

(** [if (isModelHealthy(modelName))]: [undefined] is falsy. *)
Definition accepts (healthStatus : HealthStatus) (modelName : string) : bool :=
  match Health.isModelHealthy healthStatus modelName with
  | Some healthy => healthy
  | None => false
  end.

(** "Find a healthy model to use", and the first one when none is. *)
Definition selectModel (healthStatus : HealthStatus) : string :=
  match List.find (accepts healthStatus) MODEL_PRIORITY with
  | Some modelName => modelName
  | None => hd "" MODEL_PRIORITY
  end.

(** [for (const modelName of MODEL_PRIORITY)]: a model whose answer parses
    ends the loop; an error moves on to the next model, be it the error of
    the request, of reading the answer, or of [getFallbackRecommendation]
    called in the [catch] of the parse, which the outer [try] encloses.
    After the loop, [return getFallbackRecommendation(warning)]. *)
Fixpoint overModels (R : Router) (warning : JSON) (prompt : string)
         (models : list string) : W (Completion JSON) :=
  match models with
  | [] => yield (getFallbackRecommendation warning)
  | modelName :: rest =>
      andNext (tryModelRequest R modelName prompt 2)
        (fun tried =>
           match tried with
           | Responded (Some content) =>
               let responseText := Text.stripCodeFences (Str.trim content) in
               match parseJSON R responseText with
               | Some parsed =>
                   yield (Return (answer parsed modelName warning))
               | None =>
                   match getFallbackRecommendation warning with
                   | Return fallback => yield (Return fallback)
                   | Throw _ => overModels R warning prompt rest
                   end
               end
           | Responded None => overModels R warning prompt rest
           | Null => overModels R warning prompt rest
           | Threw _ => overModels R warning prompt rest
           end)
  end.

(** [generateWarningRecommendation(warning, context = {})], with the
    health cache it reads through [isModelHealthy].  The first line written to
    the console interpolates [warning]; the line that names the selected model
    follows it, then the prompt is built. *)
Definition generateWarningRecommendation (R : Router)
           (healthStatus : HealthStatus) (warning : JSON) (context : Context)
  : W (Completion JSON) :=
  if negb (ROUTER_API_KEY R) then yield (getFallbackRecommendation warning)
  else
    match interpolate R warning with
    | Throw message => yield (Throw message)
    | Return _ =>
        andNext (log (selectModel healthStatus))
          (fun _ =>
             match seoPrompt R warning context with
             | Throw message => yield (Throw message)
             | Return prompt => overModels R warning prompt MODEL_PRIORITY
             end)
    end.

End Warning.

(* ================================================================== *)
(** ** Vocabulary of the statements *)
(* ================================================================== *)

Module Spec.
Import Analyzer.




(** The URL pattern read literally at the head of [s]: [http], an optional
    [s], [://], then the longest non-empty run of class characters. *)
Definition matchAt (s : string) : option string :=
  let body (scheme rest : string) :=
    match Str.takeWhile urlChar rest with
    | EmptyString => None
    | run => Some (scheme ++ run)
    end in
  if Str.startsWith s "https://" then body "https://" (Str.drop 8 s)
  else if Str.startsWith s "http://" then body "http://" (Str.drop 7 s)
  else None.

(** A global match read literally: the match at the current position is
    taken and the search resumes after it; without a match the search moves
    on by one character.  [fuel] bounds the number of positions tried. *)
Fixpoint matchAll (fuel : nat) (s : string) : list string :=
  match fuel with
  | O => []
  | S fuel' =>
      match s with
      | EmptyString => []
      | String _ s' =>
          match matchAt s with
          | Some url => url :: matchAll fuel' (Str.drop (String.length url) s)
          | None => matchAll fuel' s'
          end
      end
  end.

(** The citations [analyzeResponse] collects on each of its two paths. *)
Definition collected (response normalizedDomain : string) (parsed : JSON)
  : list string :=
  if Js.truthy parsed && Js.isObject parsed then
    match Js.get parsed "citations" with
    | Some (JArr urls) => filterCitations normalizedDomain urls
    | _ => []
    end
  else
    filter (fun url => Str.includes (normalizeDomain url) normalizedDomain)
           (matchUrls response).

End Spec.

Module Hoare.

(** [m], run from any trace, returns a value that satisfies [Q]: it neither
    throws nor fails to finish. *)
Definition yields {A} (m : M A) (Q : A -> Prop) : Prop :=
  forall t, exists a t', m t = (Return a, t') /\ Q a.

(** Whenever [m] returns, the value satisfies [Q]. *)
Definition ensures {A} (m : M A) (Q : A -> Prop) : Prop :=
  forall t a t', m t = (Return a, t') -> Q a.

(** The sum of the scores of a list of entries. *)
Definition sumScores (ds : list Detail.t) : Z :=
  fold_right (fun d s => Detail.score d + s) 0 ds.

End Hoare.

Module RunSpec.
Import Visibility Hoare.

(** What an entry of [details] always satisfies. *)
Definition wellScored (d : Detail.t) : Prop :=
  (Detail.score d = 0 \/ Detail.score d = 2 \/ Detail.score d = 3)
  /\ (Detail.error d <> None -> Detail.score d = 0).

(** One iteration of the loop: one entry for the prompt is pushed and its
    score is added to the total. *)
Definition pushesOne (pt : PromptTemplate) (acc acc' : Acc) : Prop :=
  exists d,
    results acc' = (results acc ++ [d])%list
    /\ Detail.promptId d = id pt
    /\ accScore acc' = accScore acc + Detail.score d
    /\ wellScored d.

(** The whole loop: one entry for each prompt, in order. *)
Definition pushesAll (prompts : list PromptTemplate) (acc acc' : Acc) : Prop :=
  exists ds,
    results acc' = (results acc ++ ds)%list
    /\ List.map Detail.promptId ds = List.map id prompts
    /\ accScore acc' = accScore acc + sumScores ds
    /\ Forall wellScored ds.

(** An entry that records a failure. *)
Definition isFailure (d : Detail.t) : Prop :=
  Detail.score d = 0 /\ Detail.error d <> None.

End RunSpec.

Module SelectSpec.
Import Visibility PromptGeneration.

(** The default prompts as templates of category [custom]. *)
Definition defaultTemplates (brandName industry : string)
  : list PromptTemplate :=
  toTemplates 0 (List.map JStr (getDefaultPrompts brandName industry)).

End SelectSpec.

Module TraceSpec.

(** The trace after [k] more calls of the model with [prompt]. *)
Definition called (k : nat) (prompt : string) (t : Trace) : Trace :=
  {| geminiCalls := (geminiCalls t ++ repeat prompt k)%list;
     openRouterCalls := openRouterCalls t;
     sleeps := sleeps t |}.



End TraceSpec.

(** Provider stubs and inputs at which the statements are instantiated. *)
Module Examples.

Definition noCodec : string -> option JSON := fun _ => None.

(** A provider that is overloaded twice and then answers. *)
Definition flaky : Env :=
  {| generateContent := fun n _ =>
       if (n <? 2)%nat
       then Throw "[503 Service Unavailable] The model is overloaded"
       else Return (Says "Example is a reference domain; see example.com");
     openRouterPost := fun _ _ _ => Throw "Request failed with status code 429";
     OPENROUTER_API_KEY := true;
     JSON_parse := noCodec;
     JSON_stringify := fun _ => "{}";
     URL_hostname := fun _ => Some "www.example.com" |}.

(** Providers that always answer 429. *)
Definition rateLimitedEnv : Env :=
  {| generateContent := fun _ _ => Throw "[429 Too Many Requests] quota exceeded";
     openRouterPost := fun _ _ _ => Throw "Request failed with status code 429";
     OPENROUTER_API_KEY := true;
     JSON_parse := noCodec;
     JSON_stringify := fun _ => "{}";
     URL_hostname := fun _ => Some "www.example.com" |}.

Definition premium : Options :=
  {| isPremium := true; businessInfo := businessInfo defaultOptions |}.

Definition question : string := "What is Example?".

End Examples.

Module FailureSpec.

(** The model of the single path and of the first branch throws at every
    call. *)
Definition geminiDown (E : Env) : Prop :=
  forall n prompt, exists m, generateContent E n prompt = Throw m.

(** Every request to OpenRouter throws. *)
Definition openRouterDown (E : Env) : Prop :=
  forall n model content, exists m, openRouterPost E n model content = Throw m.

(** The three branches of a fan-out have all come back [null]. *)
Definition allNull (r : MultiLLMResult) : Prop :=
  gemini r = JNull /\ openrouter1 r = JNull /\ openrouter2 r = JNull.

(** What the aggregation makes of three nulls: the empty object. *)
Definition emptyAnswer (E : Env) (prompt : string) : AnalysisResult :=
  {| ar_response := JSON_stringify E (JObj []);
     ar_parsedResponse := JObj [];
     ar_citations := [];
     ar_mentioned := JBool false;
     ar_llmResults := Some [];
     ar_tokensUsed :=
       Text.ceilDiv4 (Str.len prompt + Str.len (JSON_stringify E (JObj []))) |}.

End FailureSpec.

(** An input on which the branches of the fan-out disagree. *)
Module Disagreement.
Import Examples.

Definition q : string := Text.dq.

(** The answer of the primary model: no citation, domain not mentioned. *)
Definition geminiText : string :=
  "{" ++ q ++ "description" ++ q ++ ":" ++ q ++ "A site about widgets" ++ q
  ++ "," ++ q ++ "citations" ++ q ++ ":[]," ++ q ++ "mentionsDomain" ++ q
  ++ ":false}".

Definition geminiAnswer : JSON :=
  JObj [ ("description", JStr "A site about widgets");
         ("citations", JArr []);
         ("mentionsDomain", JBool false) ].

(** The answer of the two OpenRouter models: one citation on the target. *)
Definition openRouterText : string :=
  "{" ++ q ++ "description" ++ q ++ ":" ++ q ++ "See the pricing page" ++ q
  ++ "," ++ q ++ "citations" ++ q ++ ":[" ++ q
  ++ "https://example.com/pricing" ++ q ++ "]," ++ q ++ "mentionsDomain" ++ q
  ++ ":true}".

Definition openRouterAnswer : JSON :=
  JObj [ ("description", JStr "See the pricing page");
         ("citations", JArr [JStr "https://example.com/pricing"]);
         ("mentionsDomain", JBool true) ].

Definition env : Env :=
  {| generateContent := fun _ _ => Return (Says geminiText);
     openRouterPost := fun _ _ _ => Return (Some openRouterText);
     OPENROUTER_API_KEY := true;
     JSON_parse := fun text =>
       if String.eqb text geminiText then Some geminiAnswer
       else if String.eqb text openRouterText then Some openRouterAnswer
       else None;
     JSON_stringify := fun _ => geminiText;
     URL_hostname := fun _ => Some "www.example.com" |}.

Definition fanOut : MultiLLMResult :=
  {| gemini := geminiAnswer;
     openrouter1 := openRouterAnswer;
     openrouter2 := openRouterAnswer;
     openrouter := openRouterAnswer;
     errors := [] |}.

(** The report of the premium run, or an empty report had it thrown. *)
Definition run : Report :=
  match fst (Visibility.analyzeLLMVisibility env "https://www.example.com"
               premium emptyTrace) with
  | Return r => r
  | Throw _ => Visibility.report true [] Visibility.emptyAcc
  end.

End Disagreement.

Module HealthSpec.
Import Health.

(** Network code whose requests all go to models of the list [names]. *)
Definition targets {A} (m : H A) (names : list string) : Prop :=
  forall w, exists sent,
    requests (snd (m w)) = (requests w ++ sent)%list
    /\ Forall (fun rq => In (toModel rq) names) sent.

(** The models [checkAllModels] may send a request to. *)
Definition probed : list string :=
  [ Config.name gemini;
    Config.name huggingfaceBGE;
    Config.name openrouterMistral;
    Config.name openrouterDeepSeekChimera;
    Config.name openrouterSherlockDash;
    Config.name openrouterSherlockThink;
    Config.name openrouterKatCoder ].

(** A statement of [checkAllModels] that leaves the entry of [key] as it
    is. *)
Definition keeps (s : list (string * Status.t) -> H (list (string * Status.t)))
           (key : string) : Prop :=
  forall results w, Js.assoc key (fst (s results w)) = Js.assoc key results.

(** A statement (or sequence) after which [key] has an unhealthy entry. *)
Definition marks (s : list (string * Status.t) -> H (list (string * Status.t)))
           (key : string) : Prop :=
  forall results w, exists r,
    Js.assoc key (fst (s results w)) = Some r /\ Status.healthy r = false.

(** Every entry of [results] under [key] is unhealthy. *)
Definition unhealthyAt (key : string) (results : list (string * Status.t))
  : Prop :=
  Forall (fun entry => fst entry = key -> Status.healthy (snd entry) = false)
         results.

(** A statement that never puts a healthy entry under [key]. *)
Definition quiet (s : list (string * Status.t) -> H (list (string * Status.t)))
           (key : string) : Prop :=
  forall results w,
    unhealthyAt key results -> unhealthyAt key (fst (s results w)).

(** Every key of [results] is a key of [MODELS]. *)
Definition keysWithin (results : list (string * Status.t)) : Prop :=
  Forall (fun entry => In (fst entry) (List.map fst MODELS)) results.

(** A statement that writes under keys of [MODELS] only. *)
Definition tidy (s : list (string * Status.t) -> H (list (string * Status.t)))
  : Prop :=
  forall results w, keysWithin results -> keysWithin (fst (s results w)).


Definition idle : Wire := {| requests := []; waited := [] |}.

End HealthSpec.

(** A network on which every request is answered. *)
Module HealthExamples.

Definition allUp : Net :=
  {| send := fun _ _ => Answered "{}" 120;
     now := fun n => Z.of_nat n;
     GEMINI_API_KEY := true;
     HUGGINGFACE_API_KEY := true;
     OPENROUTER_KEY := true |}.

End HealthExamples.

Module ResolutionSpec.
Import Health.





(** [modelName] names a property that every object inherits. *)
Definition inherited (modelName : string) : Prop :=
  exists name, Js.assoc modelName Js.objectPrototype = Some name.

End ResolutionSpec.

(** The percentage as the program computes it, in IEEE 754 doubles. *)
Module Doubles.

Definition ofZ (z : Z) : float := PrimFloat.of_uint63 (Uint63.of_Z z).

(** [(totalScore / maxScore) * 100] *)
Definition ratioTimes100 (total maxS : Z) : float :=
  PrimFloat.mul (PrimFloat.div (ofZ total) (ofZ maxS)) (ofZ 100).

(** [Math.round(x)] is [k]: [x] lies from [k - 1/2], included, to
    [k + 1/2], excluded (both exact doubles for the [k] of a percentage). *)
Definition roundsTo (x : float) (k : Z) : bool :=
  PrimFloat.leb (PrimFloat.sub (ofZ k) 0.5%float) x
  && PrimFloat.ltb x (PrimFloat.add (ofZ k) 0.5%float).

(** The totals from 0 to [n]. *)
Fixpoint upTo (n : nat) : list Z :=
  match n with
  | O => [0]
  | S k => upTo k ++ [Z.of_nat (S k)]
  end.

(** The double computation rounds to what the exact ratio rounds to. *)
Definition agrees (maxS total : Z) : bool :=
  match Visibility.percentageOf total maxS with
  | Num p => roundsTo (ratioTimes100 total maxS) p
  | NaN => false
  end.

End Doubles.

(* ================================================================== *)
(** ** Vocabulary of the further properties *)
(* ================================================================== *)

Module TextSpec.

Definition notSlash (c : ascii) : bool := negb (Analyzer.isSlash c).

Definition notSentenceEnd (c : ascii) : bool := negb (Analyzer.isSentenceEnd c).

(** A character that [toLowerCase] leaves as it is. *)
Definition lowered (c : ascii) : bool := Str.eqc (Str.lower_char c) c.

(** [sub] occurs in [s]. *)
Definition occursIn (sub s : string) : Prop :=
  exists before after, s = (before ++ sub ++ after)%string.

End TextSpec.

Module CitationSpec.
Import Analyzer TextSpec.

(** The tests [analyzeResponse] makes on a URL, in words.  On the parsed
    path: the normalized URL contains the normalized target or is contained
    in it.  On the raw path: the normalized URL contains the normalized
    target. *)
Definition containsTarget (normalizedDomain url : string) : Prop :=
  occursIn normalizedDomain (normalizeDomain url).

Definition domainMatches (normalizedDomain url : string) : Prop :=
  containsTarget normalizedDomain url
  \/ occursIn (normalizeDomain url) normalizedDomain.

Definition isAuthorityEnd (c : ascii) : bool :=
  Str.eqc c "/"%char || Str.eqc c "?"%char || Str.eqc c "#"%char.

Definition isAt (c : ascii) : bool := Str.eqc c "@"%char.

Definition isColon (c : ascii) : bool := Str.eqc c ":"%char.

(** The host of an [http] URL as the URL standard reads it, in lower case:
    what stands between the scheme and the first slash, question mark or
    number sign, without the credentials (up to the last at sign) and
    without the port (from the colon on).  This is the host the
    specification speaks of, not a function of the code. *)
Definition hostOf (url : string) : string :=
  let lower := Str.toLowerCase url in
  let afterScheme :=
    if Str.startsWith lower "https://" then Str.drop 8 lower
    else if Str.startsWith lower "http://" then Str.drop 7 lower
    else lower in
  let authority := Str.splitHead isAuthorityEnd afterScheme in
  let hostAndPort := Str.rev (Str.splitHead isAt (Str.rev authority)) in
  Str.splitHead isColon hostAndPort.

(** The host matches the target as the specification reads it: one
    contains the other. *)
Definition hostMatches (normalizedDomain url : string) : Prop :=
  occursIn normalizedDomain (hostOf url)
  \/ occursIn (hostOf url) normalizedDomain.

(** An answer that cites four URLs foreign to [example.com]. *)
Definition foreignCitations : list string :=
  [ "https://notexample.com/";
    "https://evil.org?ref=example.com";
    "com";
    "" ].

Definition foreignAnswer : JSON :=
  JObj [("citations", JArr (List.map JStr foreignCitations))].

Definition foreignText : string :=
  "Try https://evil.org?ref=example.com instead.".

End CitationSpec.

Module GenerationSpec.
Import PromptGeneration TextSpec.

(** The character [c] does not occur in [s]. *)
Definition free (c : ascii) (s : string) : Prop :=
  ~ occursIn (String c EmptyString) s.

(** [found] is what the pattern of a bracketed array matches in [text]:
    the part from the first opening bracket to the last closing bracket
    after it. *)
Definition bracketed (text found : string) : Prop :=
  exists before inner after,
    text = (before ++ "[" ++ inner ++ "]" ++ after)%string
    /\ free "["%char before
    /\ free "]"%char after
    /\ found = ("[" ++ inner ++ "]")%string.

(** The answer holds a JSON array of ten elements or more. *)
Definition holdsArray (E : Env) (text : string) (items : list JSON) : Prop :=
  exists found,
    bracketed text found
    /\ JSON_parse E found = Some (JArr items)
    /\ (10 <= List.length items)%nat.

(** The lines of a text: the pieces between its line feeds. *)
Definition linesOf (text : string) (lines : list string) : Prop :=
  lines <> []
  /\ text = Text.unlines lines
  /\ Forall (free Str.newline) lines.

(** A line that starts with a number and a full stop. *)
Definition startsNumbered (line : string) : Prop :=
  exists digits rest,
    line = (digits ++ "." ++ rest)%string
    /\ digits <> EmptyString
    /\ Str.all Str.isDigit digits = true.

(** A line that starts with a hyphen or an asterisk. *)
Definition bulleted (line : string) : Prop :=
  exists rest, line = ("-" ++ rest)%string \/ line = ("*" ++ rest)%string.

(** A line that starts with a double quote. *)
Definition quoted (line : string) : Prop :=
  exists rest, line = (Text.dq ++ rest)%string.

(** A line that reads as an item of a list of prompts: trimmed, it has more
    than twenty characters and starts as a numbered, bulleted or quoted
    item. *)
Definition promptLike (line : string) : Prop :=
  (20 < String.length (Str.trim line))%nat
  /\ (startsNumbered (Str.trim line) \/ bulleted (Str.trim line)
      \/ quoted (Str.trim line)).

(** [chosen] are the lines among [lines] that read as items, in order. *)
Inductive picks : list string -> list string -> Prop :=
| picks_nil : picks [] []
| picks_item line lines chosen :
    promptLike line -> picks lines chosen ->
    picks (line :: lines) (line :: chosen)
| picks_other line lines chosen :
    ~ promptLike line -> picks lines chosen ->
    picks (line :: lines) chosen.

(** The items of the list a text holds. *)
Definition listed (text : string) (chosen : list string) : Prop :=
  exists lines, linesOf text lines /\ picks lines chosen.

(** A model that answers every request with an array of ten numbers, and
    the JSON codec at that text. *)
Definition tenNumbersText : string := "[1,2,3,4,5,6,7,8,9,10]".

Definition tenNumbers : list JSON :=
  List.map (fun n => JNum (inject_Z n)) [1; 2; 3; 4; 5; 6; 7; 8; 9; 10].

Definition numbersEnv : Env :=
  {| generateContent := fun _ _ => Return (Says tenNumbersText);
     openRouterPost := fun _ _ _ => Throw "Request failed with status code 429";
     OPENROUTER_API_KEY := true;
     JSON_parse := fun text =>
       if String.eqb text tenNumbersText then Some (JArr tenNumbers) else None;
     JSON_stringify := fun _ => "{}";
     URL_hostname := fun _ => Some "www.example.com" |}.

(** A model that answers the request for prompts with a numbered list of
    ten questions, no JSON. *)
Definition listedQuestions : list string :=
  List.map (fun n => Text.ofNat n ++ ". What would an assistant say about product "
                     ++ Text.ofNat n ++ "?")%string
           (seq 1 10).

Definition listEnv : Env :=
  {| generateContent := fun _ _ => Return (Says (Text.unlines listedQuestions));
     openRouterPost := fun _ _ _ => Throw "Request failed with status code 429";
     OPENROUTER_API_KEY := true;
     JSON_parse := fun _ => None;
     JSON_stringify := fun _ => "{}";
     URL_hostname := fun _ => Some "www.example.com" |}.

End GenerationSpec.

(** What makes an analysis fail. *)
Module ScoringSpec.

(** The description of a parsed answer that makes [analyzeResponse]
    throw: a truthy value that is not a string. *)
Definition badDescription (parsed : JSON) : bool :=
  Js.truthy parsed && Js.isObject parsed
  && match Js.get parsed "description" with
     | Some (JStr _) | None => false
     | Some other => Js.truthy other
     end.

End ScoringSpec.

(** Vocabulary of the cleaning of provider answers. *)
Module CleanSpec.

(** A text that does not start with white space. *)
Definition startsClean (s : string) : Prop :=
  match s with
  | EmptyString => True
  | String c _ => Str.isSpace c = false
  end.

(** A text that neither starts nor ends with white space. *)
Definition trimmed (s : string) : Prop :=
  startsClean s /\ startsClean (Str.rev s).

(** The text without its code fences. *)
Definition out (s : string) : string := Text.removeAll Text.fence 0 false s.

End CleanSpec.

(** What the entries of a report satisfy. *)
Module EntrySpec.
Import Visibility.

(** The sum of the token estimates of a list of entries. *)
Definition sumTokens (ds : list Detail.t) : Z :=
  fold_right (fun d s => Detail.tokensUsed d + s) 0 ds.

(** The four fields an entry takes from the analysis. *)
Definition analysisOf (d : Detail.t) : Analysis :=
  {| mentioned := Detail.domainMentioned d;
     score := Detail.score d;
     citations := Detail.citations d;
     confidence := Detail.confidence d |}.

(** An entry agrees with itself: with an error it is the empty entry of
    the [catch]; without one, its analysis fields are the analysis of the
    response and parsed answer it stores, and it carries recommendations only
    when its score is 0. *)
Definition coherent (premium : bool) (domain : string) (d : Detail.t) : Prop :=
  0 <= Detail.tokensUsed d
  /\ match Detail.error d with
     | Some _ =>
         Detail.score d = 0 /\ Detail.confidence d = low
         /\ Detail.domainMentioned d = false /\ Detail.citations d = []
         /\ Detail.response d = None /\ Detail.parsedResponse d = None
         /\ Detail.recommendations d = None /\ Detail.tokensUsed d = 0
         /\ Detail.multiLLMResults d = None
     | None =>
         (exists text parsed,
             Detail.response d = Some text
             /\ Detail.parsedResponse d = Some parsed
             /\ Analyzer.analyzeResponse text domain parsed
                = Return (analysisOf d))
         /\ (exists recs,
                Detail.recommendations d = Some recs
                /\ (Detail.score d <> 0 -> recs = JArr []))
         /\ (premium = false -> Detail.multiLLMResults d = None)
     end.

(** One iteration pushes one coherent entry; the token total grows by at
    least the estimate of the entry, and by exactly that when the run is not
    premium. *)
Definition entersOne (premium : bool) (domain : string) (acc acc' : Acc)
  : Prop :=
  exists d,
    results acc' = (results acc ++ [d])%list
    /\ coherent premium domain d
    /\ accTokens acc + Detail.tokensUsed d <= accTokens acc'
    /\ (premium = false ->
        accTokens acc' = accTokens acc + Detail.tokensUsed d).

Definition entersAll (premium : bool) (domain : string) (acc acc' : Acc)
  : Prop :=
  exists ds,
    results acc' = (results acc ++ ds)%list
    /\ Forall (coherent premium domain) ds
    /\ accTokens acc + sumTokens ds <= accTokens acc'
    /\ (premium = false -> accTokens acc' = accTokens acc + sumTokens ds).

(** What the loop needs of an [analysisResult]. *)
Definition usable (premium : bool) (domain : string) (ar : AnalysisResult)
  : Prop :=
  0 <= ar_tokensUsed ar
  /\ (premium = false ->
      exists a, Analyzer.analyzeResponse (ar_response ar) domain
                  (ar_parsedResponse ar) = Return a).

End EntrySpec.

(** What a computation adds to the trace, whatever its outcome. *)
Module Budget.

(** The milliseconds of a list of pauses. *)
Definition total (ds : list Z) : Z := fold_right Z.add 0 ds.

(** [t'] is [t] followed by at most [g] calls of the model, at most [o]
    posts to OpenRouter and pauses of at most [ms] milliseconds. *)
Definition extends (t t' : Trace) (g o : nat) (ms : Z) : Prop :=
  exists gs os ss,
    geminiCalls t' = (geminiCalls t ++ gs)%list
    /\ openRouterCalls t' = (openRouterCalls t ++ os)%list
    /\ sleeps t' = (sleeps t ++ ss)%list
    /\ (List.length gs <= g)%nat
    /\ (List.length os <= o)%nat
    /\ total ss <= ms.

(** [m] costs at most [g] calls, [o] posts and [ms] milliseconds, whether
    it returns or throws. *)
Definition costs {A} (m : M A) (g o : nat) (ms : Z) : Prop :=
  forall t, extends t (snd (m t)) g o ms.

(** The pauses of the retry loop from iteration [attempt] on. *)
Fixpoint backoff (left attempt : nat) : Z :=
  match left with
  | O => 0
  | S left' =>
      (if (attempt <? Visibility.maxRetries - 1)%nat
       then Visibility.baseDelay * 2 ^ Z.of_nat attempt else 0)
      + backoff left' (S attempt)
  end.

(** The posts one OpenRouter analysis may make. *)
Definition posts (E : Env) (models : nat) : nat :=
  if OPENROUTER_API_KEY E then models else O.

(** The calls and posts one prompt may cost. *)
Definition perPromptCalls (premium : bool) : nat := if premium then 5 else 4.

Definition perPromptPosts (E : Env) (premium : bool) : nat :=
  if premium then posts E 2 else O.

(** Only a premium run that was given business information asks the model
    for prompts. *)
Definition selectionCalls (options : Options) : nat :=
  match isPremium options, businessInfo options with
  | true, Some _ => 1
  | _, _ => 0
  end.

End Budget.

(** The requests of the multi-LLM service. *)
Module FanOutSpec.

(** The user message of an OpenRouter request. *)
Definition userMessage (domain prompt : string) : string :=
  "Question about " ++ domain ++ ": " ++ prompt.

(** The trace after [content] was posted to each of [models], in order. *)
Definition posted (models : list string) (content : string) (t : Trace)
  : Trace :=
  {| geminiCalls := geminiCalls t;
     openRouterCalls :=
       (openRouterCalls t ++ List.map (fun m => (m, content)) models)%list;
     sleeps := sleeps t |}.

(** What OpenRouter answers to the post number [i] made after [t]. *)
Definition answerOf (E : Env) (t : Trace) (i : nat) (model content : string)
  : Completion (option string) :=
  openRouterPost E (List.length (openRouterCalls t) + i) model content.

(** The models [analyzeWithOpenRouter] goes through. *)
Definition candidates (preferredModel : option string) : list string :=
  match preferredModel with
  | Some m => if String.eqb m "" then MultiLLM.defaultModels else [m]
  | None => MultiLLM.defaultModels
  end.

(** A message thrown by the branch of [provider]. *)
Definition failureOf (provider message : string) : Prop :=
  exists e,
    message = ((if String.eqb provider "gemini"
                then "Gemini analysis failed: "
                else "OpenRouter analysis failed: ") ++ e)%string.

(** An OpenRouter that is down for the first model asked and answers the
    second. *)
Definition secondAnswers : Env :=
  {| generateContent := fun _ _ => Return (Says "{}");
     openRouterPost := fun n _ _ =>
       match n with
       | O => Throw "Request failed with status code 502"
       | _ => Return (Some "{}")
       end;
     OPENROUTER_API_KEY := true;
     JSON_parse := fun _ => Some (JObj []);
     JSON_stringify := fun _ => "{}";
     URL_hostname := fun _ => None |}.

End FanOutSpec.

(** What a health check leaves behind. *)
Module CheckSpec.
Import Health.

(** A status as the three tests build it: a healthy one has a response time
    and at most 100 characters of the answer and no error; an unhealthy one
    has an error and neither; [retryAfter] is 60 exactly when the failure
    was a rate limit. *)
Definition wellFormed (r : Status.t) : Prop :=
  (Status.healthy r = true ->
   Status.error r = None
   /\ (exists ms, Status.responseTime r = Some ms)
   /\ (exists text, Status.response r = Some text
                    /\ (String.length text <= 100)%nat)
   /\ Status.isRateLimit r = None)
  /\ (Status.healthy r = false ->
      (exists reason, Status.error r = Some reason)
      /\ Status.responseTime r = None
      /\ Status.response r = None)
  /\ Status.retryAfter r
     = match Status.isRateLimit r with
       | Some true => Some 60
       | _ => None
       end.

(** A test that yields well-formed statuses only. *)
Definition reports (m : H Status.t) : Prop :=
  forall w, wellFormed (fst (m w)).

Definition allWellFormed (results : list (string * Status.t)) : Prop :=
  Forall (fun entry => wellFormed (snd entry)) results.

(** A statement of [checkAllModels] that keeps the results well formed. *)
Definition sound (s : list (string * Status.t) -> H (list (string * Status.t)))
  : Prop :=
  forall results w, allWellFormed results -> allWellFormed (fst (s results w)).

(** The keys of an object after an assignment to [key]. *)
Fixpoint addKey (key : string) (keys : list string) : list string :=
  match keys with
  | [] => [key]
  | k :: rest => if String.eqb k key then k :: rest else k :: addKey key rest
  end.

(** A statement that assigns to [key] and to nothing else. *)
Definition writes (s : list (string * Status.t) -> H (list (string * Status.t)))
           (key : string) : Prop :=
  forall results w,
    List.map fst (fst (s results w)) = addKey key (List.map fst results).

(** Network code that sends at most [n] requests and waits at most [ms]
    milliseconds. *)
Definition spends {A} (m : H A) (n : nat) (ms : Z) : Prop :=
  forall w, exists sent ws,
    requests (snd (m w)) = (requests w ++ sent)%list
    /\ waited (snd (m w)) = (waited w ++ ws)%list
    /\ (List.length sent <= n)%nat
    /\ Budget.total ws <= ms.

(** The waits of the retry loop of one endpoint from [attempt] on. *)
Fixpoint loadingWaits (left attempt : nat) : Z :=
  match left with
  | O => 0
  | S left' =>
      (if (attempt <? hfMaxRetries)%nat
       then (Z.of_nat attempt + 1) * 5000 else 0)
      + loadingWaits left' (S attempt)
  end.

(** The request [testHuggingFaceModel] sends to an endpoint. *)
Definition hit (modelName url : string) : Request :=
  {| toProvider := "huggingface"; toModel := modelName; endpoint := url;
     input := Config.testPrompt huggingfaceBGE |}.

(** Every request on the network fails with the HTTP status [code]. *)
Definition alwaysFails (N : Net) (code : Z) : Prop :=
  forall n rq, exists err elapsed,
    send N n rq = Failed err elapsed /\ status err = Some code.

(** How the retry loop of one endpoint ends when the last request failed
    with [code]. *)
Definition endOf (code : Z) (isLastEndpoint : bool) (err : HttpError)
  : Attempted :=
  if (code =? 410) || (code =? 404) then NextEndpoint (Some err)
  else if (code =? 401) || (code =? 403) then Thrown err
  else if negb isLastEndpoint then NextEndpoint (Some err)
  else Thrown err.

(** The endpoints [testHuggingFaceModel] goes through when every request
    fails with [code]: the first one only when the key is refused, each one
    three times when the model is loading, each one once otherwise. *)
Definition plan (code : Z) (urls : list string) : list string :=
  if (code =? 401) || (code =? 403) then firstn 1 urls
  else if code =? 503 then flat_map (fun url => [url; url; url]) urls
  else urls.

(** A network that refuses every request with [code]. *)
Definition refusing (code : Z) : Net :=
  {| send := fun _ _ =>
       Failed {| status := Some code;
                 message := "Request failed";
                 dataText := "{}"; dataError := None;
                 dataErrorMessage := None |} 80;
     now := fun n => Z.of_nat n;
     GEMINI_API_KEY := true;
     HUGGINGFACE_API_KEY := true;
     OPENROUTER_KEY := true |}.

End CheckSpec.

(** Vocabulary of the statements on the recommendation service. *)
Module WarningSpec.
Import Warning.

(** The advice of a recommendation: everything but the warning it echoes. *)
Definition advice (recommendation : JSON) : list (string * JSON) :=
  match recommendation with
  | JObj fields => List.filter (fun f => negb (String.eqb (fst f) "warning")) fields
  | _ => []
  end.

(** The models asked, in order: each model of a prefix of [models] as
    many times as [counts] says. *)
Fixpoint asked (models : list string) (counts : list nat) : list string :=
  match models, counts with
  | m :: ms, k :: ks => (repeat m k ++ asked ms ks)%list
  | _, _ => []
  end.

(** The second attempts among [counts]. *)
Definition retries (counts : list nat) : nat :=
  fold_right (fun k n => (k - 1 + n)%nat) O counts.



(** A property of the context that the prompt can show: absent, falsy, or
    a value whose conversion to a string does not throw. *)
Definition printable (R : Router) (x : option JSON) : Prop :=
  forall v, x = Some v -> Js.truthy v = true ->
            exists text, interpolate R v = Return text.

(** A property that is absent or a string. *)
Definition stringOrAbsent (x : option JSON) : Prop :=
  match x with
  | None => True
  | Some (JStr _) => True
  | Some _ => False
  end.

(** Where the outcome of the loop over [models] comes from: the built-in
    advice, or the JSON a model answered to the last post. *)
Definition origin (R : Router) (warning : JSON) (prompt : string)
           (models : list string) (out : Completion JSON * Session) : Prop :=
  match fst out with
  | Return r =>
      getFallbackRecommendation warning = Return r
      \/ exists modelName parsed content before,
           In modelName models
           /\ r = answer parsed modelName warning
           /\ posts (snd out) = (before ++ [chat modelName prompt])%list
           /\ post R (List.length before) (chat modelName prompt)
              = Replied (Some content)
           /\ parseJSON R (Text.stripCodeFences (Str.trim content))
              = Some parsed
  | Throw message => getFallbackRecommendation warning = Throw message
  end.

End WarningSpec.

(* ================================================================== *)
(** * Properties *)
(* ================================================================== *)

(** ** Strings *)

Module StrFacts.
Import TextSpec.

Lemma all_rev_aux p s : forall acc,
  Str.all p (Str.rev_aux s acc) = Str.all p s && Str.all p acc.
Proof.
  induction s as [|c s IH]; intros acc; cbn [Str.rev_aux Str.all];
    [reflexivity|].
  rewrite IH. cbn [Str.all].
  destruct (p c), (Str.all p s), (Str.all p acc); reflexivity.
Qed.

Lemma all_rev p s : Str.all p (Str.rev s) = Str.all p s.
Proof. unfold Str.rev. rewrite all_rev_aux. cbn [Str.all]. apply andb_true_r. Qed.

Lemma all_drop p n : forall s, Str.all p s = true -> Str.all p (Str.drop n s) = true.
Proof.
  induction n as [|n IH]; intros s H; [exact H|].
  destruct s as [|c s]; [reflexivity|].
  cbn [Str.all] in H. apply andb_true_iff in H. cbn [Str.drop]. apply IH, H.
Qed.

Lemma all_map p f s :
  (forall c, p (f c) = true) -> Str.all p (Str.map f s) = true.
Proof.
  intros Hf. induction s as [|c s IH]; cbn [Str.map Str.all]; [reflexivity|].
  rewrite Hf, IH. reflexivity.
Qed.

Lemma split_head_cons p c s :
  Str.splitHead p (String c s)
  = if p c then EmptyString else String c (Str.splitHead p s).
Proof.
  unfold Str.splitHead. cbn [Str.split].
  destruct (p c); [reflexivity|].
  destruct (Str.split p s); reflexivity.
Qed.

(** The first piece of a split holds no separator. *)
Lemma splitHead_free p s :
  Str.all (fun c => negb (p c)) (Str.splitHead p s) = true.
Proof.
  induction s as [|c s IH]; [reflexivity|].
  rewrite split_head_cons. destruct (p c) eqn:Ec; [reflexivity|].
  cbn [Str.all]. rewrite Ec, IH. reflexivity.
Qed.

Lemma all_splitHead q p s :
  Str.all q s = true -> Str.all q (Str.splitHead p s) = true.
Proof.
  induction s as [|c s IH]; intros H; [reflexivity|].
  rewrite split_head_cons. destruct (p c); [reflexivity|].
  cbn [Str.all] in *. apply andb_true_iff in H. destruct H as [Hc Hs].
  rewrite Hc, (IH Hs). reflexivity.
Qed.

(** A text without separator is its own first piece. *)
Lemma splitHead_whole p s :
  Str.all (fun c => negb (p c)) s = true -> Str.splitHead p s = s.
Proof.
  induction s as [|c s IH]; intros H; [reflexivity|].
  cbn [Str.all] in H. apply andb_true_iff in H. destruct H as [Hc Hs].
  rewrite split_head_cons. apply negb_true_iff in Hc. rewrite Hc, (IH Hs).
  reflexivity.
Qed.

Lemma all_startsWith q s p :
  Str.startsWith s p = true -> Str.all q s = true -> Str.all q p = true.
Proof.
  revert s. induction p as [|a p IH]; intros s H Hall; [reflexivity|].
  destruct s as [|b s]; cbn [Str.startsWith] in H; [discriminate|].
  apply andb_true_iff in H. destruct H as [Hab H].
  apply Ascii.eqb_eq in Hab. subst b.
  cbn [Str.all] in *. apply andb_true_iff in Hall. destruct Hall as [Ha Hs].
  rewrite Ha, (IH s H Hs). reflexivity.
Qed.

(** What occurs in a text whose characters all satisfy [q] is made of such
    characters. *)
Lemma all_includes q s sub :
  Str.includes s sub = true -> Str.all q s = true -> Str.all q sub = true.
Proof.
  induction s as [|c s IH]; cbn [Str.includes]; intros H Hall.
  - rewrite orb_false_r in H. eapply all_startsWith; eassumption.
  - apply orb_true_iff in H. destruct H as [H|H].
    + eapply all_startsWith; eassumption.
    + cbn [Str.all] in Hall. apply andb_true_iff in Hall. apply IH; tauto.
Qed.

Lemma lower_char_idem c : Str.lower_char (Str.lower_char c) = Str.lower_char c.
Proof.
  destruct c as [[] [] [] [] [] [] [] []]; vm_compute; reflexivity.
Qed.

Lemma lower_char_lowered c : lowered (Str.lower_char c) = true.
Proof. unfold lowered. rewrite lower_char_idem. apply Ascii.eqb_refl. Qed.

Lemma toLowerCase_lowered s : Str.all lowered (Str.toLowerCase s) = true.
Proof. apply all_map. exact lower_char_lowered. Qed.

Lemma lowered_fixed s : Str.all lowered s = true -> Str.toLowerCase s = s.
Proof.
  induction s as [|c s IH]; intros H; [reflexivity|].
  cbn [Str.all] in H. apply andb_true_iff in H. destruct H as [Hc Hs].
  unfold Str.toLowerCase in *. cbn [Str.map]. rewrite (IH Hs).
  apply Ascii.eqb_eq in Hc. rewrite Hc. reflexivity.
Qed.

End StrFacts.

Module OccursFacts.
Import Analyzer TextSpec StrFacts.

Lemma append_nil_r (s : string) : (s ++ "")%string = s.
Proof. induction s as [|c s IH]; cbn [append]; [|rewrite IH]; reflexivity. Qed.

Lemma app_assoc_s (a b c : string) :
  ((a ++ b) ++ c)%string = (a ++ (b ++ c))%string.
Proof. induction a as [|x a IH]; cbn [append]; [|rewrite IH]; reflexivity. Qed.

Lemma startsWith_prefix s p :
  Str.startsWith s p = true <-> exists after, s = (p ++ after)%string.
Proof.
  revert s. induction p as [|a p IH]; intros s.
  - split; [intros _; exists s; reflexivity | reflexivity].
  - destruct s as [|b s]; cbn [Str.startsWith append].
    + split; [discriminate | intros [x Hx]; discriminate Hx].
    + rewrite andb_true_iff. unfold Str.eqc. rewrite Ascii.eqb_eq, IH. split.
      * intros [-> [x ->]]. exists x. reflexivity.
      * intros [x Hx]. injection Hx as -> ->. split; [reflexivity|].
        exists x. reflexivity.
Qed.

Lemma includes_occurs s sub :
  Str.includes s sub = true <-> occursIn sub s.
Proof.
  unfold occursIn. induction s as [|c s IH]; cbn [Str.includes].
  - rewrite orb_false_r, startsWith_prefix. split.
    + intros [x Hx]. exists "", x. exact Hx.
    + intros (b & a & H). destruct b; [exists a; exact H|discriminate H].
  - rewrite orb_true_iff, startsWith_prefix, IH. split.
    + intros [[x Hx]|(b & a & H)].
      * exists "", x. exact Hx.
      * exists (String c b), a. cbn [append]. rewrite H. reflexivity.
    + intros (b & a & H). destruct b as [|d b]; cbn [append] in H.
      * left. exists a. exact H.
      * injection H as -> ->. right. exists b, a. reflexivity.
Qed.

Lemma occursIn_refl s : occursIn s s.
Proof. exists "", "". cbn [append]. rewrite append_nil_r. reflexivity. Qed.

Lemma occursIn_trans a b c : occursIn a b -> occursIn b c -> occursIn a c.
Proof.
  intros (p1 & q1 & ->) (p2 & q2 & ->).
  exists (p2 ++ p1)%string, (q1 ++ q2)%string.
  rewrite !app_assoc_s. reflexivity.
Qed.

Lemma occursIn_prefix a rest : occursIn a (a ++ rest)%string.
Proof. exists "", rest. reflexivity. Qed.

Lemma occursIn_suffix before a : occursIn a (before ++ a)%string.
Proof. exists before, "". rewrite append_nil_r. reflexivity. Qed.

Lemma occursIn_cons c a s : occursIn a s -> occursIn a (String c s).
Proof. intros (p & q & ->). exists (String c p), q. reflexivity. Qed.

Lemma map_app f a b :
  Str.map f (a ++ b) = (Str.map f a ++ Str.map f b)%string.
Proof. induction a as [|c a IH]; cbn [append Str.map]; [|rewrite IH]; reflexivity. Qed.

Lemma occursIn_lower a s :
  occursIn a s -> occursIn (Str.toLowerCase a) (Str.toLowerCase s).
Proof.
  intros (p & q & ->). unfold Str.toLowerCase. rewrite !map_app.
  eexists _, _. reflexivity.
Qed.

Lemma takeWhile_dropWhile p s :
  s = (Str.takeWhile p s ++ Str.dropWhile p s)%string.
Proof.
  induction s as [|c s IH]; [reflexivity|].
  cbn [Str.takeWhile Str.dropWhile]. destruct (p c); [|reflexivity].
  cbn [append]. rewrite <- IH. reflexivity.
Qed.

Lemma drop_occurs n : forall s, occursIn (Str.drop n s) s.
Proof.
  induction n as [|n IH]; intros s; [apply occursIn_refl|].
  destruct s as [|c s]; [apply occursIn_refl|].
  cbn [Str.drop]. apply occursIn_cons, IH.
Qed.

Lemma dropWhile_occurs p s : occursIn (Str.dropWhile p s) s.
Proof.
  rewrite (takeWhile_dropWhile p s) at 2. apply occursIn_suffix.
Qed.

Lemma rev_aux_app s : forall acc,
  Str.rev_aux s acc = (Str.rev_aux s "" ++ acc)%string.
Proof.
  induction s as [|c s IH]; intros acc; cbn [Str.rev_aux]; [reflexivity|].
  rewrite (IH (String c acc)), (IH (String c "")), app_assoc_s.
  reflexivity.
Qed.

Lemma rev_aux_twice s : forall acc acc',
  Str.rev_aux (Str.rev_aux s acc) acc' = Str.rev_aux acc (s ++ acc')%string.
Proof.
  induction s as [|c s IH]; intros acc acc'; cbn [Str.rev_aux append];
    [reflexivity|].
  rewrite IH. reflexivity.
Qed.

Lemma rev_involutive s : Str.rev (Str.rev s) = s.
Proof.
  unfold Str.rev. rewrite rev_aux_twice. cbn [Str.rev_aux].
  apply append_nil_r.
Qed.

(** A text whose reversal is [c] followed by [r] is the reversal of [r]
    followed by [c]. *)
Lemma rev_cons s c r :
  Str.rev s = String c r -> s = (Str.rev r ++ String c "")%string.
Proof.
  intros H. rewrite <- (rev_involutive s), H.
  unfold Str.rev. cbn [Str.rev_aux]. apply rev_aux_app.
Qed.

Lemma rev_app a b : Str.rev (a ++ b) = (Str.rev b ++ Str.rev a)%string.
Proof.
  unfold Str.rev. induction a as [|c a IH]; cbn [append Str.rev_aux].
  - rewrite append_nil_r. reflexivity.
  - rewrite rev_aux_app, IH, (rev_aux_app a (String c "")), app_assoc_s.
    reflexivity.
Qed.

Lemma trimEnd_occurs s : occursIn (Str.trimEnd s) s.
Proof.
  unfold Str.trimEnd.
  pose proof (takeWhile_dropWhile Str.isSpace (Str.rev s)) as H.
  apply (f_equal Str.rev) in H. rewrite rev_involutive, rev_app in H.
  rewrite H at 2. apply occursIn_prefix.
Qed.

Lemma trim_occurs s : occursIn (Str.trim s) s.
Proof.
  unfold Str.trim, Str.trimStart.
  eapply occursIn_trans; [apply trimEnd_occurs | apply dropWhile_occurs].
Qed.

Lemma splitHead_prefix p s :
  exists after, s = (Str.splitHead p s ++ after)%string.
Proof.
  induction s as [|c s [after IH]]; [exists ""; reflexivity|].
  rewrite split_head_cons. destruct (p c).
  - exists (String c s). reflexivity.
  - exists after. cbn [append]. rewrite <- IH. reflexivity.
Qed.

Lemma splitHead_occurs p s : occursIn (Str.splitHead p s) s.
Proof.
  destruct (splitHead_prefix p s) as [after H].
  rewrite H at 2. apply occursIn_prefix.
Qed.

End OccursFacts.

(** ** The response analyzer *)

Module AnalyzerFacts.
Import Analyzer Spec.

Lemma analyzeResponse_inv response domain parsed a :
  analyzeResponse response domain parsed = Return a ->
  exists m,
    a = finish response (normalizeDomain domain)
               (collected response (normalizeDomain domain) parsed) m.
Proof.
  unfold analyzeResponse, collected.
  destruct (Js.truthy parsed && Js.isObject parsed).
  - destruct (Js.get parsed "description") as [d|].
    + destruct d; cbn [Js.truthy];
        repeat match goal with
               | |- context [if ?b then _ else _] => destruct b
               end;
        intros H; inversion H; eauto.
    + intros H; inversion H; eauto.
  - intros H; inversion H; eauto.
Qed.

Lemma finish_fields response nd cs m :
  mentioned (finish response nd cs m) = m
  /\ citations (finish response nd cs m) = cs.
Proof.
  unfold finish. destruct (rawScore response nd cs m). split; reflexivity.
Qed.

Lemma Math_round_3 : Math_round (3 # 1) = 3.
Proof. reflexivity. Qed.

Lemma finish_cited response nd c cs m :
  score (finish response nd (c :: cs) m) = 3
  /\ confidence (finish response nd (c :: cs) m) = high.
Proof. split; reflexivity. Qed.

Lemma finish_mentioned response nd :
  let inFirst := Str.includes (Str.toLowerCase (firstSentence response)) nd in
  score (finish response nd [] true) = (if inFirst then 3 else 2)
  /\ confidence (finish response nd [] true) = medium.
Proof.
  unfold finish, rawScore; cbn zeta.
  destruct (Str.includes _ nd); split; reflexivity.
Qed.

Lemma finish_silent response nd :
  score (finish response nd [] false) = 0
  /\ confidence (finish response nd [] false) = low.
Proof. split; reflexivity. Qed.








Lemma takeWhile_drop p n s :
  Str.all p (Str.take n s) = true -> String.length (Str.take n s) = n ->
  Str.takeWhile p s = (Str.take n s ++ Str.takeWhile p (Str.drop n s))%string.
Proof.
  revert s. induction n as [|n IH]; intros s Hall Hlen.
  - destruct s; reflexivity.
  - destruct s as [|c s]; [discriminate Hlen|].
    cbn [Str.take Str.all] in Hall. apply andb_true_iff in Hall.
    destruct Hall as [Hc Hall]. cbn [Str.take String.length] in Hlen.
    cbn [Str.takeWhile Str.take Str.drop append]. rewrite Hc.
    rewrite (IH s Hall) by lia. reflexivity.
Qed.

Lemma startsWith_take s p :
  Str.startsWith s p = true -> Str.take (String.length p) s = p.
Proof.
  revert s. induction p as [|a p IH]; intros s H; [destruct s; reflexivity|].
  destruct s as [|b s]; cbn [Str.startsWith] in H; [discriminate|].
  apply andb_true_iff in H. destruct H as [Hab H].
  apply Ascii.eqb_eq in Hab. subst b.
  cbn [String.length Str.take]. rewrite (IH s H). reflexivity.
Qed.

(** The literal match at a position is the whole run of class characters
    from there, when the pattern starts there. *)
Lemma matchAt_run s :
  matchAt s = if urlStartsAt s then Some (Str.takeWhile urlChar s) else None.
Proof.
  unfold matchAt, urlStartsAt.
  destruct (Str.startsWith s "https://") eqn:Es.
  - pose proof (startsWith_take _ _ Es) as Ht. cbn [String.length] in Ht.
    rewrite (takeWhile_drop urlChar 8 s)
      by (rewrite Ht; reflexivity).
    rewrite Ht.
    destruct (Str.drop 8 s) as [|c r]; [reflexivity|].
    cbn [Str.takeWhile]. destruct (urlChar c); reflexivity.
  - destruct (Str.startsWith s "http://") eqn:Ep; [|reflexivity].
    pose proof (startsWith_take _ _ Ep) as Ht. cbn [String.length] in Ht.
    rewrite (takeWhile_drop urlChar 7 s)
      by (rewrite Ht; reflexivity).
    rewrite Ht.
    destruct (Str.drop 7 s) as [|c r]; [reflexivity|].
    cbn [Str.takeWhile]. destruct (urlChar c); reflexivity.
Qed.

Lemma drop_takeWhile p s :
  Str.drop (String.length (Str.takeWhile p s)) s = Str.dropWhile p s.
Proof.
  induction s as [|c s IH]; [reflexivity|].
  cbn [Str.takeWhile Str.dropWhile]. destruct (p c); [|reflexivity].
  cbn [String.length Str.drop]. exact IH.
Qed.

Lemma dropWhile_length p s :
  (String.length (Str.dropWhile p s) <= String.length s)%nat.
Proof.
  induction s as [|c s IH]; [reflexivity|].
  cbn [Str.dropWhile]. destruct (p c); cbn [String.length]; lia.
Qed.

Lemma urlStartsAt_head c s :
  urlStartsAt (String c s) = true -> urlChar c = true.
Proof.
  unfold urlStartsAt. cbn [Str.startsWith].
  destruct (Str.eqc "h" c) eqn:Eh.
  - apply Ascii.eqb_eq in Eh. subst c. reflexivity.
  - discriminate.
Qed.

(** Inside a match the scan waits for the end of the run. *)
Lemma scanUrls_inside s :
  scanUrls true s = scanUrls false (Str.dropWhile urlChar s).
Proof.
  induction s as [|c s IH]; [reflexivity|].
  cbn [scanUrls Str.dropWhile]. destruct (urlChar c) eqn:Ec; [exact IH|].
  cbn [scanUrls].
  destruct (urlStartsAt (String c s)) eqn:Eu; [|reflexivity].
  apply urlStartsAt_head in Eu. congruence.
Qed.

(** The scan of the embedding is the global match read literally. *)
Lemma scanUrls_is_global_match fuel :
  forall s, (String.length s <= fuel)%nat -> matchAll fuel s = matchUrls s.
Proof.
  unfold matchUrls. induction fuel as [|fuel IH]; intros s Hlen.
  - destruct s; [reflexivity | cbn [String.length] in Hlen; lia].
  - destruct s as [|c s]; [reflexivity|].
    cbn [matchAll scanUrls]. rewrite matchAt_run.
    cbn [String.length] in Hlen.
    destruct (urlStartsAt (String c s)) eqn:Eu.
    + rewrite drop_takeWhile, scanUrls_inside. f_equal.
      pose proof (urlStartsAt_head c s Eu) as Hc.
      cbn [Str.dropWhile]. rewrite Hc. apply IH.
      pose proof (dropWhile_length urlChar s). lia.
    + apply IH. lia.
Qed.



End AnalyzerFacts.

Section AnalyzerClaims.
Import Analyzer Spec AnalyzerFacts.

(** C1 (as the code has it).  When [analyzeResponse] reports the domain as
    mentioned and keeps no citation, the confidence is [medium] and the score
    it returns is the integer 2 or 3: the score before rounding is 2, or 5/2
    exactly when the normalized domain occurs in the first sentence (the text
    before the first full stop, exclamation mark or question mark, in lower
    case), and [Math.round] inside [analyzeResponse] turns 5/2 into 3 before
    the result is returned.  The per-prompt result never holds 5/2. *)
Theorem mentioned_without_citation_scores_2_or_3
        (response domain : string) (parsed : JSON) (a : Analysis) :
  analyzeResponse response domain parsed = Return a ->
  mentioned a = true ->
  citations a = [] ->
  let inFirst :=
    Str.includes (Str.toLowerCase (firstSentence response))
                 (normalizeDomain domain) in
  let raw := fst (rawScore response (normalizeDomain domain) [] true) in
  confidence a = medium
  /\ (raw == (if inFirst then 5 # 2 else 2 # 1))%Q
  /\ score a = Math_round raw
  /\ score a = (if inFirst then 3 else 2)
  /\ (score a = 3 <-> inFirst = true).
Proof.
  intros Ha Hm Hc inFirst raw.
  destruct (analyzeResponse_inv _ _ _ _ Ha) as [m ->].
  destruct (finish_fields response (normalizeDomain domain)
              (collected response (normalizeDomain domain) parsed) m)
    as [Em Ec].
  rewrite Em in Hm. rewrite Ec in Hc. subst m. rewrite Hc.
  destruct (finish_mentioned response (normalizeDomain domain)) as [Hs Hconf].
  cbn zeta in Hs. fold inFirst in Hs.
  subst raw. unfold rawScore. fold inFirst.
  repeat split.
  - exact Hconf.
  - destruct inFirst; reflexivity.
  - rewrite Hs. destruct inFirst; reflexivity.
  - exact Hs.
  - rewrite Hs. destruct inFirst; [reflexivity | discriminate].
  - intros ->. exact Hs.
Qed.

(** The statement above at the host [localhost], named in the first
    sentence of an unparsed answer. *)
Lemma mentioned_without_citation_witness :
  let a := {| mentioned := true; score := 3; citations := [];
              confidence := medium |} in
  confidence a = medium
  /\ (fst (rawScore "localhost is up" (normalizeDomain "localhost") [] true)
      == 5 # 2)%Q
  /\ score a = Math_round
                 (fst (rawScore "localhost is up" (normalizeDomain "localhost")
                                [] true))
  /\ score a = 3
  /\ (score a = 3 <-> true = true).
Proof.
  exact (mentioned_without_citation_scores_2_or_3
           "localhost is up" "localhost" JNull
           {| mentioned := true; score := 3; citations := [];
              confidence := medium |}
           eq_refl eq_refl eq_refl).
Defined.

(** C1 as the specification words it fails: for the host [localhost] named
    in the first sentence, the domain is mentioned, no citation is kept, and
    the score returned is 3, which is neither 2 nor 5/2. *)
Lemma half_point_is_not_exposed :
  exists a,
    analyzeResponse "localhost is up" "localhost" JNull = Return a
    /\ mentioned a = true
    /\ citations a = []
    /\ confidence a = medium
    /\ ~ (inject_Z (score a) == 2 # 1 \/ inject_Z (score a) == 5 # 2)%Q.
Proof.
  eexists. split; [reflexivity|]. cbn.
  repeat split; try reflexivity.
  intros [H|H]; vm_compute in H; discriminate H.
Qed.



End AnalyzerClaims.

(** ** The citations of an answer *)

Module CitationFacts.
Import Analyzer Spec TextSpec CitationSpec OccursFacts.

Lemma containsTarget_test nd u :
  Str.includes (normalizeDomain u) nd = true <-> containsTarget nd u.
Proof. unfold containsTarget. apply includes_occurs. Qed.

Lemma domainMatches_test nd u :
  Str.includes (normalizeDomain u) nd || Str.includes nd (normalizeDomain u)
  = true
  <-> domainMatches nd u.
Proof.
  unfold domainMatches, containsTarget.
  rewrite orb_true_iff, !includes_occurs. reflexivity.
Qed.

Lemma filterCitations_spec nd urls u :
  In u (filterCitations nd urls) <->
  In (JStr u) urls /\ domainMatches nd u.
Proof.
  induction urls as [|x rest IH]; cbn [filterCitations].
  - split; [intros [] | intros [[] _]].
  - unfold keepCitation at 1.
    destruct x as [ |b|q|s|items|fields];
      try (rewrite IH; split;
           [ intros [H1 H2]; split; [right; exact H1 | exact H2]
           | intros [[H1|H1] H2]; [discriminate H1 | split; assumption] ]).
    destruct (Str.includes (normalizeDomain s) nd
              || Str.includes nd (normalizeDomain s)) eqn:Hm.
    + apply domainMatches_test in Hm.
      cbn [In]. rewrite IH. split.
      * intros [->|[H1 H2]]; [split; [left; reflexivity | exact Hm]|].
        split; [right; exact H1 | exact H2].
      * intros [[H1|H1] H2]; [left; congruence | right; split; assumption].
    + rewrite IH. split.
      * intros [H1 H2]; split; [right; exact H1 | exact H2].
      * intros [[H1|H1] H2]; [|split; assumption].
        injection H1 as ->. apply domainMatches_test in H2. congruence.
Qed.

Lemma not_occursIn sub s : Str.includes s sub = false -> ~ occursIn sub s.
Proof.
  intros H Ho. apply includes_occurs in Ho. rewrite Ho in H. discriminate H.
Qed.

End CitationFacts.

Section CitationClaim.
Import Analyzer Spec TextSpec CitationSpec AnalyzerFacts CitationFacts.

(** C10 (as the code has it).  The citations [analyzeResponse] returns are
    exactly the URLs of the answer that pass a test on the normalized URL,
    which is the URL in lower case, without its scheme and a leading [www.],
    cut at the first slash, and not its host.  On the parsed path they are
    the strings of [parsedResponse.citations] whose normalized form contains
    the normalized target or is contained in it; on the raw path they are the
    matches of the URL pattern in the text whose normalized form contains the
    normalized target.  So every citation returned matches the target in this
    sense, and no URL that fails the test is returned. *)
Theorem citations_match_domain
        (response domain : string) (parsed : JSON) (a : Analysis) :
  analyzeResponse response domain parsed = Return a ->
  let target := normalizeDomain domain in
  Forall (domainMatches target) (citations a)
  /\ (Js.truthy parsed && Js.isObject parsed = true ->
      forall url,
        In url (citations a)
        <-> (exists urls, Js.get parsed "citations" = Some (JArr urls)
                          /\ In (JStr url) urls)
            /\ domainMatches target url)
  /\ (Js.truthy parsed && Js.isObject parsed = false ->
      forall url,
        In url (citations a)
        <-> In url (matchUrls response) /\ containsTarget target url).
Proof.
  intros Ha target. subst target.
  destruct (analyzeResponse_inv _ _ _ _ Ha) as [m ->].
  destruct (finish_fields response (normalizeDomain domain)
              (collected response (normalizeDomain domain) parsed) m)
    as [_ Ec].
  rewrite Ec. unfold collected.
  destruct (Js.truthy parsed && Js.isObject parsed).
  - assert (Hiff : forall url,
              In url match Js.get parsed "citations" with
                     | Some (JArr urls) =>
                         filterCitations (normalizeDomain domain) urls
                     | _ => []
                     end
              <-> (exists urls, Js.get parsed "citations" = Some (JArr urls)
                                /\ In (JStr url) urls)
                  /\ domainMatches (normalizeDomain domain) url).
    { intros url.
      destruct (Js.get parsed "citations") as [[ | | | |urls| ]|];
        try (split; [intros [] | intros [(urls & Hu & _) _]; discriminate Hu]).
      rewrite filterCitations_spec. split.
      - intros [H1 H2]. split; [exists urls; auto | exact H2].
      - intros [(urls' & Hu & H1) H2]. injection Hu as <-. auto. }
    split; [|split; [intros _; exact Hiff | discriminate]].
    apply Forall_forall. intros url Hin. apply Hiff in Hin. apply Hin.
  - assert (Hiff : forall url,
              In url (filter (fun url =>
                                Str.includes (normalizeDomain url)
                                             (normalizeDomain domain))
                             (matchUrls response))
              <-> In url (matchUrls response)
                  /\ containsTarget (normalizeDomain domain) url).
    { intros url. rewrite filter_In, containsTarget_test. reflexivity. }
    split; [|split; [discriminate | intros _; exact Hiff]].
    apply Forall_forall. intros url Hin. apply Hiff in Hin.
    left. apply Hin.
Qed.

(** The statement above at an answer whose array names the target and a
    foreign site: only the target is kept. *)
Lemma citations_match_domain_witness :
  let a := {| mentioned := false; score := 3;
              citations := ["https://example.com/about"];
              confidence := high |} in
  let parsed := JObj [("citations",
                       JArr [JStr "https://example.com/about";
                             JStr "https://other.org/"])] in
  let target := normalizeDomain "example.com" in
  Forall (domainMatches target) (citations a)
  /\ (Js.truthy parsed && Js.isObject parsed = true ->
      forall url,
        In url (citations a)
        <-> (exists urls, Js.get parsed "citations" = Some (JArr urls)
                          /\ In (JStr url) urls)
            /\ domainMatches target url)
  /\ (Js.truthy parsed && Js.isObject parsed = false ->
      forall url,
        In url (citations a)
        <-> In url (matchUrls "{}") /\ containsTarget target url).
Proof.
  exact (citations_match_domain "{}" "example.com"
           (JObj [("citations",
                   JArr [JStr "https://example.com/about";
                         JStr "https://other.org/"])])
           {| mentioned := false; score := 3;
              citations := ["https://example.com/about"];
              confidence := high |}
           eq_refl).
Defined.

(** C10 as the specification words it fails.  For the target
    [example.com], an answer that cites [https://notexample.com/],
    [https://evil.org?ref=example.com], [com] and the empty string gets all
    four back as citations, with a score of 3 and confidence [high]; and a
    text that holds [https://evil.org?ref=example.com] gets that URL back on
    the raw path.  The host of that URL is [evil.org], which neither contains
    [example.com] nor is contained in it: the test is made on the normalized
    URL, which keeps the query. *)
Lemma foreign_urls_are_cited :
  analyzeResponse "{}" "example.com" foreignAnswer
  = Return {| mentioned := false; score := 3;
              citations := foreignCitations; confidence := high |}
  /\ analyzeResponse foreignText "example.com" JNull
     = Return {| mentioned := true; score := 3;
                 citations := ["https://evil.org?ref=example.com"];
                 confidence := high |}
  /\ hostOf "https://evil.org?ref=example.com" = "evil.org"
  /\ ~ hostMatches "example.com" "https://evil.org?ref=example.com"
  /\ normalizeDomain "https://evil.org?ref=example.com"
     = "evil.org?ref=example.com"
  /\ hostOf "https://notexample.com/" = "notexample.com".
Proof.
  split; [reflexivity|]. split; [vm_compute; reflexivity|].
  split; [reflexivity|]. split; [|split; reflexivity].
  unfold hostMatches.
  change (hostOf "https://evil.org?ref=example.com") with "evil.org".
  intros [H | H]; revert H; apply not_occursIn; reflexivity.
Qed.

End CitationClaim.

(** ** Reasoning about asynchronous code *)

Module AsyncFacts.
Import Async Hoare.

Lemma ensures_ret {A} (a : A) (Q : A -> Prop) : Q a -> ensures (ret a) Q.
Proof. intros HQ t a' t' H. inversion H; subst; exact HQ. Qed.

Lemma ensures_throw {A} (e : string) (Q : A -> Prop) : ensures (throw e) Q.
Proof. intros t a t' H. inversion H. Qed.

Lemma ensures_bind {A B} (m : M A) (k : A -> M B) (P : A -> Prop)
      (Q : B -> Prop) :
  ensures m P -> (forall a, P a -> ensures (k a) Q) -> ensures (bind m k) Q.
Proof.
  intros Hm Hk t b t' H. unfold bind in H.
  destruct (m t) as [[a|e] t1] eqn:Em; [|inversion H].
  exact (Hk a (Hm _ _ _ Em) _ _ _ H).
Qed.

Lemma ensures_tryCatch {A} (body : M A) (handler : string -> M A)
      (Q : A -> Prop) :
  ensures body Q -> (forall e, ensures (handler e) Q) ->
  ensures (tryCatch body handler) Q.
Proof.
  intros Hb Hh t a t' H. unfold tryCatch in H.
  destruct (body t) as [[a0|e] t1] eqn:Eb.
  - inversion H; subst. exact (Hb _ _ _ Eb).
  - exact (Hh e _ _ _ H).
Qed.

Lemma ensures_weaken {A} (m : M A) (P Q : A -> Prop) :
  ensures m P -> (forall a, P a -> Q a) -> ensures m Q.
Proof. intros Hm HPQ t a t' H. exact (HPQ _ (Hm _ _ _ H)). Qed.

Lemma ensures_true {A} (m : M A) : ensures m (fun _ => True).
Proof. intros t a t' _. exact I. Qed.

Lemma yields_ret {A} (a : A) (Q : A -> Prop) : Q a -> yields (ret a) Q.
Proof. intros HQ t. exists a, t. split; [reflexivity | exact HQ]. Qed.

Lemma yields_bind {A B} (m : M A) (k : A -> M B) (P : A -> Prop)
      (Q : B -> Prop) :
  yields m P -> (forall a, P a -> yields (k a) Q) -> yields (bind m k) Q.
Proof.
  intros Hm Hk t. destruct (Hm t) as (a & t1 & Em & HP).
  destruct (Hk a HP t1) as (b & t2 & Ek & HQ).
  exists b, t2. split; [|exact HQ]. unfold bind. rewrite Em. exact Ek.
Qed.

(** A handler that always returns makes the whole [try] return. *)
Lemma yields_tryCatch {A} (body : M A) (handler : string -> M A)
      (Q : A -> Prop) :
  ensures body Q -> (forall e, yields (handler e) Q) ->
  yields (tryCatch body handler) Q.
Proof.
  intros Hb Hh t. unfold tryCatch.
  destruct (body t) as [[a|e] t1] eqn:Eb.
  - exists a, t1. split; [reflexivity | exact (Hb _ _ _ Eb)].
  - exact (Hh e t1).
Qed.

Lemma yields_sleep (ms : Z) : yields (sleep ms) (fun _ => True).
Proof. intros t. eexists _, _. split; [reflexivity | exact I]. Qed.

Lemma yields_weaken {A} (m : M A) (P Q : A -> Prop) :
  yields m P -> (forall a, P a -> Q a) -> yields m Q.
Proof.
  intros Hm HPQ t. destruct (Hm t) as (a & t' & E & HP).
  exists a, t'. split; [exact E | exact (HPQ _ HP)].
Qed.

Lemma yields_ensures {A} (m : M A) (P Q : A -> Prop) :
  yields m P -> ensures m Q -> yields m (fun a => P a /\ Q a).
Proof.
  intros Hy He t. destruct (Hy t) as (a & t' & E & HP).
  exists a, t'. split; [exact E | split; [exact HP | exact (He _ _ _ E)]].
Qed.

End AsyncFacts.

(** ** Prompt selection *)

Module SelectFacts.
Import Async Hoare AsyncFacts Visibility PromptGeneration SelectSpec.

Lemma getDefaultPrompts_length brandName industry :
  List.length (getDefaultPrompts brandName industry) = 10%nat.
Proof. reflexivity. Qed.

Lemma firstn_ten {A} (l : list A) :
  (10 <=? List.length l)%nat = true -> List.length (firstn 10 l) = 10%nat.
Proof.
  intros H. apply Nat.leb_le in H. rewrite length_firstn. lia.
Qed.

Lemma toTemplates_length prompts :
  forall index, List.length (toTemplates index prompts) = List.length prompts.
Proof.
  induction prompts as [|p rest IH]; intros index; cbn [toTemplates List.length].
  - reflexivity.
  - rewrite IH. reflexivity.
Qed.

Lemma toTemplates_custom prompts :
  forall index,
    Forall (fun pt => category pt = "custom") (toTemplates index prompts).
Proof.
  induction prompts as [|p rest IH]; intros index; cbn [toTemplates].
  - constructor.
  - constructor; [reflexivity | apply IH].
Qed.

Lemma toTemplates_template prompts :
  forall index, List.map template (toTemplates index prompts) = prompts.
Proof.
  induction prompts as [|p rest IH]; intros index; cbn [toTemplates List.map].
  - reflexivity.
  - rewrite IH. reflexivity.
Qed.

Section WithEnv.
Variable E : Env.

Lemma fromJson_length responseText prompts :
  fromJson E responseText = Some prompts -> List.length prompts = 10%nat.
Proof.
  unfold fromJson.
  destruct (matchArray responseText) as [text|]; [|discriminate].
  destruct (JSON_parse E text) as [[ | | | |items| ]|]; try discriminate.
  destruct (10 <=? List.length items)%nat eqn:Hlen; [|discriminate].
  intros H. injection H as <-. apply firstn_ten. exact Hlen.
Qed.

Lemma fromLines_length responseText prompts :
  fromLines responseText = Some prompts -> List.length prompts = 10%nat.
Proof.
  unfold fromLines.
  destruct (10 <=? List.length _)%nat eqn:Hlen; [|discriminate].
  intros H. injection H as <-. rewrite length_map.
  apply firstn_ten. exact Hlen.
Qed.

(** [generateBusinessPrompts] always returns ten prompts. *)
Lemma generateBusinessPrompts_yields brandName brandSummary industry url :
  yields (generateBusinessPrompts E brandName brandSummary industry url)
         (fun prompts => List.length prompts = 10%nat).
Proof.
  unfold generateBusinessPrompts. apply yields_tryCatch.
  - unfold generate.
    eapply ensures_bind; [apply ensures_true|]. intros raw _.
    destruct (fromJson E (Text.stripCodeFences raw)) as [ps|] eqn:Ej.
    + apply ensures_ret. eapply fromJson_length; exact Ej.
    + destruct (fromLines (Text.stripCodeFences raw)) as [ps|] eqn:El.
      * apply ensures_ret. eapply fromLines_length; exact El.
      * apply ensures_ret. rewrite length_map. reflexivity.
  - intros e. apply yields_ret. rewrite length_map. reflexivity.
Qed.

Lemma selectPrompts_yields url options brand topic :
  yields (selectPrompts E url options brand topic)
         (fun prompts => prompts <> []).
Proof.
  unfold selectPrompts.
  destruct (isPremium options);
    [destruct (businessInfo options) as [info|]|];
    try (apply yields_ret; discriminate).
  apply yields_tryCatch.
  - eapply ensures_bind with (P := fun ps => List.length ps = 10%nat).
    + intros t a t' H.
      destruct (generateBusinessPrompts_yields
                  (orDefault (brandName info) brand)
                  (orDefault (brandSummary info) "")
                  (orDefault (industry info) topic) url t)
        as (ps & t1 & Eg & Hlen).
      rewrite Eg in H. injection H as <- _. exact Hlen.
    + intros ps Hlen. apply ensures_ret.
      intros Hnil.
      pose proof (toTemplates_length ps 0) as Hl.
      rewrite Hnil, Hlen in Hl. discriminate Hl.
  - intros e. apply yields_ret. discriminate.
Qed.

End WithEnv.

End SelectFacts.

(** ** The run: every prompt yields one entry *)

Module RunFacts.
Import Async Hoare AsyncFacts Visibility RunSpec Analyzer Spec AnalyzerFacts.

Lemma score_values response domain parsed a :
  analyzeResponse response domain parsed = Return a ->
  score a = 0 \/ score a = 2 \/ score a = 3.
Proof.
  intros Ha. destruct (analyzeResponse_inv _ _ _ _ Ha) as [m ->].
  destruct (collected response (normalizeDomain domain) parsed) as [|c cs].
  - destruct m.
    + destruct (finish_mentioned response (normalizeDomain domain)) as [Hs _].
      cbn zeta in Hs. rewrite Hs.
      destruct (Str.includes _ _); auto.
    + left. apply finish_silent.
  - right; right. apply finish_cited.
Qed.

Lemma sumScores_app ds1 ds2 :
  sumScores (ds1 ++ ds2) = sumScores ds1 + sumScores ds2.
Proof.
  induction ds1 as [|d ds1 IH]; cbn [sumScores fold_right app].
  - reflexivity.
  - fold (sumScores (ds1 ++ ds2)). fold (sumScores ds1). rewrite IH. lia.
Qed.

Lemma sumScores_range ds :
  Forall wellScored ds -> 0 <= sumScores ds <= 3 * Z.of_nat (List.length ds).
Proof.
  induction 1 as [|d ds [Hd _] _ IH].
  - cbn. lia.
  - cbn [sumScores fold_right List.length]. fold (sumScores ds).
    rewrite Nat2Z.inj_succ. lia.
Qed.

Lemma failed_wellScored pt message : wellScored (failed pt message).
Proof. split; [left; reflexivity | intros _; reflexivity]. Qed.

Lemma pushFailed_pushesOne acc pt message :
  pushesOne pt acc (pushFailed acc pt message).
Proof.
  exists (failed pt message). repeat split.
  - cbn. lia.
  - left; reflexivity.
Qed.

Section WithEnv.
Variable E : Env.

Lemma record_pushesOne premium acc pt domain brand prompt ar :
  ensures (record E premium acc pt domain brand prompt ar) (pushesOne pt acc).
Proof.
  unfold record.
  eapply ensures_bind with
    (P := fun a => score a = 0 \/ score a = 2 \/ score a = 3).
  - intros t a t' H. unfold lift in H. inversion H as [[Ha Ht]].
    eapply score_values. exact Ha.
  - intros analysis Hscore.
    eapply ensures_bind; [apply ensures_true|]. intros recs _.
    eapply ensures_bind; [apply ensures_true|]. intros _ _.
    apply ensures_ret. eexists. repeat split; cbn.
    + exact Hscore.
    + intros Hne. contradiction Hne. reflexivity.
Qed.

Lemma processPrompt_yields premium domain brand topic acc pt :
  yields (processPrompt E premium domain brand topic acc pt) (pushesOne pt acc).
Proof.
  unfold processPrompt. apply yields_tryCatch.
  - eapply ensures_bind; [apply ensures_true|]. intros pa _.
    apply ensures_tryCatch.
    + eapply ensures_weaken; [apply record_pushesOne|].
      intros acc' (d & H1 & H2 & H3 & H4). exists d. auto.
    + intros e. apply ensures_ret.
      destruct (pushFailed_pushesOne
                  {| results := results acc; accScore := accScore acc;
                     accTokens := accTokens acc + ar_tokensUsed (snd pa) |}
                  pt e) as (d & H1 & H2 & H3 & H4).
      exists d. auto.
  - intros e. apply yields_ret. apply pushFailed_pushesOne.
Qed.

Lemma dispatch_yields premium domain brand topic prompts :
  forall acc,
    yields (dispatch E premium domain brand topic prompts acc)
           (pushesAll prompts acc).
Proof.
  induction prompts as [|pt rest IH]; intros acc; cbn [dispatch].
  - apply yields_ret. exists []. repeat split.
    + symmetry. apply app_nil_r.
    + cbn. lia.
    + constructor.
  - eapply yields_bind; [apply processPrompt_yields|].
    intros acc1 (d & H1 & H2 & H3 & H4).
    eapply yields_weaken; [apply IH|].
    intros acc2 (ds & G1 & G2 & G3 & G4).
    exists (d :: ds). repeat split.
    + rewrite G1, H1, <- app_assoc. reflexivity.
    + cbn [List.map]. rewrite H2, G2. reflexivity.
    + rewrite G3, H3. cbn [sumScores fold_right]. fold (sumScores ds). lia.
    + constructor; assumption.
Qed.

(** The run returns a report: one entry for each selected prompt, in
    order, and the totals of the entries. *)
Lemma analyzeLLMVisibility_yields url options :
  yields (analyzeLLMVisibility E url options)
         (fun r =>
            details r <> []
            /\ totalScore r = sumScores (details r)
            /\ maxScore r = Z.of_nat (List.length (details r)) * 3
            /\ percentage r = percentageOf (totalScore r) (maxScore r)
            /\ Forall wellScored (details r)).
Proof.
  unfold analyzeLLMVisibility.
  eapply yields_bind; [apply SelectFacts.selectPrompts_yields|].
  intros prompts Hne.
  eapply yields_bind; [apply dispatch_yields|].
  intros acc (ds & H1 & H2 & H3 & H4).
  apply yields_ret. cbn [emptyAcc results accScore app] in H1, H3.
  assert (Hlen : List.length ds = List.length prompts).
  { rewrite <- (length_map Detail.promptId ds), H2. apply length_map. }
  unfold report; cbn [details totalScore maxScore percentage].
  rewrite H1, H3, Hlen. repeat split; try (f_equal; lia).
  - intros Hnil. rewrite Hnil in Hlen. destruct prompts; [auto | discriminate].
  - exact H4.
Qed.

End WithEnv.

End RunFacts.

(** ** The generation of business prompts *)

Module GenerationFacts.
Import Async Visibility PromptGeneration TextSpec GenerationSpec.
Import StrFacts OccursFacts SelectFacts.

(** *** Characters that do not occur *)

Lemma free_nil c : free c "".
Proof.
  intros Ho. apply includes_occurs in Ho. discriminate Ho.
Qed.

Lemma free_cons c d s :
  free c (String d s) <-> d <> c /\ free c s.
Proof.
  unfold free. rewrite <- !includes_occurs.
  cbn [Str.includes Str.startsWith]. unfold Str.eqc.
  destruct (Ascii.eqb_spec c d) as [->|Hne]; cbn [andb orb].
  - split; [intros H; destruct H; reflexivity | intros [H _]; destruct H;
                                                 reflexivity].
  - split.
    + intros H. split; [intros Heq; apply Hne; symmetry; exact Heq | exact H].
    + intros [_ H]. exact H.
Qed.

Lemma free_all c s :
  free c s <-> Str.all (fun d => negb (Str.eqc d c)) s = true.
Proof.
  induction s as [|d s IH]; cbn [Str.all].
  - split; [reflexivity | intros _; apply free_nil].
  - rewrite free_cons, IH, andb_true_iff, negb_true_iff. unfold Str.eqc.
    destruct (Ascii.eqb_spec d c) as [->|Hne].
    + split; [intros [H _]; destruct H; reflexivity
             | intros [H _]; discriminate H].
    + split; intros [_ H]; split; auto.
Qed.

Lemma takeWhile_all p s : Str.all p (Str.takeWhile p s) = true.
Proof.
  induction s as [|c s IH]; cbn [Str.takeWhile]; [reflexivity|].
  destruct (p c) eqn:Hc; cbn [Str.all]; [rewrite Hc, IH|]; reflexivity.
Qed.

Lemma dropWhile_head p s c rest :
  Str.dropWhile p s = String c rest -> p c = false.
Proof.
  induction s as [|d s IH]; cbn [Str.dropWhile]; [discriminate|].
  destruct (p d) eqn:Hd; [exact IH|].
  intros H. injection H as <- _. exact Hd.
Qed.

Lemma dropWhile_app p a c rest :
  Str.all p a = true -> p c = false ->
  Str.dropWhile p (a ++ String c rest) = String c rest.
Proof.
  intros Ha Hc. induction a as [|d a IH]; cbn [append Str.dropWhile].
  - rewrite Hc. reflexivity.
  - cbn [Str.all] in Ha. apply andb_true_iff in Ha. destruct Ha as [Hd Ha].
    rewrite Hd. apply IH. exact Ha.
Qed.

Lemma takeWhile_app p a c rest :
  Str.all p a = true -> p c = false ->
  Str.takeWhile p (a ++ String c rest) = a.
Proof.
  intros Ha Hc. induction a as [|d a IH]; cbn [append Str.takeWhile].
  - rewrite Hc. reflexivity.
  - cbn [Str.all] in Ha. apply andb_true_iff in Ha. destruct Ha as [Hd Ha].
    rewrite Hd, IH by exact Ha. reflexivity.
Qed.

Lemma rev_single c s : Str.rev (String c s) = (Str.rev s ++ String c "")%string.
Proof. change (String c s) with (String c "" ++ s)%string. apply rev_app. Qed.

(** *** The pattern of a bracketed array *)

Lemma isOpen_char c : isOpen c = true -> c = "["%char.
Proof. unfold isOpen, Str.eqc. apply Ascii.eqb_eq. Qed.

Lemma isClose_char c : isClose c = true -> c = "]"%char.
Proof. unfold isClose, Str.eqc. apply Ascii.eqb_eq. Qed.

Lemma matchArray_bracketed text found :
  matchArray text = Some found <-> bracketed text found.
Proof.
  unfold matchArray, bracketed. split.
  - pose proof (takeWhile_dropWhile (fun c => negb (isOpen c)) text) as Htext.
    pose proof (takeWhile_all (fun c => negb (isOpen c)) text) as Hbefore.
    destruct (Str.dropWhile (fun c => negb (isOpen c)) text) as [|c rest]
      eqn:Ed; [discriminate|].
    apply dropWhile_head in Ed. apply negb_false_iff, isOpen_char in Ed.
    subst c.
    pose proof (takeWhile_dropWhile (fun d => negb (isClose d)) (Str.rev rest))
      as Hrest.
    pose proof (takeWhile_all (fun d => negb (isClose d)) (Str.rev rest))
      as Hafter.
    destruct (Str.dropWhile (fun d => negb (isClose d)) (Str.rev rest))
      as [|d body] eqn:Eb; [discriminate|].
    apply dropWhile_head in Eb. apply negb_false_iff, isClose_char in Eb.
    subst d. intros H. injection H as <-.
    exists (Str.takeWhile (fun c => negb (isOpen c)) text), (Str.rev body),
      (Str.rev (Str.takeWhile (fun d => negb (isClose d)) (Str.rev rest))).
    assert (Hr : rest
                 = (Str.rev body ++ "]"
                    ++ Str.rev (Str.takeWhile (fun d => negb (isClose d))
                                  (Str.rev rest)))%string).
    { rewrite <- (rev_involutive rest) at 1. rewrite Hrest at 1.
      rewrite rev_app, rev_single, app_assoc_s. reflexivity. }
    split; [rewrite Htext at 1; rewrite Hr at 1; reflexivity|].
    split; [apply free_all; exact Hbefore|].
    split; [apply free_all; rewrite all_rev; exact Hafter|].
    rewrite rev_single. reflexivity.
  - intros (before & inner & after & -> & Hb & Ha & ->).
    apply free_all in Hb. apply free_all in Ha.
    change ("[" ++ inner ++ "]" ++ after)%string
      with (String "["%char (inner ++ "]" ++ after)).
    rewrite (dropWhile_app (fun c => negb (isOpen c)) before "["%char _ Hb
               eq_refl).
    rewrite rev_app.
    change ("]" ++ after)%string with (String "]"%char after).
    rewrite rev_single, app_assoc_s.
    change (String "]"%char "" ++ Str.rev inner)%string
      with (String "]"%char (Str.rev inner)).
    rewrite (dropWhile_app (fun d => negb (isClose d)) (Str.rev after)
               "]"%char _); [|rewrite all_rev; exact Ha | reflexivity].
    rewrite rev_single, rev_involutive. reflexivity.
Qed.

Section WithEnv.
Variable E : Env.

Lemma fromJson_holds text items :
  holdsArray E text items -> fromJson E text = Some (firstn 10 items).
Proof.
  intros (found & Hb & Hp & Hlen). unfold fromJson.
  rewrite (proj2 (matchArray_bracketed text found) Hb), Hp.
  apply Nat.leb_le in Hlen. rewrite Hlen. reflexivity.
Qed.

Lemma fromJson_none text :
  (forall items, ~ holdsArray E text items) -> fromJson E text = None.
Proof.
  intros Hno. unfold fromJson.
  destruct (matchArray text) as [found|] eqn:Em; [|reflexivity].
  apply matchArray_bracketed in Em.
  destruct (JSON_parse E found) as [[ | | | |items| ]|] eqn:Ep;
    try reflexivity.
  destruct (10 <=? List.length items)%nat eqn:Hlen; [|reflexivity].
  apply Nat.leb_le in Hlen.
  destruct (Hno items). exists found. auto.
Qed.

End WithEnv.

(** *** The lines of a text *)

Lemma split_free p s :
  Str.all (fun c => negb (p c)) s = true -> Str.split p s = [s].
Proof.
  induction s as [|c s IH]; cbn [Str.all Str.split]; [reflexivity|].
  intros H. apply andb_true_iff in H. destruct H as [Hc Hs].
  apply negb_true_iff in Hc. rewrite Hc, (IH Hs). reflexivity.
Qed.

Lemma split_app p a c rest :
  Str.all (fun d => negb (p d)) a = true -> p c = true ->
  Str.split p (a ++ String c rest) = a :: Str.split p rest.
Proof.
  intros Ha Hc. induction a as [|d a IH]; cbn [append Str.split].
  - rewrite Hc. reflexivity.
  - cbn [Str.all] in Ha. apply andb_true_iff in Ha. destruct Ha as [Hd Ha].
    apply negb_true_iff in Hd. rewrite Hd, (IH Ha). reflexivity.
Qed.

Lemma free_newline line :
  free Str.newline line ->
  Str.all (fun c => negb (isNewline c)) line = true.
Proof. intros H. apply free_all in H. exact H. Qed.

Lemma split_unlines lines :
  lines <> [] -> Forall (free Str.newline) lines ->
  Str.split isNewline (Text.unlines lines) = lines.
Proof.
  induction lines as [|line rest IH]; intros Hne Hfree; [destruct Hne; auto|].
  inversion Hfree as [|? ? Hline Hrest]; subst.
  destruct rest as [|next rest].
  - cbn [Text.unlines]. apply split_free, free_newline, Hline.
  - change (Text.unlines (line :: next :: rest))
      with (line ++ String Str.newline (Text.unlines (next :: rest)))%string.
    rewrite split_app; [|apply free_newline, Hline | reflexivity].
    rewrite IH; [reflexivity | discriminate | exact Hrest].
Qed.

Lemma split_nonempty p s : Str.split p s <> [].
Proof.
  destruct s as [|c s]; cbn [Str.split]; [discriminate|].
  destruct (p c); [discriminate|].
  destruct (Str.split p s); discriminate.
Qed.

Lemma unlines_cons line lines :
  lines <> [] ->
  Text.unlines (line :: lines)
  = (line ++ String Str.newline (Text.unlines lines))%string.
Proof. destruct lines; [intros H; destruct H|]; reflexivity. Qed.

Lemma split_lines text : linesOf text (Str.split isNewline text).
Proof.
  split; [apply split_nonempty|].
  induction text as [|c text [IHtext IHfree]]; cbn [Str.split].
  - split; [reflexivity|]. constructor; [apply free_nil | constructor].
  - destruct (isNewline c) eqn:Hc.
    + unfold isNewline, Str.eqc in Hc. apply Ascii.eqb_eq in Hc. subst c.
      split.
      * rewrite unlines_cons by apply split_nonempty.
        rewrite <- IHtext. reflexivity.
      * constructor; [apply free_nil | exact IHfree].
    + pose proof (split_nonempty isNewline text) as Hne.
      destruct (Str.split isNewline text) as [|piece rest]; [destruct Hne; auto|].
      inversion IHfree as [|? ? Hpiece Hrest]; subst.
      split.
      * destruct rest; reflexivity.
      * constructor; [|exact Hrest].
        apply free_cons. split; [|exact Hpiece].
        intros ->. discriminate Hc.
Qed.

Lemma linesOf_split text lines :
  linesOf text lines -> lines = Str.split isNewline text.
Proof.
  intros (Hne & -> & Hfree). symmetry. apply split_unlines; assumption.
Qed.

(** *** Lines that read as items *)

Lemma afterNumber_starts line :
  (exists rest, afterNumber line = Some rest) <-> startsNumbered line.
Proof.
  unfold afterNumber, startsNumbered. split.
  - intros [rest H].
    pose proof (takeWhile_dropWhile Str.isDigit line) as Hline.
    pose proof (takeWhile_all Str.isDigit line) as Hdigits.
    destruct (Str.takeWhile Str.isDigit line) as [|d digits] eqn:Et;
      [discriminate|].
    destruct (Str.dropWhile Str.isDigit line) as [|c after]; [discriminate|].
    unfold Str.eqc in H.
    destruct (Ascii.eqb_spec c "."%char) as [->|]; [|discriminate].
    injection H as <-.
    exists (String d digits), after. split; [exact Hline|].
    split; [discriminate | exact Hdigits].
  - intros (digits & rest & -> & Hne & Hall).
    change ("." ++ rest)%string with (String "."%char rest).
    rewrite (takeWhile_app Str.isDigit digits "."%char rest Hall eq_refl).
    rewrite (dropWhile_app Str.isDigit digits "."%char rest Hall eq_refl).
    destruct digits as [|d digits]; [destruct Hne; reflexivity|].
    exists rest. reflexivity.
Qed.

Lemma startsBullet_bulleted line : startsBullet line = true <-> bulleted line.
Proof.
  unfold startsBullet, bulleted. destruct line as [|c rest].
  - split; [discriminate | intros [r [H | H]]; discriminate H].
  - unfold isBullet, Str.eqc. rewrite orb_true_iff, !Ascii.eqb_eq. split.
    + intros [-> | ->]; exists rest; [left | right]; reflexivity.
    + intros [r [H | H]]; injection H as -> _; [left | right]; reflexivity.
Qed.

Lemma startsWith_quoted line :
  Str.startsWith line Text.dq = true <-> quoted line.
Proof. unfold quoted. apply startsWith_prefix. Qed.

Lemma promptLine_like line : promptLine line = true <-> promptLike line.
Proof.
  unfold promptLine, promptLike. cbv zeta.
  rewrite andb_true_iff, !orb_true_iff, Nat.ltb_lt.
  rewrite startsBullet_bulleted, startsWith_quoted,
    <- afterNumber_starts.
  assert (Hn : match afterNumber (Str.trim line) with
               | Some _ => true
               | None => false
               end = true
               <-> exists rest, afterNumber (Str.trim line) = Some rest).
  { destruct (afterNumber (Str.trim line)) as [rest|].
    - split; [intros _; exists rest; reflexivity | reflexivity].
    - split; [discriminate | intros [rest H]; discriminate H]. }
  rewrite Hn. tauto.
Qed.

Lemma picks_filter lines chosen :
  picks lines chosen <-> chosen = filter promptLine lines.
Proof.
  split.
  - induction 1 as [|line lines chosen Hline _ IH|line lines chosen Hline _ IH];
      cbn [filter].
    + reflexivity.
    + rewrite (proj2 (promptLine_like line) Hline), IH. reflexivity.
    + destruct (promptLine line) eqn:Hp; [|exact IH].
      apply promptLine_like in Hp. destruct (Hline Hp).
  - intros ->. induction lines as [|line lines IH]; cbn [filter].
    + constructor.
    + destruct (promptLine line) eqn:Hp.
      * apply picks_item; [apply promptLine_like; exact Hp | exact IH].
      * apply picks_other; [|exact IH].
        intros Hl. apply promptLine_like in Hl. rewrite Hl in Hp.
        discriminate Hp.
Qed.

Lemma fromLines_listed text chosen :
  listed text chosen ->
  fromLines text
  = if (10 <=? List.length chosen)%nat
    then Some (List.map (fun line => JStr (cleanLine line)) (firstn 10 chosen))
    else None.
Proof.
  intros (lines & Hlines & Hpicks). unfold fromLines.
  apply linesOf_split in Hlines. apply picks_filter in Hpicks.
  subst lines chosen. reflexivity.
Qed.

Lemma listed_exists text :
  listed text (filter promptLine (Str.split isNewline text)).
Proof.
  exists (Str.split isNewline text). split; [apply split_lines|].
  apply picks_filter. reflexivity.
Qed.

Lemma toTemplates_id prompts :
  forall index,
    List.map id (toTemplates index prompts)
    = List.map (fun i => "custom-" ++ Text.ofNat (i + 1))%string
               (seq index (List.length prompts)).
Proof.
  induction prompts as [|p rest IH]; intros index;
    cbn [toTemplates List.map List.length seq].
  - reflexivity.
  - rewrite IH. reflexivity.
Qed.

(** What [generateBusinessPrompts] comes to: one request, and the prompts
    read from the answer or the default ones. *)
Lemma generateBusinessPrompts_run E brandName brandSummary industry url t :
  generateBusinessPrompts E brandName brandSummary industry url t
  = (Return
       match generateContent E (List.length (geminiCalls t))
               (generationPrompt brandName industry brandSummary url) with
       | Throw _ | Return (Blocked _) =>
           List.map JStr (getDefaultPrompts brandName industry)
       | Return (Says raw) =>
           match fromJson E (Text.stripCodeFences raw) with
           | Some prompts => prompts
           | None =>
               match fromLines (Text.stripCodeFences raw) with
               | Some prompts => prompts
               | None => List.map JStr (getDefaultPrompts brandName industry)
               end
           end
       end,
     {| geminiCalls :=
          (geminiCalls t
           ++ [generationPrompt brandName industry brandSummary url])%list;
        openRouterCalls := openRouterCalls t;
        sleeps := sleeps t |}).
Proof.
  unfold generateBusinessPrompts, generate, tryCatch, bind, callGemini,
    awaitGemini, bind, lift.
  destruct (generateContent E _ _) as [[raw|e]|e]; try reflexivity.
  cbn [readText].
  destruct (fromJson E (Text.stripCodeFences raw)); [reflexivity|].
  destruct (fromLines (Text.stripCodeFences raw)); reflexivity.
Qed.

End GenerationFacts.

Section SelectionClaim.
Import Async Hoare AsyncFacts Visibility PromptGeneration SelectSpec SelectFacts.
Import RunSpec GenerationSpec GenerationFacts.

(** C9 (as the code has it).  Prompt selection returns from every state of
    the provider, never throws, and the set it returns is not empty.  For a
    premium caller with business information it asks the model once, for ten
    prompts, and returns exactly ten prompts, numbered [custom-1] to
    [custom-10] and all of category [custom].  They are the first ten elements
    of a JSON array of ten elements or more, when the answer holds one: only
    the length of the array is looked at.  Failing that, they are the first
    ten lines of the answer that read as items of a list, cleaned.  They are
    the ten default prompts, built from the brand name and the industry by
    string templating alone, when the provider throws and when the answer
    holds neither such an array nor ten such lines, and when its text
    cannot be read.  For any other caller nothing is asked and the three
    predefined templates are returned. *)
Theorem prompt_selection_never_fails
        (E : Env) (url : string) (options : Options) (brand topic : string)
        (t : Trace) :
  exists prompts t',
    selectPrompts E url options brand topic t = (Return prompts, t')
    /\ prompts <> []
    /\ match isPremium options, businessInfo options with
       | true, Some info =>
           let name := orDefault (brandName info) brand in
           let summary := orDefault (brandSummary info) "" in
           let field := orDefault (industry info) topic in
           let request := generationPrompt name field summary url in
           geminiCalls t' = (geminiCalls t ++ [request])%list
           /\ openRouterCalls t' = openRouterCalls t
           /\ sleeps t' = sleeps t
           /\ List.length prompts = 10%nat
           /\ List.map id prompts
              = List.map (fun i => "custom-" ++ Text.ofNat (i + 1))%string
                         (seq 0 10)
           /\ Forall (fun pt => category pt = "custom") prompts
           /\ match generateContent E (List.length (geminiCalls t)) request with
              | Throw _ | Return (Blocked _) =>
                  prompts = defaultTemplates name field
              | Return (Says raw) =>
                  let text := Text.stripCodeFences raw in
                  (forall items,
                      holdsArray E text items ->
                      List.map template prompts = firstn 10 items)
                  /\ (exists chosen, listed text chosen)
                  /\ (forall chosen,
                        (forall items, ~ holdsArray E text items) ->
                        listed text chosen ->
                        (10 <= List.length chosen)%nat ->
                        List.map template prompts
                        = List.map (fun line => JStr (cleanLine line))
                                   (firstn 10 chosen))
                  /\ (forall chosen,
                        (forall items, ~ holdsArray E text items) ->
                        listed text chosen ->
                        (List.length chosen < 10)%nat ->
                        prompts = defaultTemplates name field)
              end
       | _, _ => prompts = PROMPT_TEMPLATES /\ t' = t
       end.
Proof.
  unfold selectPrompts.
  destruct (isPremium options); [destruct (businessInfo options) as [info|]|].
  - cbn zeta.
    set (name := orDefault (brandName info) brand).
    set (summary := orDefault (brandSummary info) "").
    set (field := orDefault (industry info) topic).
    pose proof (generateBusinessPrompts_run E name summary field url t) as Hrun.
    destruct (generateBusinessPrompts_yields E name summary field url t)
      as (custom & t' & Eg & Hlen).
    rewrite Eg in Hrun. injection Hrun as Hcustom Ht.
    exists (toTemplates 0 custom), t'.
    assert (Hlen' : List.length (toTemplates 0 custom) = 10%nat)
      by (rewrite toTemplates_length; exact Hlen).
    split; [unfold tryCatch, bind; rewrite Eg; reflexivity|].
    split; [intros Hnil; rewrite Hnil in Hlen'; discriminate Hlen'|].
    split; [rewrite Ht; reflexivity|].
    split; [rewrite Ht; reflexivity|].
    split; [rewrite Ht; reflexivity|].
    split; [exact Hlen'|].
    split; [rewrite toTemplates_id, Hlen; reflexivity|].
    split; [apply toTemplates_custom|].
    destruct (generateContent E (List.length (geminiCalls t))
                (generationPrompt name field summary url)) as [[raw|e]|e];
      [|rewrite Hcustom; reflexivity|rewrite Hcustom; reflexivity].
    split; [|split; [|split]].
    + intros items Hitems.
      rewrite (fromJson_holds E _ items Hitems) in Hcustom.
      rewrite Hcustom. apply toTemplates_template.
    + eexists. apply listed_exists.
    + intros chosen Hno Hlisted Hten.
      rewrite (fromJson_none E _ Hno) in Hcustom.
      rewrite (fromLines_listed _ chosen Hlisted) in Hcustom.
      apply Nat.leb_le in Hten. rewrite Hten in Hcustom.
      rewrite Hcustom. apply toTemplates_template.
    + intros chosen Hno Hlisted Hfew.
      rewrite (fromJson_none E _ Hno) in Hcustom.
      rewrite (fromLines_listed _ chosen Hlisted) in Hcustom.
      apply Nat.leb_gt in Hfew. rewrite Hfew in Hcustom.
      rewrite Hcustom. reflexivity.
  - exists PROMPT_TEMPLATES, t. split; [reflexivity|].
    split; [discriminate | split; reflexivity].
  - exists PROMPT_TEMPLATES, t. split; [reflexivity|].
    split; [discriminate | split; reflexivity].
Qed.

(** The statement above for a premium caller whose model answers with a
    numbered list of ten questions and no JSON: the ten questions, without
    their numbers, are the prompts. *)
Lemma prompt_selection_witness :
  exists prompts t',
    selectPrompts listEnv "https://www.example.com" Examples.premium
                  "Example" "Example and similar services" emptyTrace
    = (Return prompts, t')
    /\ List.length (geminiCalls t') = 1%nat
    /\ List.length prompts = 10%nat
    /\ Forall (fun pt => category pt = "custom") prompts
    /\ List.map template prompts
       = List.map (fun line => JStr (cleanLine line)) listedQuestions
    /\ hd_error (List.map template prompts)
       = Some (JStr "What would an assistant say about product 1?").
Proof.
  destruct (prompt_selection_never_fails
              listEnv "https://www.example.com" Examples.premium
              "Example" "Example and similar services" emptyTrace)
    as (prompts & t' & Hsel & _ & Hcalls & _ & _ & Hlen & _ & Hcustom & Hwhat).
  cbn zeta in Hwhat. cbn [listEnv generateContent] in Hwhat.
  destruct Hwhat as (_ & _ & Hlines & _).
  assert (Hmap : List.map template prompts
                 = List.map (fun line => JStr (cleanLine line))
                            listedQuestions).
  { apply (Hlines listedQuestions).
    - intros items (found & _ & Hparse & _). discriminate Hparse.
    - exists listedQuestions. split.
      + split; [discriminate|]. split; [vm_compute; reflexivity|].
        repeat constructor; apply free_all; vm_compute; reflexivity.
      + apply picks_filter. vm_compute. reflexivity.
    - vm_compute. lia. }
  exists prompts, t'. split; [exact Hsel|].
  split; [rewrite Hcalls; reflexivity|].
  split; [exact Hlen|]. split; [exact Hcustom|].
  split; [exact Hmap|]. rewrite Hmap. vm_compute. reflexivity.
Defined.

(** C9 as the specification words it fails at a malformed answer.  A model
    that answers the request for prompts with an array of ten numbers gets no
    default prompt: the ten numbers are taken for the prompts, and in the run
    that follows every one of the ten prompts fails, with a score of 0 and the
    TypeError of the template that is not a string. *)
Lemma ten_numbers_are_taken_for_prompts :
  (forall n request,
      generateContent numbersEnv n request = Return (Says tenNumbersText))
  /\ JSON_parse numbersEnv tenNumbersText = Some (JArr tenNumbers)
  /\ (exists prompts t',
         selectPrompts numbersEnv "https://www.example.com" Examples.premium
                       "Example" "Example and similar services" emptyTrace
         = (Return prompts, t')
         /\ List.map template prompts = tenNumbers
         /\ prompts
            <> defaultTemplates "Example" "Example and similar services")
  /\ exists r t',
       analyzeLLMVisibility numbersEnv "https://www.example.com"
                            Examples.premium emptyTrace = (Return r, t')
       /\ List.length (details r) = 10%nat
       /\ Forall isFailure (details r)
       /\ List.map Detail.error (details r)
          = repeat (Some "promptTemplate.template.replace is not a function")
                   10.
Proof.
  split; [reflexivity|]. split; [reflexivity|]. split.
  - eexists _, _. split; [vm_compute; reflexivity|].
    split; [reflexivity | discriminate].
  - eexists _, _. split; [vm_compute; reflexivity|].
    split; [reflexivity|]. split; [|reflexivity].
    repeat constructor; discriminate.
Qed.

End SelectionClaim.

(** ** The totals of a report *)

Module TotalsFacts.
Import Visibility Analyzer.

Lemma Math_round_monotone x y : (x <= y)%Q -> Math_round x <= Math_round y.
Proof.
  intros H. unfold Math_round. apply Qfloor_resp_le.
  apply Qplus_le_compat; [exact H | apply Qle_refl].
Qed.

(** The ratio of a total between 0 and the maximum, times one hundred,
    lies between 0 and 100. *)
Lemma ratio_bounds total maxS :
  0 < maxS -> 0 <= total <= maxS ->
  (0 <= inject_Z total / inject_Z maxS * 100
   /\ inject_Z total / inject_Z maxS * 100 <= 100)%Q.
Proof.
  intros Hpos [Hlo Hhi].
  assert (Hm : (0 < inject_Z maxS)%Q).
  { change 0%Q with (inject_Z 0). rewrite <- Zlt_Qlt. exact Hpos. }
  assert (H0 : (0 <= inject_Z total / inject_Z maxS)%Q).
  { apply Qle_shift_div_l; [exact Hm|].
    rewrite Qmult_0_l. change 0%Q with (inject_Z 0).
    rewrite <- Zle_Qle. exact Hlo. }
  assert (H1 : (inject_Z total / inject_Z maxS <= 1)%Q).
  { apply Qle_shift_div_r; [exact Hm|].
    rewrite Qmult_1_l. rewrite <- Zle_Qle. exact Hhi. }
  split.
  - apply Qmult_le_0_compat; [exact H0 | discriminate].
  - setoid_replace (100 : Q) with (1 * 100)%Q at 2 by reflexivity.
    apply Qmult_le_compat_r; [exact H1 | discriminate].
Qed.

Lemma percentageOf_bounds total maxS :
  0 < maxS -> 0 <= total <= maxS ->
  exists p,
    percentageOf total maxS = Num p
    /\ p = Math_round (inject_Z total / inject_Z maxS * 100)
    /\ 0 <= p <= 100.
Proof.
  intros Hpos Hrange.
  destruct (ratio_bounds total maxS Hpos Hrange) as [Hlo Hhi].
  eexists. unfold percentageOf.
  destruct (maxS =? 0) eqn:E; [apply Z.eqb_eq in E; lia|].
  split; [reflexivity|]. split; [reflexivity|]. split.
  - change 0 with (Math_round 0). apply Math_round_monotone. exact Hlo.
  - change 100 with (Math_round 100). apply Math_round_monotone. exact Hhi.
Qed.

(** For the two sizes of prompt set a run can have, three and ten, the
    percentage computed in doubles is the one computed on exact ratios:
    modelling the division on rationals loses nothing. *)
Lemma doubles_agree :
  forallb (Doubles.agrees 9) (Doubles.upTo 9) = true
  /\ forallb (Doubles.agrees 30) (Doubles.upTo 30) = true.
Proof. split; vm_compute; reflexivity. Qed.

End TotalsFacts.

Section TotalsClaim.
Import Hoare Visibility Analyzer RunSpec RunFacts TotalsFacts.

(** C5.  Every run returns a report over a non-empty prompt set in which
    [totalScore] is the sum of the integer scores of the entries, [maxScore]
    is three times the number of prompts, and [percentage] is
    [totalScore / maxScore * 100] rounded to the nearest integer; the total
    lies between 0 and [maxScore], and so the percentage lies between 0 and
    100.  The bound holds for any total between 0 and a positive maximum. *)
Theorem report_totals (E : Env) (url : string) (options : Options) (t : Trace) :
  (exists r t',
      analyzeLLMVisibility E url options t = (Return r, t')
      /\ details r <> []
      /\ totalScore r = sumScores (details r)
      /\ maxScore r = Z.of_nat (List.length (details r)) * 3
      /\ 0 <= totalScore r <= maxScore r
      /\ exists p,
           percentage r = Num p
           /\ p = Math_round (inject_Z (totalScore r) / inject_Z (maxScore r)
                              * 100)
           /\ 0 <= p <= 100)
  /\ (forall total maxS,
         0 < maxS -> 0 <= total <= maxS ->
         exists p,
           percentageOf total maxS = Num p
           /\ p = Math_round (inject_Z total / inject_Z maxS * 100)
           /\ 0 <= p <= 100).
Proof.
  split; [|exact percentageOf_bounds].
  destruct (analyzeLLMVisibility_yields E url options t)
    as (r & t' & Er & Hne & Htot & Hmax & Hpct & Hall).
  exists r, t'. split; [exact Er|]. split; [exact Hne|].
  split; [exact Htot|]. split; [exact Hmax|].
  pose proof (sumScores_range _ Hall) as Hrange.
  assert (Hpos : 0 < maxScore r).
  { rewrite Hmax. destruct (details r); [contradiction|].
    cbn [List.length]. lia. }
  assert (Hin : 0 <= totalScore r <= maxScore r) by (rewrite Htot, Hmax; lia).
  split; [exact Hin|].
  rewrite Hpct. apply percentageOf_bounds; assumption.
Qed.

(** The statement above at the scenario of two prompts that score 2 and
    one that scores 3: 7 out of 9 is 78 percent. *)
Lemma report_totals_witness :
  exists p,
    percentageOf 7 9 = Num p
    /\ p = Math_round (inject_Z 7 / inject_Z 9 * 100)
    /\ 0 <= p <= 100.
Proof.
  apply (proj2 (report_totals Examples.flaky "https://www.example.com"
                              defaultOptions emptyTrace) 7 9); lia.
Defined.

End TotalsClaim.

(** ** The retry loop of the single model *)

Module RetryFacts.
Import Async Visibility TraceSpec.


Lemma called_length k prompt t :
  List.length (geminiCalls (called k prompt t))
  = (List.length (geminiCalls t) + k)%nat.
Proof. cbn. rewrite length_app, repeat_length. reflexivity. Qed.

Section WithEnv.
Variable E : Env.









(** In a run that is not premium, an error thrown by the retry loop becomes
    the error of the entry of the prompt. *)
Lemma processPrompt_provider_error domain brand topic acc pt prompt m t t' :
  fillTemplate (template pt) domain brand topic = Return prompt ->
  generateWithRetry E (Text.fullPrompt domain prompt) t = (Throw m, t') ->
  processPrompt E false domain brand topic acc pt t
  = (Return (pushFailed acc pt m), t').
Proof.
  intros Hfill Hretry.
  unfold processPrompt, obtain, tryCatch, bind, lift, ret.
  rewrite Hfill. unfold singleModel, bind. rewrite Hretry. reflexivity.
Qed.


End WithEnv.

End RetryFacts.

Section RetryClaim.
Import Async Visibility TraceSpec RetryFacts Examples.



End RetryClaim.

(** ** Runs in which the providers fail *)

Module FailureFacts.
Import Async Hoare AsyncFacts Visibility RunSpec TraceSpec FailureSpec.
Import RetryFacts.

Section WithEnv.
Variable E : Env.

Lemma awaitGemini_down prompt t :
  geminiDown E -> exists m t', awaitGemini E prompt t = (Throw m, t').
Proof.
  intros Hdown. unfold awaitGemini.
  destruct (Hdown (List.length (geminiCalls t)) prompt) as [m Hm].
  rewrite Hm. eauto.
Qed.

Lemma callGemini_down prompt t :
  geminiDown E -> exists m t', callGemini E prompt t = (Throw m, t').
Proof.
  intros Hdown. unfold callGemini, bind.
  destruct (awaitGemini_down prompt t Hdown) as (m & t' & Hm).
  rewrite Hm. eauto.
Qed.

Lemma retry_down fullPrompt :
  geminiDown E ->
  forall left attempt lastError t,
    exists m t', retry E left attempt lastError fullPrompt t = (Throw m, t').
Proof.
  intros Hdown. induction left as [|left IH]; intros attempt lastError t.
  - cbn [retry]. unfold throw. eauto.
  - cbn [retry]. unfold tryCatch.
    destruct (awaitGemini_down fullPrompt t Hdown) as (m & t1 & Hc).
    rewrite Hc.
    destruct (is503Error m && (attempt <? maxRetries - 1)%nat).
    + unfold bind, sleep. apply IH.
    + unfold throw. eauto.
Qed.

(** With the model down, every prompt of a run that is not premium is
    recorded as a failure. *)
Lemma processPrompt_down domain brand topic acc pt t :
  geminiDown E ->
  exists m t',
    processPrompt E false domain brand topic acc pt t
    = (Return (pushFailed acc pt m), t').
Proof.
  intros Hdown. unfold processPrompt, obtain, tryCatch, bind, lift, ret.
  destruct (fillTemplate (template pt) domain brand topic) as [prompt|e].
  - unfold singleModel, bind.
    destruct (retry_down (Text.fullPrompt domain prompt) Hdown
                         maxRetries 0 None t) as (m & t' & Hr).
    unfold generateWithRetry, bind. rewrite Hr. eauto.
  - eauto.
Qed.

Lemma dispatch_down domain brand topic prompts :
  geminiDown E ->
  forall acc t,
    exists acc' t' ds,
      dispatch E false domain brand topic prompts acc t = (Return acc', t')
      /\ results acc' = (results acc ++ ds)%list
      /\ accScore acc' = accScore acc
      /\ List.length ds = List.length prompts
      /\ Forall isFailure ds.
Proof.
  intros Hdown. induction prompts as [|pt rest IH]; intros acc t.
  - exists acc, t, []. cbn. rewrite app_nil_r. repeat split. constructor.
  - cbn [dispatch]. unfold bind.
    destruct (processPrompt_down domain brand topic acc pt t Hdown)
      as (m & t1 & Hp).
    rewrite Hp.
    destruct (IH (pushFailed acc pt m) t1) as (acc' & t' & ds & Hd & Hr & Hs & Hl & Hf).
    exists acc', t', (failed pt m :: ds). split; [exact Hd|].
    split; [rewrite Hr; cbn; rewrite <- app_assoc; reflexivity|].
    split; [rewrite Hs; reflexivity|].
    split; [cbn; rewrite Hl; reflexivity|].
    constructor; [|exact Hf].
    split; [reflexivity | discriminate].
Qed.

Lemma settle_thrown provider (branch : M JSON) t m t' :
  branch t = (Throw m, t') ->
  MultiLLM.settle provider branch t = (Return (JNull, [(provider, m)]), t').
Proof.
  intros Hb. unfold MultiLLM.settle, tryCatch, bind. rewrite Hb. reflexivity.
Qed.

Lemma analyzeWithGemini_down prompt domain t :
  geminiDown E ->
  exists m t', MultiLLM.analyzeWithGemini E prompt domain t = (Throw m, t').
Proof.
  intros Hdown. unfold MultiLLM.analyzeWithGemini, tryCatch, bind.
  destruct (callGemini_down (Text.fullPrompt domain prompt) t Hdown)
    as (m & t' & Hc).
  rewrite Hc. unfold throw. eauto.
Qed.

(** A branch to OpenRouter whose request fails, or which has no key, comes
    back [null]. *)
Lemma openRouter_branch_down provider prompt domain model t :
  openRouterDown E -> String.eqb model "" = false ->
  exists errs t',
    MultiLLM.settle provider
      (MultiLLM.analyzeWithOpenRouter E prompt domain (Some model)) t
    = (Return (JNull, errs), t').
Proof.
  intros Hdown Hmodel.
  unfold MultiLLM.settle, MultiLLM.analyzeWithOpenRouter.
  destruct (OPENROUTER_API_KEY E); cbn [negb].
  - rewrite Hmodel. cbn [MultiLLM.tryModels].
    unfold tryCatch, bind, postOpenRouter.
    destruct (Hdown (List.length (openRouterCalls t)) model
                    ("Question about " ++ domain ++ ": " ++ prompt))
      as [m Hm].
    rewrite Hm. unfold throw, ret. eauto.
  - unfold tryCatch, bind, ret. eauto.
Qed.

(** With every provider down, the fan-out still returns: three nulls. *)
Lemma analyzeWithMultipleLLMs_down prompt domain t :
  geminiDown E -> openRouterDown E ->
  exists r t',
    MultiLLM.analyzeWithMultipleLLMs E prompt domain t = (Return r, t')
    /\ allNull r.
Proof.
  intros Hg Ho. unfold MultiLLM.analyzeWithMultipleLLMs.
  destruct (analyzeWithGemini_down prompt domain t Hg) as (m & t1 & H1).
  unfold bind at 1. rewrite (settle_thrown "gemini" _ t m t1 H1).
  destruct (openRouter_branch_down "openrouter1" prompt domain
              "openrouter/sherlock-dash-alpha" t1 Ho eq_refl)
    as (e1 & t2 & H2).
  unfold bind at 1. rewrite H2.
  destruct (openRouter_branch_down "openrouter2" prompt domain
              "mistralai/mistral-7b-instruct:free" t2 Ho eq_refl)
    as (e2 & t3 & H3).
  unfold bind at 1. rewrite H3.
  unfold ret. eexists _, _. split; [reflexivity|].
  repeat split.
Qed.

(** Three nulls aggregate to the empty object, with no citation. *)
Lemma aggregate_allNull prompt r :
  allNull r -> aggregate E prompt r = Return (emptyAnswer E prompt).
Proof.
  intros (Hg & H1 & H2). unfold aggregate. rewrite Hg, H1, H2. reflexivity.
Qed.

Lemma multiModel_down prompt domain t :
  geminiDown E -> openRouterDown E ->
  exists t', multiModel E prompt domain t
             = (Return (Some (emptyAnswer E prompt)), t').
Proof.
  intros Hg Ho. unfold multiModel, tryCatch, bind, lift.
  destruct (analyzeWithMultipleLLMs_down prompt domain t Hg Ho)
    as (r & t1 & Hm & Hnull).
  rewrite Hm, (aggregate_allNull prompt r Hnull). unfold ret. eauto.
Qed.

Lemma obtain_premium_down pt domain brand topic prompt t :
  geminiDown E -> openRouterDown E ->
  fillTemplate (template pt) domain brand topic = Return prompt ->
  exists t', obtain E true pt domain brand topic t
             = (Return (prompt, emptyAnswer E prompt), t').
Proof.
  intros Hg Ho Hfill. unfold obtain, bind, lift. rewrite Hfill.
  destruct (multiModel_down prompt domain t Hg Ho) as (t1 & Hm).
  rewrite Hm. unfold ret. eauto.
Qed.

Lemma getRecommendations_down domain brand promptId t :
  geminiDown E ->
  exists t', getRecommendations E domain brand promptId t = (Return (JArr []), t').
Proof.
  intros Hdown. unfold getRecommendations, tryCatch, bind.
  destruct (callGemini_down (recommendationPrompt domain brand) t Hdown)
    as (m & t' & Hc).
  rewrite Hc. unfold ret. eauto.
Qed.

(** The entry of the empty answer: nothing mentioned, nothing cited, no
    error. *)
Lemma record_emptyAnswer acc pt domain brand prompt t :
  geminiDown E ->
  exists acc' t' d,
    record E true acc pt domain brand prompt (emptyAnswer E prompt) t
    = (Return acc', t')
    /\ results acc' = (results acc ++ [d])%list
    /\ Detail.promptId d = id pt
    /\ Detail.score d = 0
    /\ Detail.error d = None
    /\ Detail.multiLLMResults d = Some [].
Proof.
  intros Hg. unfold record, bind, lift.
  change (Analyzer.analyzeResponse (ar_response (emptyAnswer E prompt)) domain
            (ar_parsedResponse (emptyAnswer E prompt)))
    with (Return (Analyzer.finish (JSON_stringify E (JObj []))
                    (Analyzer.normalizeDomain domain) [] false)).
  cbn [citations mentioned Analyzer.finish Analyzer.rawScore].
  unfold tryCatch.
  destruct (getRecommendations_down domain brand (id pt) t Hg) as (t2 & Hr).
  rewrite Hr. unfold sleep, ret.
  eexists _, _, _. split; [reflexivity|]. cbn. repeat split.
Qed.

(** With every provider down, a prompt of a premium run is recorded with a
    score of 0 and without an error. *)
Lemma processPrompt_premium_down domain brand topic acc pt prompt t :
  geminiDown E -> openRouterDown E ->
  fillTemplate (template pt) domain brand topic = Return prompt ->
  exists acc' t' d,
    processPrompt E true domain brand topic acc pt t = (Return acc', t')
    /\ results acc' = (results acc ++ [d])%list
    /\ Detail.promptId d = id pt
    /\ Detail.score d = 0
    /\ Detail.error d = None
    /\ Detail.multiLLMResults d = Some [].
Proof.
  intros Hg Ho Hfill. unfold processPrompt, tryCatch, bind.
  destruct (obtain_premium_down pt domain brand topic prompt t Hg Ho Hfill)
    as (t1 & Hobt).
  rewrite Hobt. cbn [fst snd].
  destruct (record_emptyAnswer
              {| results := results acc; accScore := accScore acc;
                 accTokens := accTokens acc
                              + ar_tokensUsed (emptyAnswer E prompt) |}
              pt domain brand prompt t1 Hg)
    as (acc' & t' & d & Hrec & Hres & Hid & Hscore & Herr & Hmulti).
  rewrite Hrec. exists acc', t', d. repeat split; assumption.
Qed.

End WithEnv.

End FailureFacts.

Section FailureClaim.
Import Async Hoare Visibility RunSpec TraceSpec FailureSpec Examples.
Import RunFacts RetryFacts FailureFacts.

(** What the single-provider path does with the errors of the provider.  A
    run never throws: it returns a report with one entry for each prompt used,
    each with a score of 0, 2 or 3, and of 0 when it carries an error.  A
    prompt whose model call fails (after the retries) is recorded with a score
    of 0 and the message of the error, and the loop goes on with the remaining
    prompts; when every call fails, the report has three entries, each with a
    score of 0 and an error, a total of 0 out of 9 and a percentage of 0. *)
Lemma single_provider_errors_are_recorded
      (E : Env) (url : string) (options : Options) (t : Trace) :
  (exists r t',
      analyzeLLMVisibility E url options t = (Return r, t')
      /\ details r <> []
      /\ Z.of_nat (List.length (details r)) = promptsUsed (metadata r)
      /\ Forall wellScored (details r))
  /\ (forall domain brand topic acc pt rest prompt m t0 t1,
         fillTemplate (template pt) domain brand topic = Return prompt ->
         generateWithRetry E (Text.fullPrompt domain prompt) t0 = (Throw m, t1) ->
         dispatch E false domain brand topic (pt :: rest) acc t0
         = dispatch E false domain brand topic rest (pushFailed acc pt m) t1
         /\ Detail.score (failed pt m) = 0
         /\ Detail.error (failed pt m) = Some m)
  /\ (isPremium options = false -> geminiDown E ->
      exists r t',
        analyzeLLMVisibility E url options t = (Return r, t')
        /\ totalScore r = 0
        /\ maxScore r = 9
        /\ percentage r = Num 0
        /\ List.length (details r) = 3%nat
        /\ Forall isFailure (details r)).
Proof.
  split; [|split].
  - unfold analyzeLLMVisibility.
    destruct (SelectFacts.selectPrompts_yields E url options
                (extractBrand (extractDomain E url))
                (guessTopic (extractBrand (extractDomain E url))) t)
      as (prompts & t1 & Es & Hne).
    destruct (dispatch_yields E (isPremium options) (extractDomain E url)
                (extractBrand (extractDomain E url))
                (guessTopic (extractBrand (extractDomain E url)))
                prompts emptyAcc t1)
      as (acc & t2 & Ed & ds & H1 & H2 & _ & H4).
    unfold bind. rewrite Es, Ed. unfold ret.
    eexists _, _. split; [reflexivity|].
    cbn [report details metadata promptsUsed].
    cbn [emptyAcc results app] in H1. rewrite H1.
    assert (Hlen : List.length ds = List.length prompts).
    { rewrite <- (length_map Detail.promptId ds), H2. apply length_map. }
    split; [|split; [rewrite Hlen; reflexivity | exact H4]].
    intros Hnil. rewrite Hnil in Hlen. destruct prompts; [auto | discriminate].
  - intros domain brand topic acc pt rest prompt m t0 t1 Hfill Hretry.
    split; [|split; reflexivity].
    cbn [dispatch]. unfold bind at 1.
    rewrite (processPrompt_provider_error E domain brand topic acc pt prompt
               m t0 t1 Hfill Hretry).
    reflexivity.
  - intros Hfree Hdown.
    unfold analyzeLLMVisibility, selectPrompts. rewrite Hfree.
    unfold bind at 1. unfold ret at 1.
    destruct (dispatch_down E (extractDomain E url)
                (extractBrand (extractDomain E url))
                (guessTopic (extractBrand (extractDomain E url)))
                PROMPT_TEMPLATES Hdown emptyAcc t)
      as (acc' & t' & ds & Hd & Hr & Hs & Hl & Hf).
    unfold bind. rewrite Hd. unfold ret.
    eexists _, _. split; [reflexivity|].
    cbn [report totalScore maxScore percentage details].
    rewrite Hs, Hr. cbn [emptyAcc results accScore app].
    repeat split; [exact Hl | exact Hf].
Qed.

(** What the multi-provider path does with them.  The errors of the
    branches stay in the branches: when every provider fails, the fan-out
    returns three nulls, and the prompt is recorded with a score of 0 and no
    error. *)
Lemma premium_errors_are_dropped
      (E : Env) domain brand topic acc pt prompt t0 :
  geminiDown E -> openRouterDown E ->
  fillTemplate (template pt) domain brand topic = Return prompt ->
  (exists fan t1,
      MultiLLM.analyzeWithMultipleLLMs E prompt domain t0 = (Return fan, t1)
      /\ allNull fan)
  /\ exists acc' t' d,
       processPrompt E true domain brand topic acc pt t0 = (Return acc', t')
       /\ results acc' = (results acc ++ [d])%list
       /\ Detail.score d = 0
       /\ Detail.error d = None.
Proof.
  intros Hg Ho Hfill. split.
  - apply analyzeWithMultipleLLMs_down; assumption.
  - destruct (processPrompt_premium_down E domain brand topic acc pt prompt
                t0 Hg Ho Hfill)
      as (acc' & t' & d & H1 & H2 & _ & H4 & H5 & _).
    exists acc', t', d. auto.
Qed.

(** C3, evaluated where the code departs from it: a premium run at
    providers that all answer 429.  Every call made for the ten prompts
    fails.  The fan-out collects the three errors of a prompt in its [errors]
    and returns three nulls; the orchestrator does not read them, takes the
    empty object for the answer, and records the prompt with a score of 0 and
    no error: no entry of the report tells that a provider failed.  At the
    same providers the single-provider path records each of its three prompts
    with a score of 0 and the message of the error, as the specification
    says. *)
Theorem premium_failures_carry_no_error :
  geminiDown rateLimitedEnv
  /\ openRouterDown rateLimitedEnv
  /\ (exists r t',
         analyzeLLMVisibility rateLimitedEnv "https://www.example.com"
                              defaultOptions emptyTrace = (Return r, t')
         /\ List.length (details r) = 3%nat
         /\ Forall isFailure (details r)
         /\ List.map Detail.error (details r)
            = repeat (Some "[429 Too Many Requests] quota exceeded") 3)
  /\ (exists fan t',
         MultiLLM.analyzeWithMultipleLLMs rateLimitedEnv question
           "example.com" emptyTrace = (Return fan, t')
         /\ allNull fan
         /\ List.map fst (errors fan)
            = ["gemini"; "openrouter1"; "openrouter2"])
  /\ exists r t',
       analyzeLLMVisibility rateLimitedEnv "https://www.example.com"
                            premium emptyTrace = (Return r, t')
       /\ List.length (details r) = 10%nat
       /\ Forall (fun d => Detail.score d = 0 /\ Detail.error d = None)
                 (details r)
       /\ ~ Exists isFailure (details r).
Proof.
  split; [intros n p; eexists; reflexivity|].
  split; [intros n m c; eexists; reflexivity|].
  split; [|split].
  - eexists _, _. split; [vm_compute; reflexivity|].
    split; [reflexivity|]. split; [|reflexivity].
    repeat constructor; discriminate.
  - eexists _, _. split; [vm_compute; reflexivity|].
    split; [repeat split | reflexivity].
  - eexists _, _. split; [vm_compute; reflexivity|].
    assert (Hall : Forall (fun d => Detail.score d = 0
                                    /\ Detail.error d = None)
                     (details (match fst (analyzeLLMVisibility rateLimitedEnv
                                            "https://www.example.com"
                                            premium emptyTrace) with
                               | Return r => r
                               | Throw _ => report false [] emptyAcc
                               end))).
    { vm_compute. repeat constructor. }
    vm_compute in Hall.
    split; [reflexivity|]. split; [exact Hall|].
    intros Hex. apply Exists_exists in Hex.
    destruct Hex as (d & Hin & _ & Herr).
    rewrite Forall_forall in Hall. destruct (Hall d Hin) as [_ Hnone].
    contradiction.
Qed.

End FailureClaim.

Section AggregationClaim.
Import Async Visibility Examples Disagreement.

(** C2, evaluated where it fails.  The primary model (Gemini) cites nothing
    and the two OpenRouter models cite [https://example.com/pricing].  The
    aggregation step computes the de-duplicated union, one citation, and keeps
    the primary answer as [parsedResponse]; the entry the loop pushes is built
    from a second call of [analyzeResponse] on the primary answer alone, so
    its citations are empty, its score is 0 and the union is never read: the
    entry is the same whatever the aggregated [citations] and [mentioned]
    are. *)
Theorem aggregated_citations_are_dropped :
  fst (MultiLLM.analyzeWithMultipleLLMs env question "example.com" emptyTrace)
  = Return fanOut
  /\ (exists analysisResult,
         aggregate env question fanOut = Return analysisResult
         /\ ar_parsedResponse analysisResult = geminiAnswer
         /\ ar_citations analysisResult = [JStr "https://example.com/pricing"])
  /\ List.length (details run) = 10%nat
  /\ Forall (fun d => Detail.citations d = []
                      /\ Detail.score d = 0
                      /\ Detail.domainMentioned d = false
                      /\ Detail.parsedResponse d = Some geminiAnswer
                      /\ Detail.error d = None)
            (details run)
  /\ (forall E premium acc pt domain brand prompt analysisResult
             aggregated flag,
         record E premium acc pt domain brand prompt analysisResult
         = record E premium acc pt domain brand prompt
             {| ar_response := ar_response analysisResult;
                ar_parsedResponse := ar_parsedResponse analysisResult;
                ar_citations := aggregated;
                ar_mentioned := flag;
                ar_llmResults := ar_llmResults analysisResult;
                ar_tokensUsed := ar_tokensUsed analysisResult |}).
Proof.
  split; [vm_compute; reflexivity|].
  split; [eexists; split; [vm_compute; reflexivity | split; reflexivity]|].
  split; [vm_compute; reflexivity|].
  split; [vm_compute; repeat constructor|].
  intros. reflexivity.
Qed.

End AggregationClaim.

(** ** The health check *)

Module HealthFacts.
Import Health HealthSpec.

Lemma targets_pure {A} (a : A) names : targets (pure a) names.
Proof. intros w. exists []. cbn. rewrite app_nil_r. split; constructor. Qed.

Lemma targets_andThen {A B} (m : H A) (k : A -> H B) names :
  targets m names -> (forall a, targets (k a) names) ->
  targets (andThen m k) names.
Proof.
  intros Hm Hk w. unfold andThen.
  destruct (Hm w) as (s1 & E1 & F1).
  destruct (m w) as [a w1]. cbn [snd] in E1.
  destruct (Hk a w1) as (s2 & E2 & F2).
  exists (s1 ++ s2)%list. split.
  - rewrite E2, E1, app_assoc. reflexivity.
  - apply Forall_app. split; assumption.
Qed.

Lemma targets_request N r names :
  In (toModel r) names -> targets (request N r) names.
Proof.
  intros Hin w. exists [r]. split; [reflexivity|].
  constructor; [exact Hin | constructor].
Qed.

Lemma targets_wait ms names : targets (wait ms) names.
Proof. intros w. exists []. cbn. rewrite app_nil_r. split; constructor. Qed.

Lemma targets_weaken {A} (m : H A) names names' :
  targets m names -> incl names names' -> targets m names'.
Proof.
  intros Hm Hincl w. destruct (Hm w) as (s & E & F).
  exists s. split; [exact E|].
  eapply Forall_impl; [|exact F]. intros rq Hrq. apply Hincl. exact Hrq.
Qed.

Lemma testGeminiModel_targets N modelName :
  targets (testGeminiModel N modelName) [modelName].
Proof.
  unfold testGeminiModel.
  destruct (GEMINI_API_KEY N); cbn [negb]; [|apply targets_pure].
  apply targets_andThen.
  - apply targets_request. left. reflexivity.
  - intros [text elapsed|err elapsed]; apply targets_pure.
Qed.

Lemma testOpenRouterModel_targets N modelName :
  targets (testOpenRouterModel N modelName) [modelName].
Proof.
  unfold testOpenRouterModel.
  destruct (OPENROUTER_KEY N); cbn [negb]; [|apply targets_pure].
  apply targets_andThen.
  - apply targets_request. left. reflexivity.
  - intros [text elapsed|err elapsed]; apply targets_pure.
Qed.

Lemma attempts_targets N modelName url isLast :
  forall left attempt lastError spent,
    targets (attempts N modelName url isLast left attempt lastError spent)
            [modelName].
Proof.
  induction left as [|left IH]; intros attempt lastError spent;
    cbn [attempts]; [apply targets_pure|].
  apply targets_andThen.
  - apply targets_request. left. reflexivity.
  - intros [text elapsed|err elapsed]; [apply targets_pure|].
    destruct (hasStatus err 503 && (attempt <? hfMaxRetries)%nat).
    + apply targets_andThen; [apply targets_wait|]. intros _. apply IH.
    + repeat match goal with
             | |- context [if ?b then _ else _] => destruct b
             end; apply targets_pure.
Qed.

Lemma overEndpoints_targets N modelName urls :
  forall lastError spent,
    targets (overEndpoints N modelName urls lastError spent) [modelName].
Proof.
  induction urls as [|url rest IH]; intros lastError spent;
    cbn [overEndpoints]; [apply targets_pure|].
  apply targets_andThen; [apply attempts_targets|].
  intros [[text|lastError'|err] spent']; cbn [fst snd];
    [apply targets_pure | apply IH | apply targets_pure].
Qed.

Lemma testHuggingFaceModel_targets N modelName :
  targets (testHuggingFaceModel N modelName) [modelName].
Proof.
  unfold testHuggingFaceModel.
  destruct (HUGGINGFACE_API_KEY N); cbn [negb]; [|apply targets_pure].
  apply targets_andThen; [apply overEndpoints_targets|].
  intros [[text|lastError|err] spent]; apply targets_pure.
Qed.

(** A statement with the guard sends nothing for a deprecated model. *)
Lemma guarded_targets test key config results names :
  (forall modelName, targets (test modelName) [modelName]) ->
  (Config.deprecated config = false -> In (Config.name config) names) ->
  targets (guarded test key config results) names.
Proof.
  intros Htest Hname. unfold guarded.
  destruct (Config.deprecated config); cbn [negb]; [apply targets_pure|].
  apply targets_andThen; [|intros r; apply targets_pure].
  eapply targets_weaken; [apply Htest|].
  intros n [<-|[]]. apply Hname. reflexivity.
Qed.

Lemma always_targets test key config results names :
  (forall modelName, targets (test modelName) [modelName]) ->
  In (Config.name config) names ->
  targets (always test key config results) names.
Proof.
  intros Htest Hname. unfold always.
  apply targets_andThen; [|intros r; apply targets_pure].
  eapply targets_weaken; [apply Htest|].
  intros n [<-|[]]. exact Hname.
Qed.

Lemma steps_targets ss names :
  Forall (fun s => forall results, targets (s results) names) ss ->
  forall results, targets (steps ss results) names.
Proof.
  induction 1 as [|s ss Hs _ IH]; intros results; cbn [steps].
  - apply targets_pure.
  - apply targets_andThen; [apply Hs | exact IH].
Qed.

Ltac step_targets :=
  intros ?;
  first
    [ apply targets_pure
    | apply always_targets;
      [ first [ exact (testGeminiModel_targets _)
              | exact (testHuggingFaceModel_targets _)
              | exact (testOpenRouterModel_targets _) ]
      | cbn; tauto ]
    | apply guarded_targets;
      [ first [ exact (testGeminiModel_targets _)
              | exact (testHuggingFaceModel_targets _)
              | exact (testOpenRouterModel_targets _) ]
      | cbn; intros; first [ discriminate | tauto ] ] ].

(** Every request of [checkAllModels] goes to one of the seven models that
    are not deprecated. *)
Lemma checkAllModels_targets N : targets (checkAllModels N) probed.
Proof.
  unfold checkAllModels. apply targets_andThen.
  - apply steps_targets.
    unfold geminiBlock, huggingFaceBlock, openRouterBlock.
    destruct (GEMINI_API_KEY N), (HUGGINGFACE_API_KEY N), (OPENROUTER_KEY N);
      cbn [app]; repeat (constructor; [step_targets|]); constructor.
  - intros results w. exists []. cbn. rewrite app_nil_r. split; constructor.
Qed.

Lemma assoc_setKey_same key value results :
  Js.assoc key (setKey key value results) = Some value.
Proof.
  induction results as [|[k v] rest IH]; cbn [setKey Js.assoc].
  - rewrite String.eqb_refl. reflexivity.
  - destruct (String.eqb k key) eqn:Ek; cbn [Js.assoc].
    + rewrite String.eqb_sym, Ek. reflexivity.
    + rewrite String.eqb_sym, Ek. exact IH.
Qed.

Lemma assoc_setKey_other key key' value results :
  String.eqb key key' = false ->
  Js.assoc key (setKey key' value results) = Js.assoc key results.
Proof.
  intros Hne. induction results as [|[k v] rest IH]; cbn [setKey Js.assoc].
  - rewrite Hne. reflexivity.
  - destruct (String.eqb k key') eqn:Ek; cbn [Js.assoc].
    + apply String.eqb_eq in Ek. subst k. rewrite Hne. reflexivity.
    + destruct (String.eqb key k); [reflexivity | exact IH].
Qed.

Lemma always_keeps test key' config key :
  String.eqb key key' = false -> keeps (always test key' config) key.
Proof.
  intros Hne results w. unfold always, andThen, pure.
  destruct (test (Config.name config) w) as [r w']. cbn [fst].
  apply assoc_setKey_other. exact Hne.
Qed.

Lemma guarded_keeps test key' config key :
  String.eqb key key' = false -> keeps (guarded test key' config) key.
Proof.
  intros Hne results w. unfold guarded.
  destruct (Config.deprecated config); cbn [negb].
  - cbn. apply assoc_setKey_other. exact Hne.
  - unfold andThen, pure.
    destruct (test (Config.name config) w) as [r w']. cbn [fst].
    apply assoc_setKey_other. exact Hne.
Qed.

Lemma without_keeps key' key :
  String.eqb key key' = false -> keeps (without key') key.
Proof. intros Hne results w. cbn. apply assoc_setKey_other. exact Hne. Qed.

Lemma without_marks key : marks (without key) key.
Proof.
  intros results w. exists notConfigured. cbn.
  split; [apply assoc_setKey_same | reflexivity].
Qed.

Lemma guarded_marks test key config :
  Config.deprecated config = true -> marks (guarded test key config) key.
Proof.
  intros Hdep results w. unfold guarded. rewrite Hdep. cbn.
  exists modelDeprecated. split; [apply assoc_setKey_same | reflexivity].
Qed.

Lemma steps_keeps ss key : Forall (fun s => keeps s key) ss -> keeps (steps ss) key.
Proof.
  induction 1 as [|s ss Hs _ IH]; intros results w; cbn [steps].
  - reflexivity.
  - unfold andThen. specialize (Hs results w).
    destruct (s results w) as [r1 w1]. cbn [fst] in Hs.
    rewrite IH. exact Hs.
Qed.

Lemma steps_marks_here s ss key :
  marks s key -> Forall (fun s' => keeps s' key) ss -> marks (steps (s :: ss)) key.
Proof.
  intros Hs Hss results w. cbn [steps]. unfold andThen.
  destruct (Hs results w) as (r & Hr & Hh).
  destruct (s results w) as [r1 w1]. cbn [fst] in Hr.
  exists r. split; [|exact Hh].
  rewrite (steps_keeps ss key Hss). exact Hr.
Qed.

Lemma steps_marks_later s ss key :
  marks (steps ss) key -> marks (steps (s :: ss)) key.
Proof.
  intros Hss results w. cbn [steps]. unfold andThen.
  destruct (s results w) as [r1 w1]. apply Hss.
Qed.

Ltac step_keeps :=
  first [ apply always_keeps; reflexivity
        | apply guarded_keeps; reflexivity
        | apply without_keeps; reflexivity ].

Ltac find_mark :=
  first
    [ apply steps_marks_here;
      [ first [ apply without_marks | apply guarded_marks; reflexivity ]
      | repeat (constructor; [step_keeps|]); constructor ]
    | apply steps_marks_later; find_mark ].

(** After the three blocks, every deprecated model has an unhealthy entry. *)
Lemma blocks_mark_deprecated N key config :
  In (key, config) MODELS -> Config.deprecated config = true ->
  marks (steps (geminiBlock N ++ huggingFaceBlock N ++ openRouterBlock N)) key.
Proof.
  intros Hin Hdep.
  unfold geminiBlock, huggingFaceBlock, openRouterBlock.
  cbn [MODELS In] in Hin.
  repeat (destruct Hin as [Hin|Hin];
          [injection Hin as <- <-; try discriminate Hdep;
           destruct (GEMINI_API_KEY N), (HUGGINGFACE_API_KEY N),
             (OPENROUTER_KEY N); cbn [app]; find_mark|]).
  destruct Hin.
Qed.

Lemma setKey_unhealthyAt key key' value results :
  (key' = key -> Status.healthy value = false) ->
  unhealthyAt key results -> unhealthyAt key (setKey key' value results).
Proof.
  intros Hv. unfold unhealthyAt.
  induction results as [|[k v] rest IH]; intros Hall; cbn [setKey].
  - constructor; [exact Hv | constructor].
  - inversion Hall as [|e l He Hrest]; subst.
    destruct (String.eqb k key') eqn:Ek.
    + apply String.eqb_eq in Ek. subst k.
      constructor; [exact Hv | exact Hrest].
    + constructor; [exact He | apply IH; exact Hrest].
Qed.

Lemma always_quiet test key' config key :
  String.eqb key key' = false -> quiet (always test key' config) key.
Proof.
  intros Hne results w Hall. unfold always, andThen, pure.
  destruct (test (Config.name config) w) as [r w']. cbn [fst].
  apply setKey_unhealthyAt; [|exact Hall].
  intros ->. rewrite String.eqb_refl in Hne. discriminate.
Qed.

Lemma guarded_quiet test key' config key :
  String.eqb key key' = false \/ Config.deprecated config = true ->
  quiet (guarded test key' config) key.
Proof.
  intros Hor results w Hall. unfold guarded.
  destruct (Config.deprecated config) eqn:Hdep; cbn [negb].
  - cbn. apply setKey_unhealthyAt; [reflexivity | exact Hall].
  - destruct Hor as [Hne|Hd]; [|discriminate].
    unfold andThen, pure.
    destruct (test (Config.name config) w) as [r w']. cbn [fst].
    apply setKey_unhealthyAt; [|exact Hall].
    intros ->. rewrite String.eqb_refl in Hne. discriminate.
Qed.

Lemma without_quiet key' key : quiet (without key') key.
Proof.
  intros results w Hall. cbn.
  apply setKey_unhealthyAt; [reflexivity | exact Hall].
Qed.

Lemma steps_quiet ss key :
  Forall (fun s => quiet s key) ss -> quiet (steps ss) key.
Proof.
  induction 1 as [|s ss Hs _ IH]; intros results w Hall; cbn [steps].
  - exact Hall.
  - unfold andThen. specialize (Hs results w Hall).
    destruct (s results w) as [r1 w1]. cbn [fst] in Hs.
    apply IH. exact Hs.
Qed.

Ltac step_quiet :=
  first [ apply without_quiet
        | apply always_quiet; reflexivity
        | apply guarded_quiet; left; reflexivity
        | apply guarded_quiet; right; reflexivity ].

(** The three blocks never put a healthy entry under a deprecated model. *)
Lemma blocks_quiet_deprecated N key config :
  In (key, config) MODELS -> Config.deprecated config = true ->
  quiet (steps (geminiBlock N ++ huggingFaceBlock N ++ openRouterBlock N)) key.
Proof.
  intros Hin Hdep. apply steps_quiet.
  unfold geminiBlock, huggingFaceBlock, openRouterBlock.
  cbn [MODELS In] in Hin.
  repeat (destruct Hin as [Hin|Hin];
          [injection Hin as <- <-; try discriminate Hdep;
           destruct (GEMINI_API_KEY N), (HUGGINGFACE_API_KEY N),
             (OPENROUTER_KEY N); cbn [app];
           repeat (constructor; [step_quiet|]); constructor|]).
  destruct Hin.
Qed.

Lemma setKey_keysWithin key value results :
  In key (List.map fst MODELS) ->
  keysWithin results -> keysWithin (setKey key value results).
Proof.
  intros Hk. unfold keysWithin.
  induction results as [|[k v] rest IH]; intros Hall; cbn [setKey].
  - constructor; [exact Hk | constructor].
  - inversion Hall as [|e l He Hrest]; subst.
    destruct (String.eqb k key).
    + constructor; [exact He | exact Hrest].
    + constructor; [exact He | apply IH; exact Hrest].
Qed.

Lemma always_tidy test key config :
  In key (List.map fst MODELS) -> tidy (always test key config).
Proof.
  intros Hk results w Hall. unfold always, andThen, pure.
  destruct (test (Config.name config) w) as [r w']. cbn [fst].
  apply setKey_keysWithin; assumption.
Qed.

Lemma guarded_tidy test key config :
  In key (List.map fst MODELS) -> tidy (guarded test key config).
Proof.
  intros Hk results w Hall. unfold guarded.
  destruct (Config.deprecated config); cbn [negb].
  - cbn. apply setKey_keysWithin; assumption.
  - unfold andThen, pure.
    destruct (test (Config.name config) w) as [r w']. cbn [fst].
    apply setKey_keysWithin; assumption.
Qed.

Lemma without_tidy key : In key (List.map fst MODELS) -> tidy (without key).
Proof.
  intros Hk results w Hall. cbn. apply setKey_keysWithin; assumption.
Qed.

Lemma steps_tidy ss : Forall tidy ss -> tidy (steps ss).
Proof.
  induction 1 as [|s ss Hs _ IH]; intros results w Hall; cbn [steps].
  - exact Hall.
  - unfold andThen. specialize (Hs results w Hall).
    destruct (s results w) as [r1 w1]. cbn [fst] in Hs.
    apply IH. exact Hs.
Qed.

Ltac step_tidy :=
  first [ apply without_tidy | apply always_tidy | apply guarded_tidy ];
  cbn; tauto.

Lemma blocks_tidy N :
  tidy (steps (geminiBlock N ++ huggingFaceBlock N ++ openRouterBlock N)).
Proof.
  apply steps_tidy. unfold geminiBlock, huggingFaceBlock, openRouterBlock.
  destruct (GEMINI_API_KEY N), (HUGGINGFACE_API_KEY N), (OPENROUTER_KEY N);
    cbn [app]; repeat (constructor; [step_tidy|]); constructor.
Qed.

Lemma assoc_absent {A} key (l : list (string * A)) :
  ~ In key (List.map fst l) -> Js.assoc key l = None.
Proof.
  induction l as [|[k v] rest IH]; intros Hno; cbn [Js.assoc]; [reflexivity|].
  destruct (String.eqb key k) eqn:Ek.
  - apply String.eqb_eq in Ek. subst k. destruct Hno. left. reflexivity.
  - apply IH. intros Hin. apply Hno. right. exact Hin.
Qed.

(** No two configured models have the same name, letter case apart. *)
Lemma names_unique key1 config1 key2 config2 :
  In (key1, config1) MODELS -> In (key2, config2) MODELS ->
  Str.toLowerCase (Config.name config1) = Str.toLowerCase (Config.name config2) ->
  key1 = key2.
Proof.
  intros H1 H2. cbn [MODELS In] in H1, H2.
  repeat (destruct H1 as [H1|H1]; [injection H1 as <- <-|]);
    try destruct H1;
    repeat (destruct H2 as [H2|H2]; [injection H2 as <- <-|]);
    try destruct H2;
    intros Heq; first [reflexivity | vm_compute in Heq; discriminate Heq].
Qed.

(** The name of a deprecated model is neither a key of [MODELS] nor a name
    of the alias table. *)
Lemma deprecated_name_plain key config :
  In (key, config) MODELS -> Config.deprecated config = true ->
  ~ In (Config.name config) (List.map fst MODELS)
  /\ Js.assoc (Config.name config) modelNameMap = None
  /\ Config.name config <> "".
Proof.
  intros Hin Hdep. cbn [MODELS In] in Hin.
  repeat (destruct Hin as [Hin|Hin];
          [injection Hin as <- <-;
           first [ discriminate Hdep
                 | split; [cbn; intuition discriminate
                          | split; [reflexivity | discriminate]] ]|]).
  destruct Hin.
Qed.

(** What [getHealthyModels] lists is a healthy entry of the cache. *)
Lemma getHealthyModels_In healthStatus provider hm :
  In hm (getHealthyModels healthStatus provider) ->
  In (hm_name hm, hm_status hm) (models healthStatus)
  /\ Status.healthy (hm_status hm) = true.
Proof.
  unfold getHealthyModels. intros Hin. apply in_flat_map in Hin.
  destruct Hin as ([name result] & Hentry & Hhm).
  destruct (Status.healthy result) eqn:Hh; cbn [andb] in Hhm; [|destruct Hhm].
  match type of Hhm with
  | In _ (if ?b then _ else _) => destruct b
  end; [|destruct Hhm].
  destruct Hhm as [<-|[]]. cbn. split; [exact Hentry | exact Hh].
Qed.

Lemma checkAllModels_unfold N w :
  checkAllModels N w
  = (let out := steps (geminiBlock N ++ huggingFaceBlock N ++ openRouterBlock N)
                      [] w in
     ((fst out,
       {| lastChecked := Some (now N (List.length (requests (snd out))));
          models := fst out |}), snd out)).
Proof.
  unfold checkAllModels, andThen.
  destruct (steps _ [] w) as [results w']. reflexivity.
Qed.

End HealthFacts.

(** ** The resolution of a model name *)

Module ResolutionFacts.
Import Health HealthSpec ResolutionSpec.

Lemma healthOf_own cache key r :
  Js.assoc key cache = Some r ->
  healthOf cache key = Some (Some (Status.healthy r)).
Proof. intros H. unfold healthOf, Js.lookup. rewrite H. reflexivity. Qed.


Lemma healthOf_absent cache key :
  Js.assoc key cache = None -> ~ inherited key -> healthOf cache key = None.
Proof.
  intros H Hno. unfold healthOf, Js.lookup. rewrite H.
  destruct (Js.assoc key Js.objectPrototype) as [name|] eqn:Hn; [|reflexivity].
  destruct Hno. exists name. exact Hn.
Qed.

(** At a key that no object inherits only an own entry returns. *)
Lemma healthOf_plain cache key :
  ~ inherited key ->
  (forall returned, healthOf cache key = Some returned ->
     exists r, Js.assoc key cache = Some r
               /\ returned = Some (Status.healthy r))
  /\ (healthOf cache key = None -> Js.assoc key cache = None).
Proof.
  intros Hno. destruct (Js.assoc key cache) as [r|] eqn:Hr.
  - rewrite (healthOf_own cache key r Hr). split; [|discriminate].
    intros returned H. injection H as <-. exists r. auto.
  - rewrite (healthOf_absent cache key Hr Hno). split; [discriminate | auto].
Qed.


(** No key of [MODELS] is inherited, and no name of a model is one, letter
    case apart. *)
Lemma models_plain key config :
  In (key, config) MODELS ->
  ~ inherited key
  /\ forall modelName,
       Str.toLowerCase (Config.name config) = Str.toLowerCase modelName ->
       ~ inherited modelName.
Proof.
  intros Hin. cbn [MODELS In] in Hin.
  repeat (destruct Hin as [Hin|Hin];
          [injection Hin as <- <-;
           split; [intros [name Hn]; discriminate Hn|];
           intros modelName Heq [name Hn];
           unfold Js.objectPrototype in Hn; cbn [Js.assoc] in Hn;
           repeat match type of Hn with
                  | (if String.eqb ?x ?y then _ else _) = _ =>
                      destruct (String.eqb_spec x y) as [->|_]
                  end; try discriminate Hn; vm_compute in Heq;
           discriminate Heq|]).
  destruct Hin.
Qed.


Lemma byName_sound cache modelName configs returned :
  (forall key config, In (key, config) configs -> ~ inherited key) ->
  byName cache modelName configs = Some returned ->
  exists key config r,
    In (key, config) configs
    /\ Config.name config <> ""
    /\ Str.toLowerCase (Config.name config) = Str.toLowerCase modelName
    /\ Js.assoc key cache = Some r
    /\ returned = Some (Status.healthy r).
Proof.
  induction configs as [|[key config] rest IH]; cbn [byName]; intros Hplain;
    [discriminate|].
  assert (Hrest : byName cache modelName rest = Some returned ->
                  exists k c r,
                    In (k, c) ((key, config) :: rest)
                    /\ Config.name c <> ""
                    /\ Str.toLowerCase (Config.name c)
                       = Str.toLowerCase modelName
                    /\ Js.assoc k cache = Some r
                    /\ returned = Some (Status.healthy r)).
  { intros H.
    destruct (IH (fun k c Hin => Hplain k c (or_intror Hin)) H)
      as (k & c & r & Hin & Hmore).
    exists k, c, r. split; [right; exact Hin | exact Hmore]. }
  destruct (negb (String.eqb (Config.name config) "")) eqn:Hne;
    cbn [andb]; [|exact Hrest].
  destruct (String.eqb (Str.toLowerCase (Config.name config))
                       (Str.toLowerCase modelName)) eqn:Heq; [|exact Hrest].
  destruct (healthOf cache key) as [v|] eqn:Hv; [|exact Hrest].
  intros H. injection H as <-.
  destruct (proj1 (healthOf_plain cache key
                     (Hplain key config (or_introl eq_refl))) v Hv)
    as (r & Hr & ->).
  exists key, config, r.
  apply String.eqb_eq in Heq. apply negb_true_iff, String.eqb_neq in Hne.
  repeat split; auto. left. reflexivity.
Qed.

Lemma byName_complete cache modelName configs :
  byName cache modelName configs = None ->
  forall key config r,
    In (key, config) configs ->
    Config.name config <> "" ->
    Str.toLowerCase (Config.name config) = Str.toLowerCase modelName ->
    Js.assoc key cache = Some r -> False.
Proof.
  induction configs as [|[k c] rest IH]; cbn [byName]; intros Hnone key config
    r Hin Hne Heq Hr; [destruct Hin|].
  destruct Hin as [Hin|Hin].
  - injection Hin as -> ->.
    apply String.eqb_neq in Hne. rewrite Hne in Hnone. cbn [negb andb] in Hnone.
    apply String.eqb_eq in Heq.
    rewrite Heq, (healthOf_own cache key r Hr) in Hnone. discriminate.
  - apply (IH) with (key := key) (config := config) (r := r); auto.
    destruct (negb (String.eqb (Config.name c) "")
              && String.eqb (Str.toLowerCase (Config.name c))
                            (Str.toLowerCase modelName));
      [|exact Hnone].
    destruct (healthOf cache k); [discriminate | exact Hnone].
Qed.




(** In a cache whose keys are keys of [MODELS], a model of the table is
    found by its name under its key. *)
Lemma byName_models cache modelName returned :
  byName cache modelName MODELS = Some returned ->
  exists key config r,
    In (key, config) MODELS
    /\ Config.name config <> ""
    /\ Str.toLowerCase (Config.name config) = Str.toLowerCase modelName
    /\ Js.assoc key cache = Some r
    /\ returned = Some (Status.healthy r).
Proof.
  intros H. apply (byName_sound cache modelName MODELS returned); [|exact H].
  intros key config Hin. exact (proj1 (models_plain key config Hin)).
Qed.

End ResolutionFacts.

Section DeprecatedClaim.
Import Health HealthSpec HealthFacts HealthExamples.
Import ResolutionSpec ResolutionFacts.

(** C7.  For every model of [MODELS] whose configuration carries the
    deprecated flag, and on every network, [checkAllModels] records the model
    under its key with [healthy: false] and sends no request to it; the cache
    it leaves is the object it returns, so [isModelHealthy] answers false for
    the key and for the full name of the model, and [getHealthyModels] never
    lists it. *)
Theorem deprecated_never_probed_never_healthy
        (key : string) (config : Config.t) (N : Net) (w : Wire) :
  In (key, config) MODELS ->
  Config.deprecated config = true ->
  let results := fst (fst (checkAllModels N w)) in
  let cache := snd (fst (checkAllModels N w)) in
  let after := snd (checkAllModels N w) in
  (exists r, Js.assoc key results = Some r /\ Status.healthy r = false)
  /\ models cache = results
  /\ (exists sent,
         requests after = (requests w ++ sent)%list
         /\ Forall (fun rq => toModel rq <> Config.name config) sent)
  /\ isModelHealthy cache key = Some false
  /\ isModelHealthy cache (Config.name config) = Some false
  /\ (forall provider hm,
         In hm (getHealthyModels cache provider) -> hm_name hm <> key).
Proof.
  intros Hin Hdep results cache after.
  assert (Hmark : exists r, Js.assoc key results = Some r
                            /\ Status.healthy r = false).
  { subst results. rewrite checkAllModels_unfold. cbn [fst].
    apply (blocks_mark_deprecated N key config Hin Hdep). }
  assert (Hcache : models cache = results).
  { subst cache results. rewrite checkAllModels_unfold. reflexivity. }
  assert (Htidy : keysWithin results).
  { subst results. rewrite checkAllModels_unfold. cbn [fst].
    apply blocks_tidy. constructor. }
  split; [exact Hmark|]. split; [exact Hcache|].
  split; [|split; [|split]].
  - destruct (checkAllModels_targets N w) as (sent & Hsent & Hall).
    exists sent. split; [exact Hsent|].
    eapply Forall_impl; [|exact Hall].
    intros rq Hrq Heq. cbn beta in Hrq. rewrite Heq in Hrq.
    clear - Hin Hdep Hrq.
    cbn [MODELS In] in Hin.
    repeat (destruct Hin as [Hin|Hin];
            [injection Hin as <- <-; try discriminate Hdep;
             cbn in Hrq; intuition discriminate|]).
    destruct Hin.
  - destruct Hmark as (r & Hr & Hh).
    unfold isModelHealthy, byKey. rewrite Hcache.
    rewrite (healthOf_own results key r Hr), Hh. reflexivity.
  - destruct Hmark as (r & Hr & Hh).
    destruct (deprecated_name_plain key config Hin Hdep)
      as (Hnokey & Hnoalias & Hnamed).
    assert (Hnone : Js.assoc (Config.name config) results = None).
    { apply assoc_absent. intros Hk. apply Hnokey.
      unfold keysWithin in Htidy. rewrite Forall_forall in Htidy.
      apply in_map_iff in Hk. destruct Hk as (entry & <- & Hentry).
      apply Htidy. exact Hentry. }
    assert (Hplain : ~ inherited (Config.name config))
      by (apply (proj2 (models_plain key config Hin)); reflexivity).
    unfold isModelHealthy, byKey, byMap. rewrite Hcache.
    rewrite (healthOf_absent results _ Hnone Hplain), Hnoalias.
    destruct (byName results (Config.name config) MODELS) as [h|] eqn:En.
    + apply byName_models in En.
      destruct En as (k & c & r' & Hin' & _ & Heq & Hr' & ->).
      rewrite (names_unique k c key config Hin' Hin Heq) in Hr'.
      rewrite Hr in Hr'. injection Hr' as <-. rewrite Hh. reflexivity.
    + destruct (byName_complete results (Config.name config) MODELS En
                  key config r Hin Hnamed eq_refl Hr).
  - intros provider hm Hhm Hname.
    apply getHealthyModels_In in Hhm. destruct Hhm as [Hentry Hh].
    rewrite Hcache in Hentry. subst results.
    rewrite checkAllModels_unfold in Hentry. cbn [fst] in Hentry.
    pose proof (blocks_quiet_deprecated N key config Hin Hdep [] w
                  (Forall_nil _)) as Hquiet.
    unfold unhealthyAt in Hquiet. rewrite Forall_forall in Hquiet.
    specialize (Hquiet _ Hentry Hname). cbn [snd] in Hquiet.
    rewrite Hquiet in Hh. discriminate Hh.
Qed.

(** The statement above for the deprecated Qwen model on a network where
    every provider answers. *)
Lemma deprecated_never_probed_witness :
  let results := fst (fst (checkAllModels allUp idle)) in
  let cache := snd (fst (checkAllModels allUp idle)) in
  let after := snd (checkAllModels allUp idle) in
  (exists r, Js.assoc "huggingfaceQwen" results = Some r
             /\ Status.healthy r = false)
  /\ models cache = results
  /\ (exists sent,
         requests after = (requests idle ++ sent)%list
         /\ Forall (fun rq => toModel rq <> Config.name huggingfaceQwen) sent)
  /\ isModelHealthy cache "huggingfaceQwen" = Some false
  /\ isModelHealthy cache (Config.name huggingfaceQwen) = Some false
  /\ (forall provider hm,
         In hm (getHealthyModels cache provider) ->
         hm_name hm <> "huggingfaceQwen").
Proof.
  apply (deprecated_never_probed_never_healthy
           "huggingfaceQwen" huggingfaceQwen allUp idle).
  - cbn. tauto.
  - reflexivity.
Defined.

End DeprecatedClaim.

Section ResolutionClaim.
Import Health HealthSpec HealthFacts ResolutionSpec ResolutionFacts.
Import HealthExamples.


End ResolutionClaim.

(* ================================================================== *)
(** * Further properties of the code *)
(* ================================================================== *)

(** ** The analyzer, further *)

Module NormalizeFacts.
Import Analyzer TextSpec StrFacts.

Lemma stripScheme_all q s :
  Str.all q s = true -> Str.all q (stripScheme s) = true.
Proof.
  intros H. unfold stripScheme.
  repeat match goal with
         | |- context [if ?b then _ else _] => destruct b
         end; try exact H; repeat apply all_drop; exact H.
Qed.

Lemma stripTrailingSlash_all q s :
  Str.all q s = true -> Str.all q (stripTrailingSlash s) = true.
Proof.
  intros H. unfold stripTrailingSlash.
  destruct (Str.rev s) as [|c r] eqn:Er; [exact H|].
  destruct (isSlash c); [|exact H].
  rewrite all_rev. rewrite <- (all_rev q s), Er in H.
  cbn [Str.all] in H. apply andb_true_iff in H. apply H.
Qed.

(** Without a slash there is no scheme to strip. *)
Lemma stripScheme_plain s : Str.all notSlash s = true -> stripScheme s = s.
Proof.
  intros H. unfold stripScheme.
  destruct (Str.startsWith s "https://") eqn:E1.
  - pose proof (all_startsWith notSlash _ _ E1 H) as Hp. discriminate Hp.
  - destruct (Str.startsWith s "http://") eqn:E2; [|reflexivity].
    pose proof (all_startsWith notSlash _ _ E2 H) as Hp. discriminate Hp.
Qed.

Lemma stripTrailingSlash_plain s :
  Str.all notSlash s = true -> stripTrailingSlash s = s.
Proof.
  intros H. unfold stripTrailingSlash.
  destruct (Str.rev s) as [|c r] eqn:Er; [reflexivity|].
  rewrite <- (all_rev notSlash s), Er in H.
  cbn [Str.all] in H. apply andb_true_iff in H. destruct H as [Hc _].
  unfold notSlash in Hc. apply negb_true_iff in Hc. rewrite Hc. reflexivity.
Qed.

Lemma normalizeDomain_noSlash domain :
  Str.all notSlash (normalizeDomain domain) = true.
Proof. unfold normalizeDomain. apply (splitHead_free isSlash). Qed.

Lemma normalizeDomain_lowered domain :
  Str.all lowered (normalizeDomain domain) = true.
Proof.
  unfold normalizeDomain.
  apply all_splitHead, stripTrailingSlash_all, stripScheme_all,
    toLowerCase_lowered.
Qed.

Lemma normalizeDomain_fixed s :
  Str.all notSlash s = true -> Str.all lowered s = true ->
  normalizeDomain s = s.
Proof.
  intros Hs Hl. unfold normalizeDomain.
  rewrite (lowered_fixed s Hl), (stripScheme_plain s Hs),
    (stripTrailingSlash_plain s Hs).
  apply (splitHead_whole isSlash). exact Hs.
Qed.

End NormalizeFacts.

Section NormalizeExtras.
Import Analyzer TextSpec StrFacts NormalizeFacts.

(** X1.  [normalizeDomain] is idempotent, and what it returns holds no
    slash and no capital letter: a second normalization changes nothing.
    Hence [analyzeResponse] gives the same result for a target and for its
    normalized form, a full URL or a bare host alike. *)
Theorem normalizeDomain_idempotent (domain : string) :
  normalizeDomain (normalizeDomain domain) = normalizeDomain domain
  /\ Str.all notSlash (normalizeDomain domain) = true
  /\ Str.toLowerCase (normalizeDomain domain) = normalizeDomain domain
  /\ (forall response parsed,
         analyzeResponse response (normalizeDomain domain) parsed
         = analyzeResponse response domain parsed).
Proof.
  assert (Hidem : normalizeDomain (normalizeDomain domain)
                  = normalizeDomain domain).
  { apply normalizeDomain_fixed;
      [apply normalizeDomain_noSlash | apply normalizeDomain_lowered]. }
  split; [exact Hidem|]. split; [apply normalizeDomain_noSlash|].
  split; [apply lowered_fixed, normalizeDomain_lowered|].
  intros response parsed. unfold analyzeResponse. rewrite Hidem. reflexivity.
Qed.

End NormalizeExtras.

(** ** The classes of an analysis *)

Module ScoringFacts.
Import Analyzer TextSpec StrFacts Spec AnalyzerFacts.

Lemma isSentenceEnd_lower c :
  isSentenceEnd (Str.lower_char c) = isSentenceEnd c.
Proof.
  destruct c as [[] [] [] [] [] [] [] []]; vm_compute; reflexivity.
Qed.

Lemma firstSentence_plain response :
  Str.all notSentenceEnd (Str.toLowerCase (firstSentence response)) = true.
Proof.
  pose proof (splitHead_free isSentenceEnd response) as H.
  fold (firstSentence response) in H.
  induction (firstSentence response) as [|c s IH]; [reflexivity|].
  cbn [Str.all] in H. apply andb_true_iff in H. destruct H as [Hc Hs].
  unfold Str.toLowerCase. cbn [Str.map Str.all].
  unfold notSentenceEnd at 1. rewrite isSentenceEnd_lower, Hc.
  apply IH. exact Hs.
Qed.

End ScoringFacts.

Section ScoringExtras.
Import Analyzer TextSpec ScoringSpec StrFacts Spec AnalyzerFacts ScoringFacts.

(** X2.  Every analysis falls in one of three classes, told apart by the
    citations and the mention alone: a citation gives score 3 and confidence
    [high]; a mention without citation gives confidence [medium] and score 2
    or 3; neither gives score 0 and confidence [low].  So the score is 0
    exactly when the domain is neither cited nor mentioned, and exactly when
    the confidence is [low]. *)
Theorem analysis_classes
        (response domain : string) (parsed : JSON) (a : Analysis) :
  analyzeResponse response domain parsed = Return a ->
  ((citations a <> [] /\ score a = 3 /\ confidence a = high)
   \/ (citations a = [] /\ mentioned a = true
       /\ (score a = 2 \/ score a = 3) /\ confidence a = medium)
   \/ (citations a = [] /\ mentioned a = false
       /\ score a = 0 /\ confidence a = low))
  /\ (score a = 0 <-> citations a = [] /\ mentioned a = false)
  /\ (score a = 0 <-> confidence a = low).
Proof.
  intros Ha. destruct (analyzeResponse_inv _ _ _ _ Ha) as [m ->].
  destruct (finish_fields response (normalizeDomain domain)
              (collected response (normalizeDomain domain) parsed) m)
    as [Em Ec].
  rewrite Em, Ec.
  destruct (collected response (normalizeDomain domain) parsed) as [|c cs].
  - destruct m.
    + destruct (finish_mentioned response (normalizeDomain domain))
        as [Hs Hc]. cbn zeta in Hs. rewrite Hs, Hc.
      destruct (Str.includes _ _);
        (split; [right; left; auto|]);
        (split; split; intros H; try discriminate H;
         destruct H; discriminate).
    + destruct (finish_silent response (normalizeDomain domain)) as [Hs Hc].
      rewrite Hs, Hc. split; [right; right; auto|]. tauto.
  - destruct (finish_cited response (normalizeDomain domain) c cs m)
      as [Hs Hc]. rewrite Hs, Hc.
    split; [left; split; [discriminate | auto]|].
    split; split; intros H; try discriminate H; destruct H; discriminate.
Qed.

(** The statement above at an answer that says nothing of the target. *)
Lemma analysis_classes_witness :
  let a := {| mentioned := false; score := 0; citations := [];
              confidence := low |} in
  ((citations a <> [] /\ score a = 3 /\ confidence a = high)
   \/ (citations a = [] /\ mentioned a = true
       /\ (score a = 2 \/ score a = 3) /\ confidence a = medium)
   \/ (citations a = [] /\ mentioned a = false
       /\ score a = 0 /\ confidence a = low))
  /\ (score a = 0 <-> citations a = [] /\ mentioned a = false)
  /\ (score a = 0 <-> confidence a = low).
Proof.
  exact (analysis_classes "I do not know this site." "example.com" JNull
           {| mentioned := false; score := 0; citations := [];
              confidence := low |} eq_refl).
Defined.

(** X3.  The first sentence is the text before the first full stop,
    exclamation mark or question mark, so it holds none of them: a target
    whose normalized form contains one (any host with a dot) is never found
    in it, and a mention of such a target without citation always scores 2,
    never 3. *)
Theorem dotted_domain_never_first_sentence
        (response domain : string) (parsed : JSON) (a : Analysis) :
  analyzeResponse response domain parsed = Return a ->
  Str.all notSentenceEnd (normalizeDomain domain) = false ->
  Str.includes (Str.toLowerCase (firstSentence response))
               (normalizeDomain domain) = false
  /\ (mentioned a = true -> citations a = [] -> score a = 2)
  /\ (score a = 3 -> citations a <> []).
Proof.
  intros Ha Hdot.
  assert (Hno : Str.includes (Str.toLowerCase (firstSentence response))
                             (normalizeDomain domain) = false).
  { destruct (Str.includes _ _) eqn:Ei; [|reflexivity].
    pose proof (all_includes notSentenceEnd _ _ Ei
                  (firstSentence_plain response)) as Hall.
    congruence. }
  split; [exact Hno|].
  destruct (analyzeResponse_inv _ _ _ _ Ha) as [m ->].
  destruct (finish_fields response (normalizeDomain domain)
              (collected response (normalizeDomain domain) parsed) m)
    as [Em Ec].
  rewrite Em, Ec.
  destruct (finish_mentioned response (normalizeDomain domain)) as [Hs _].
  cbn zeta in Hs. rewrite Hno in Hs.
  split.
  - intros -> ->. exact Hs.
  - intros H3 Hnil. rewrite Hnil in H3. destruct m.
    + rewrite Hs in H3. discriminate.
    + destruct (finish_silent response (normalizeDomain domain)) as [H0 _].
      rewrite H0 in H3. discriminate.
Qed.

(** The statement above at [example.com], named at the very start of an
    answer. *)
Lemma dotted_domain_witness :
  let a := {| mentioned := true; score := 2; citations := [];
              confidence := medium |} in
  Str.includes (Str.toLowerCase (firstSentence "example.com is a shop"))
               (normalizeDomain "example.com") = false
  /\ (mentioned a = true -> citations a = [] -> score a = 2)
  /\ (score a = 3 -> citations a <> []).
Proof.
  exact (dotted_domain_never_first_sentence "example.com is a shop"
           "example.com" JNull
           {| mentioned := true; score := 2; citations := [];
              confidence := medium |} eq_refl eq_refl).
Defined.

(** X4.  [analyzeResponse] throws in one case only: the parsed answer is an
    object (or an array) whose [description] is truthy and not a string, on
    which [toLowerCase] is not a function.  In every other case, and always
    for an unparsed answer, it returns. *)
Theorem analyzeResponse_throws_iff
        (response domain : string) (parsed : JSON) :
  (badDescription parsed = true <->
   exists message, analyzeResponse response domain parsed = Throw message)
  /\ (badDescription parsed = false <->
      exists a, analyzeResponse response domain parsed = Return a).
Proof.
  unfold badDescription, analyzeResponse.
  destruct (Js.truthy parsed && Js.isObject parsed); cbn [andb].
  - destruct (Js.get parsed "description") as [d|].
    + destruct d; cbn [Js.truthy];
        repeat match goal with
               | |- context [if ?b then _ else _] => destruct b
               end;
        split; split;
          try (intros _; eexists; reflexivity);
          try discriminate;
          try (intros [x Hx]; discriminate Hx).
    + split; split; try discriminate; try (intros _; eexists; reflexivity);
        intros [x Hx]; discriminate Hx.
  - split; split; try discriminate; try (intros _; eexists; reflexivity);
      intros [x Hx]; discriminate Hx.
Qed.

End ScoringExtras.

Module RawPathFacts.
Import Analyzer TextSpec StrFacts OccursFacts.

Lemma takeWhile_occurs p s : occursIn (Str.takeWhile p s) s.
Proof.
  rewrite (takeWhile_dropWhile p s) at 2. apply occursIn_prefix.
Qed.

(** Every match of the URL pattern is a piece of the text. *)
Lemma scanUrls_occurs s :
  forall inside url, In url (scanUrls inside s) -> occursIn url s.
Proof.
  induction s as [|c s IH]; intros inside url Hin; [destruct Hin|].
  cbn [scanUrls] in Hin. destruct inside.
  - apply occursIn_cons. eapply IH. exact Hin.
  - destruct (urlStartsAt (String c s)).
    + destruct Hin as [<-|Hin]; [apply takeWhile_occurs|].
      apply occursIn_cons. eapply IH. exact Hin.
    + apply occursIn_cons. eapply IH. exact Hin.
Qed.

Lemma stripScheme_occurs s : occursIn (stripScheme s) s.
Proof.
  unfold stripScheme.
  repeat match goal with
         | |- context [if ?b then _ else _] => destruct b
         end;
    try apply occursIn_refl; try apply drop_occurs;
    (eapply occursIn_trans; apply drop_occurs).
Qed.

Lemma stripTrailingSlash_occurs s : occursIn (stripTrailingSlash s) s.
Proof.
  unfold stripTrailingSlash.
  destruct (Str.rev s) as [|c r] eqn:Er; [apply occursIn_refl|].
  destruct (isSlash c); [|apply occursIn_refl].
  rewrite (rev_cons s c r Er) at 1. apply occursIn_prefix.
Qed.

(** The normalized form of a URL is a piece of the URL in lower case. *)
Lemma normalizeDomain_occurs url :
  occursIn (normalizeDomain url) (Str.toLowerCase url).
Proof.
  unfold normalizeDomain.
  eapply occursIn_trans; [apply splitHead_occurs|].
  eapply occursIn_trans; [apply stripTrailingSlash_occurs|].
  apply stripScheme_occurs.
Qed.

End RawPathFacts.

Section RawPathExtras.
Import Analyzer TextSpec StrFacts OccursFacts RawPathFacts Spec AnalyzerFacts.

(** X5.  For an unparsed answer every citation is a piece of the raw text,
    and a citation implies a mention: the normalized target occurs in the
    lower-cased text whenever a URL of the text is kept, so [mentioned] is
    true as soon as [citations] is not empty.  (For a parsed answer the two
    are independent: a cited target may be reported as not mentioned.) *)
Theorem raw_citation_implies_mention
        (response domain : string) (parsed : JSON) (a : Analysis) :
  Js.truthy parsed && Js.isObject parsed = false ->
  analyzeResponse response domain parsed = Return a ->
  (forall url, In url (citations a) ->
     occursIn url response
     /\ occursIn (normalizeDomain domain) (Str.toLowerCase response))
  /\ (citations a <> [] -> mentioned a = true).
Proof.
  intros Hpath Ha. unfold analyzeResponse in Ha. rewrite Hpath in Ha.
  injection Ha as <-.
  destruct (finish_fields response (normalizeDomain domain)
              (filter (fun url => Str.includes (normalizeDomain url)
                                               (normalizeDomain domain))
                      (matchUrls response))
              (someVariantIn (Str.toLowerCase response)
                             (normalizeDomain domain)))
    as [Em Ec].
  rewrite Em, Ec.
  assert (Hcite : forall url,
             In url (filter (fun url => Str.includes (normalizeDomain url)
                                                     (normalizeDomain domain))
                            (matchUrls response)) ->
             occursIn url response
             /\ occursIn (normalizeDomain domain) (Str.toLowerCase response)).
  { intros url Hin. apply filter_In in Hin. destruct Hin as [Hm Hinc].
    pose proof (scanUrls_occurs response false url Hm) as Hocc.
    split; [exact Hocc|].
    apply includes_occurs in Hinc.
    eapply occursIn_trans; [exact Hinc|].
    eapply occursIn_trans; [apply normalizeDomain_occurs|].
    apply occursIn_lower. exact Hocc. }
  split; [exact Hcite|].
  intros Hne.
  destruct (filter _ (matchUrls response)) as [|url rest]; [contradiction|].
  destruct (Hcite url (or_introl eq_refl)) as [_ Hocc].
  apply includes_occurs in Hocc.
  unfold someVariantIn, domainVariants. cbn [existsb].
  rewrite Hocc. reflexivity.
Qed.

(** The statement above at an answer in plain text with a link. *)
Lemma raw_citation_witness :
  let a := {| mentioned := true; score := 3;
              citations := ["https://Example.com/about"];
              confidence := high |} in
  (forall url, In url (citations a) ->
     occursIn url "Visit https://Example.com/about today"
     /\ occursIn (normalizeDomain "example.com")
                 (Str.toLowerCase "Visit https://Example.com/about today"))
  /\ (citations a <> [] -> mentioned a = true).
Proof.
  exact (raw_citation_implies_mention
           "Visit https://Example.com/about today" "example.com" JNull
           {| mentioned := true; score := 3;
              citations := ["https://Example.com/about"];
              confidence := high |} eq_refl eq_refl).
Defined.

End RawPathExtras.

(** ** The cleaning of provider answers *)

Module FenceFacts.
Import Text TextSpec CleanSpec StrFacts OccursFacts.

Lemma out_cons c s :
  out (String c s)
  = if Str.startsWith (String c s) fence then removeAll fence 2 true s
    else String c (out s).
Proof.
  unfold out. cbn [removeAll andb].
  destruct (Str.startsWith (String c s) fence); reflexivity.
Qed.

(** Two backticks at the head of the output were at the head of the
    input. *)
Lemma out_two_ticks s :
  Str.startsWith (out s) "``" = true -> Str.startsWith s "``" = true.
Proof.
  destruct s as [|c s]; [discriminate|].
  rewrite out_cons.
  destruct (Str.startsWith (String c s) fence) eqn:Em.
  - intros _. apply startsWith_prefix in Em. destruct Em as [after ->].
    reflexivity.
  - intros H. cbn [Str.startsWith] in H. apply andb_true_iff in H.
    destruct H as [Hc H]. apply Ascii.eqb_eq in Hc. subst c.
    destruct s as [|c2 s]; [discriminate H|].
    rewrite out_cons in H.
    destruct (Str.startsWith (String c2 s) fence) eqn:Em2.
    + apply startsWith_prefix in Em2. destruct Em2 as [after Ha].
      rewrite Ha in Em. discriminate Em.
    + cbn [Str.startsWith] in H. apply andb_true_iff in H.
      destruct H as [Hc2 _]. apply Ascii.eqb_eq in Hc2. subst c2.
      reflexivity.
Qed.

(** No fence is left after the removal of the fences. *)
Lemma removeAll_fence_free s :
  forall skip afterMatch,
    Str.includes (removeAll fence skip afterMatch s) fence = false.
Proof.
  induction s as [|c s IH]; intros skip afterMatch; [reflexivity|].
  cbn [removeAll]. destruct skip as [|k]; [|apply IH].
  destruct (afterMatch && Str.eqc c Str.newline); [apply IH|].
  destruct (Str.startsWith (String c s) fence) eqn:Em; cbn [andb negb];
    [apply IH|].
  cbn [Str.includes]. rewrite (IH 0%nat false), orb_false_r.
  destruct (Str.startsWith (String c (removeAll fence 0 false s)) fence)
    eqn:Eo; [|reflexivity].
  cbn [Str.startsWith fence] in Eo. apply andb_true_iff in Eo.
  destruct Eo as [Hc Ho]. apply Ascii.eqb_eq in Hc. subst c.
  assert (Hs : Str.startsWith s "``" = true).
  { apply out_two_ticks. exact Ho. }
  cbn [Str.startsWith fence] in Em. cbn [Str.startsWith] in Hs.
  rewrite Hs in Em. discriminate Em.
Qed.

(** A text without the pattern is left as it is. *)
Lemma removeAll_absent pat s :
  Str.includes s pat = false -> removeAll pat 0 false s = s.
Proof.
  induction s as [|c s IH]; intros H; [reflexivity|].
  cbn [Str.includes] in H. apply orb_false_iff in H. destruct H as [Hm Hs].
  cbn [removeAll andb]. rewrite Hm. cbn [andb]. rewrite (IH Hs). reflexivity.
Qed.

Lemma dropWhile_clean s : startsClean (Str.dropWhile Str.isSpace s).
Proof.
  induction s as [|c s IH]; [exact I|].
  cbn [Str.dropWhile]. destruct (Str.isSpace c) eqn:Ec; [exact IH | exact Ec].
Qed.

Lemma dropWhile_same s : startsClean s -> Str.dropWhile Str.isSpace s = s.
Proof.
  destruct s as [|c s]; [reflexivity|]. cbn [startsClean Str.dropWhile].
  intros ->. reflexivity.
Qed.

Lemma startsClean_prefix s after :
  startsClean (s ++ after) -> startsClean s.
Proof. destruct s; [intros _; exact I | exact (fun H => H)]. Qed.

(** [trim] leaves a text that neither starts nor ends with white space,
    and leaves such a text as it is. *)
Lemma trim_trimmed s : trimmed (Str.trim s).
Proof.
  unfold trimmed, Str.trim, Str.trimEnd, Str.trimStart. split.
  - pose proof (dropWhile_clean s) as Hc.
    pose proof (takeWhile_dropWhile Str.isSpace
                  (Str.rev (Str.dropWhile Str.isSpace s))) as H.
    apply (f_equal Str.rev) in H. rewrite rev_involutive, rev_app in H.
    rewrite H in Hc. eapply startsClean_prefix. exact Hc.
  - rewrite rev_involutive. apply dropWhile_clean.
Qed.

Lemma trim_same s : trimmed s -> Str.trim s = s.
Proof.
  intros [Hs He]. unfold Str.trim, Str.trimEnd, Str.trimStart.
  rewrite (dropWhile_same s Hs), (dropWhile_same _ He).
  apply rev_involutive.
Qed.

Lemma includes_trim s pat :
  Str.includes s pat = false -> Str.includes (Str.trim s) pat = false.
Proof.
  intros H. destruct (Str.includes (Str.trim s) pat) eqn:Et; [|reflexivity].
  apply includes_occurs in Et.
  pose proof (occursIn_trans _ _ _ Et (trim_occurs s)) as Ho.
  apply includes_occurs in Ho. congruence.
Qed.

End FenceFacts.

Section FenceExtras.
Import Text TextSpec CleanSpec StrFacts OccursFacts FenceFacts.

(** X6.  The cleaning every service applies to a provider answer leaves no
    markdown code fence (three backticks) anywhere in the text and no white
    space at either end; cleaning a cleaned text changes nothing. *)
Theorem stripCodeFences_clean (responseText : string) :
  Str.includes (stripCodeFences responseText) fence = false
  /\ trimmed (stripCodeFences responseText)
  /\ stripCodeFences (stripCodeFences responseText)
     = stripCodeFences responseText.
Proof.
  assert (Hfree : Str.includes (stripCodeFences responseText) fence = false).
  { unfold stripCodeFences. apply includes_trim, removeAll_fence_free. }
  assert (Htrim : trimmed (stripCodeFences responseText))
    by apply trim_trimmed.
  split; [exact Hfree|]. split; [exact Htrim|].
  assert (Hjson : Str.includes (stripCodeFences responseText) fenceJson
                  = false).
  { destruct (Str.includes (stripCodeFences responseText) fenceJson) eqn:Ej;
      [|reflexivity].
    apply includes_occurs in Ej.
    assert (Hf : occursIn fence fenceJson) by (exists "", "json"; reflexivity).
    pose proof (occursIn_trans _ _ _ Hf Ej) as Ho.
    apply includes_occurs in Ho. congruence. }
  unfold stripCodeFences at 1.
  rewrite (removeAll_absent fenceJson _ Hjson), (removeAll_absent fence _ Hfree).
  apply trim_same. exact Htrim.
Qed.

End FenceExtras.

(** ** The entries of a report *)

Module EntryFacts.
Import Async Hoare AsyncFacts Visibility EntrySpec.

Lemma len_nonneg s : 0 <= Str.len s.
Proof. unfold Str.len. lia. Qed.

Lemma ceilDiv4_nonneg n : 0 <= n -> 0 <= Text.ceilDiv4 n.
Proof. intros H. unfold Text.ceilDiv4. apply Z.div_pos; lia. Qed.

(** A body that always returns makes the handler idle. *)
Lemma ensures_tryCatch_yields {A} (body : M A) (handler : string -> M A)
      (Q : A -> Prop) :
  yields body Q -> ensures (tryCatch body handler) Q.
Proof.
  intros Hy t a t' H. unfold tryCatch in H.
  destruct (Hy t) as (a0 & t0 & E0 & HQ). rewrite E0 in H.
  injection H as <- _. exact HQ.
Qed.

Lemma failed_coherent premium domain pt message :
  coherent premium domain (failed pt message).
Proof. split; [cbn; lia|]. cbn. repeat split. Qed.

Section WithEnv.
Variable E : Env.

Lemma aggregate_tokens prompt r ar :
  aggregate E prompt r = Return ar -> 0 <= ar_tokensUsed ar.
Proof.
  unfold aggregate.
  destruct (spread (Js.get (gemini r) "citations")); [|discriminate].
  destruct (spread (Js.get (openrouter1 r) "citations")); [|discriminate].
  destruct (spread (Js.get (openrouter2 r) "citations")); [|discriminate].
  intros H.
  apply (f_equal (fun c => match c with
                           | Return x => ar_tokensUsed x
                           | Throw _ => 0
                           end)) in H.
  cbn [ar_tokensUsed] in H. rewrite <- H.
  apply ceilDiv4_nonneg.
  pose proof (len_nonneg prompt).
  pose proof (len_nonneg (JSON_stringify E
                            (firstTruthy (gemini r) (openrouter1 r)
                                         (openrouter2 r)))).
  lia.
Qed.

Lemma multiModel_tokens prompt domain :
  ensures (multiModel E prompt domain)
          (fun o => match o with
                    | Some ar => 0 <= ar_tokensUsed ar
                    | None => True
                    end).
Proof.
  unfold multiModel. apply ensures_tryCatch.
  - eapply ensures_bind; [apply ensures_true|]. intros r _.
    eapply ensures_bind with (P := fun ar => 0 <= ar_tokensUsed ar).
    + intros t a t' H. unfold lift in H.
      apply (f_equal fst) in H. cbn [fst] in H.
      eapply aggregate_tokens. exact H.
    + intros ar Har. apply ensures_ret. exact Har.
  - intros e. apply ensures_ret. exact I.
Qed.

(** What the single model hands over has been analysed without error. *)
Lemma singleModel_usable prompt domain :
  ensures (singleModel E prompt domain)
          (fun ar => 0 <= ar_tokensUsed ar
                     /\ exists a,
                          Analyzer.analyzeResponse (ar_response ar) domain
                            (ar_parsedResponse ar) = Return a).
Proof.
  unfold singleModel.
  eapply ensures_bind; [apply ensures_true|]. intros raw _.
  intros t ar t' H. unfold bind, lift, ret in H.
  destruct (Analyzer.analyzeResponse _ _ _) as [a|e] eqn:Ea; [|discriminate].
  pose proof (f_equal (fun p => match fst p with
                                | Return x => ar_response x
                                | Throw _ => EmptyString
                                end) H) as H1.
  pose proof (f_equal (fun p => match fst p with
                                | Return x => ar_parsedResponse x
                                | Throw _ => JNull
                                end) H) as H2.
  pose proof (f_equal (fun p => match fst p with
                                | Return x => ar_tokensUsed x
                                | Throw _ => 0
                                end) H) as H3.
  cbn [fst ar_response ar_parsedResponse ar_tokensUsed] in H1, H2, H3.
  rewrite <- H1, <- H2, <- H3. split.
  - apply ceilDiv4_nonneg.
    pose proof (len_nonneg (Text.fullPrompt domain prompt)).
    pose proof (len_nonneg (Text.stripCodeFences raw)). lia.
  - exists a. exact Ea.
Qed.

Lemma obtain_usable premium pt domain brand topic :
  ensures (obtain E premium pt domain brand topic)
          (fun pa => usable premium domain (snd pa)).
Proof.
  unfold obtain.
  eapply ensures_bind; [apply ensures_true|]. intros prompt _.
  destruct premium.
  - eapply ensures_bind; [apply multiModel_tokens|].
    intros [ar|] Har.
    + apply ensures_ret. split; [exact Har | discriminate].
    + eapply ensures_bind; [apply singleModel_usable|].
      intros ar [Ht _]. apply ensures_ret. split; [exact Ht | discriminate].
  - eapply ensures_bind with (P := fun o => o = None);
      [apply ensures_ret; reflexivity|].
    intros [ar|] Ho; [discriminate Ho|].
    + eapply ensures_bind; [apply singleModel_usable|].
      intros ar [Ht Ha]. apply ensures_ret. split; [exact Ht|].
      intros _. exact Ha.
Qed.

Lemma silent_score response domain parsed a :
  Analyzer.analyzeResponse response domain parsed = Return a ->
  citations a = [] -> mentioned a = false -> score a = 0.
Proof.
  intros Ha Hc Hm.
  destruct (AnalyzerFacts.analyzeResponse_inv _ _ _ _ Ha) as [m ->].
  destruct (AnalyzerFacts.finish_fields response
              (Analyzer.normalizeDomain domain)
              (Spec.collected response (Analyzer.normalizeDomain domain) parsed)
              m) as [Em Ec].
  rewrite Em in Hm. rewrite Ec in Hc. rewrite Hc, Hm.
  apply AnalyzerFacts.finish_silent.
Qed.

(** The entry [record] pushes. *)
Lemma record_enters premium acc pt domain brand prompt ar :
  0 <= ar_tokensUsed ar ->
  ensures (record E premium acc pt domain brand prompt ar)
          (fun acc' =>
             exists d,
               results acc' = (results acc ++ [d])%list
               /\ coherent premium domain d
               /\ Detail.tokensUsed d = ar_tokensUsed ar
               /\ accTokens acc' = accTokens acc).
Proof.
  intros Htok. unfold record.
  eapply ensures_bind with
    (P := fun a => Analyzer.analyzeResponse (ar_response ar) domain
                     (ar_parsedResponse ar) = Return a).
  - intros t a t' H. unfold lift in H.
    apply (f_equal fst) in H. exact H.
  - intros analysis Ha.
    eapply ensures_bind with
      (P := fun recs => score analysis <> 0 -> recs = JArr []).
    + destruct (citations analysis) as [|c cs] eqn:Ec.
      * destruct (mentioned analysis) eqn:Em.
        -- apply ensures_ret. reflexivity.
        -- eapply ensures_weaken; [apply ensures_true|].
           intros recs _ Hne. destruct Hne.
           eapply silent_score; eassumption.
      * apply ensures_ret. reflexivity.
    + intros recs Hrecs.
      eapply ensures_bind; [apply ensures_true|]. intros _ _.
      apply ensures_ret. eexists. split; [reflexivity|].
      split; [|split; reflexivity].
      split; [exact Htok|]. cbn.
      split; [|split].
      * exists (ar_response ar), (ar_parsedResponse ar).
        split; [reflexivity|]. split; [reflexivity|].
        rewrite Ha. destruct analysis; reflexivity.
      * exists recs. split; [reflexivity | exact Hrecs].
      * intros ->. reflexivity.
Qed.

Lemma record_yields premium acc pt domain brand prompt ar :
  (exists a, Analyzer.analyzeResponse (ar_response ar) domain
               (ar_parsedResponse ar) = Return a) ->
  yields (record E premium acc pt domain brand prompt ar) (fun _ => True).
Proof.
  intros [a Ha]. unfold record.
  eapply yields_bind with (P := fun _ => True).
  - intros t. exists a, t. unfold lift. rewrite Ha. auto.
  - intros analysis _.
    eapply yields_bind with (P := fun _ => True).
    + destruct (citations analysis); [destruct (mentioned analysis)|];
        try (apply yields_ret; exact I).
      apply yields_tryCatch; [apply ensures_true|].
      intros e. apply yields_ret. exact I.
    + intros recs _.
      eapply yields_bind; [apply yields_sleep|]. intros _ _.
      apply yields_ret. exact I.
Qed.

Lemma processPrompt_enters premium domain brand topic acc pt :
  yields (processPrompt E premium domain brand topic acc pt)
         (entersOne premium domain acc).
Proof.
  unfold processPrompt. apply yields_tryCatch.
  - eapply ensures_bind; [apply obtain_usable|].
    intros pa [Htok Hok].
    set (acc1 := {| results := results acc; accScore := accScore acc;
                    accTokens := accTokens acc + ar_tokensUsed (snd pa) |}).
    assert (Hrec : ensures (record E premium acc1 pt domain brand (fst pa)
                                   (snd pa))
                           (entersOne premium domain acc)).
    { eapply ensures_weaken; [apply record_enters; exact Htok|].
      intros acc' (d & H1 & H2 & H3 & H4). exists d.
      split; [exact H1|]. split; [exact H2|].
      rewrite H4, H3. cbn [acc1 accTokens]. split; [lia | intros _; lia]. }
    destruct premium.
    + apply ensures_tryCatch; [exact Hrec|].
      intros e. apply ensures_ret. exists (failed pt e).
      split; [reflexivity|]. split; [apply failed_coherent|].
      cbn. split; [lia | discriminate].
    + apply ensures_tryCatch_yields.
      eapply yields_weaken.
      * apply yields_ensures;
          [apply record_yields; apply Hok; reflexivity | exact Hrec].
      * intros acc' [_ H]. exact H.
  - intros e. apply yields_ret. exists (failed pt e).
    split; [reflexivity|]. split; [apply failed_coherent|].
    cbn. split; [lia | intros _; lia].
Qed.

Lemma dispatch_enters premium domain brand topic prompts :
  forall acc,
    yields (dispatch E premium domain brand topic prompts acc)
           (entersAll premium domain acc).
Proof.
  induction prompts as [|pt rest IH]; intros acc; cbn [dispatch].
  - apply yields_ret. exists []. cbn. rewrite app_nil_r.
    split; [reflexivity|]. split; [constructor|]. split; [lia | intros _; lia].
  - eapply yields_bind; [apply processPrompt_enters|].
    intros acc1 (d & H1 & H2 & H3 & H4).
    eapply yields_weaken; [apply IH|].
    intros acc2 (ds & G1 & G2 & G3 & G4).
    exists (d :: ds). split; [rewrite G1, H1, <- app_assoc; reflexivity|].
    split; [constructor; assumption|].
    cbn [sumTokens fold_right]. fold (sumTokens ds).
    split; [lia|]. intros Hp. rewrite (G4 Hp), (H4 Hp). lia.
Qed.

End WithEnv.

End EntryFacts.

Section EntryExtras.
Import Async Hoare Visibility EntrySpec EntryFacts.

(** X7.  Every run returns a report whose entries agree with themselves.
    An entry with an error is the empty entry: score 0, confidence [low], no
    response, no citation, no token.  An entry without error stores the
    response and the parsed answer from which [analyzeResponse] gives exactly
    the mention, score, citations and confidence of the entry, and it carries
    recommendations only when its score is 0.  The token total of the report
    is at least the sum of the estimates of the entries, and exactly that sum
    when the run is not premium. *)
Theorem entries_are_coherent
        (E : Env) (url : string) (options : Options) (t : Trace) :
  exists r t',
    analyzeLLMVisibility E url options t = (Return r, t')
    /\ Forall (coherent (isPremium options) (extractDomain E url)) (details r)
    /\ 0 <= sumTokens (details r) <= totalTokens (metadata r)
    /\ (isPremium options = false ->
        totalTokens (metadata r) = sumTokens (details r)).
Proof.
  unfold analyzeLLMVisibility.
  destruct (SelectFacts.selectPrompts_yields E url options
              (extractBrand (extractDomain E url))
              (guessTopic (extractBrand (extractDomain E url))) t)
    as (prompts & t1 & Es & _).
  destruct (dispatch_enters E (isPremium options) (extractDomain E url)
              (extractBrand (extractDomain E url))
              (guessTopic (extractBrand (extractDomain E url)))
              prompts emptyAcc t1)
    as (acc & t2 & Ed & ds & H1 & H2 & H3 & H4).
  unfold bind. rewrite Es, Ed. unfold ret.
  eexists _, _. split; [reflexivity|].
  cbn [report details metadata totalTokens].
  cbn [emptyAcc results accTokens app] in H1, H3, H4.
  rewrite H1. split; [exact H2|].
  assert (Hpos : 0 <= sumTokens ds).
  { clear - H2. induction H2 as [|d ds [Hd _] _ IH]; cbn; [lia|].
    fold (sumTokens ds). lia. }
  split; [lia|]. intros Hp. rewrite (H4 Hp). lia.
Qed.

End EntryExtras.

(** ** What a run costs *)

Module BudgetFacts.
Import Async Budget.

Lemma total_app ds1 ds2 : total (ds1 ++ ds2) = total ds1 + total ds2.
Proof.
  induction ds1 as [|d ds1 IH]; cbn [total fold_right app].
  - reflexivity.
  - fold (total (ds1 ++ ds2)). fold (total ds1). rewrite IH. lia.
Qed.

Lemma extends_refl t : extends t t 0 0 0.
Proof.
  exists [], [], []. rewrite !app_nil_r. cbn. repeat split; lia.
Qed.

Lemma extends_trans t1 t2 t3 g1 o1 m1 g2 o2 m2 :
  extends t1 t2 g1 o1 m1 -> extends t2 t3 g2 o2 m2 ->
  extends t1 t3 (g1 + g2) (o1 + o2) (m1 + m2).
Proof.
  intros (gs1 & os1 & ss1 & G1 & O1 & S1 & Lg1 & Lo1 & Ls1)
         (gs2 & os2 & ss2 & G2 & O2 & S2 & Lg2 & Lo2 & Ls2).
  exists (gs1 ++ gs2)%list, (os1 ++ os2)%list, (ss1 ++ ss2)%list.
  rewrite G2, G1, O2, O1, S2, S1, <- !app_assoc, !length_app, total_app.
  repeat split; lia.
Qed.

Lemma extends_weaken t t' g o m g' o' m' :
  extends t t' g o m -> (g <= g')%nat -> (o <= o')%nat -> m <= m' ->
  extends t t' g' o' m'.
Proof.
  intros (gs & os & ss & G & O & S & Lg & Lo & Ls) Hg Ho Hm.
  exists gs, os, ss. repeat split; try assumption; lia.
Qed.

Lemma costs_weaken {A} (m : M A) g o ms g' o' ms' :
  costs m g o ms -> (g <= g')%nat -> (o <= o')%nat -> ms <= ms' ->
  costs m g' o' ms'.
Proof. intros H Hg Ho Hm t. eapply extends_weaken; eauto. Qed.

Lemma costs_ret {A} (a : A) : costs (ret a) 0 0 0.
Proof. intros t. apply extends_refl. Qed.

Lemma costs_throw {A} (e : string) : costs (@throw A e) 0 0 0.
Proof. intros t. apply extends_refl. Qed.

Lemma costs_lift {A} (c : Completion A) : costs (lift c) 0 0 0.
Proof. intros t. apply extends_refl. Qed.

Lemma costs_sleep ms : costs (sleep ms) 0 0 ms.
Proof.
  intros t. exists [], [], [ms]. cbn. rewrite !app_nil_r.
  repeat split; lia.
Qed.

Lemma costs_awaitGemini E prompt : costs (awaitGemini E prompt) 1 0 0.
Proof.
  intros t. exists [prompt], [], []. cbn. rewrite !app_nil_r.
  repeat split; lia.
Qed.

Lemma costs_postOpenRouter E model content :
  costs (postOpenRouter E model content) 0 1 0.
Proof.
  intros t. exists [], [(model, content)], []. cbn. rewrite !app_nil_r.
  repeat split; lia.
Qed.

Lemma costs_bind {A B} (m : M A) (k : A -> M B) g1 o1 m1 g2 o2 m2 :
  costs m g1 o1 m1 -> (forall a, costs (k a) g2 o2 m2) -> 0 <= m2 ->
  costs (bind m k) (g1 + g2) (o1 + o2) (m1 + m2).
Proof.
  intros Hm Hk Hpos t. unfold bind. specialize (Hm t).
  destruct (m t) as [[a|e] t1]; cbn [snd] in *.
  - eapply extends_trans; [exact Hm | apply Hk].
  - eapply extends_weaken; [exact Hm | lia | lia | lia].
Qed.

Lemma costs_tryCatch {A} (body : M A) (handler : string -> M A)
      g1 o1 m1 g2 o2 m2 :
  costs body g1 o1 m1 -> (forall e, costs (handler e) g2 o2 m2) -> 0 <= m2 ->
  costs (tryCatch body handler) (g1 + g2) (o1 + o2) (m1 + m2).
Proof.
  intros Hb Hh Hpos t. unfold tryCatch. specialize (Hb t).
  destruct (body t) as [[a|e] t1]; cbn [snd] in *.
  - eapply extends_weaken; [exact Hb | lia | lia | lia].
  - eapply extends_trans; [exact Hb | apply Hh].
Qed.

(** A handler that touches nothing leaves the cost of the body. *)
Lemma costs_guard {A} (body : M A) (handler : string -> M A) g o ms :
  costs body g o ms -> (forall e, costs (handler e) 0 0 0) ->
  costs (tryCatch body handler) g o ms.
Proof.
  intros Hb Hh.
  eapply costs_weaken; [apply costs_tryCatch; [exact Hb | exact Hh | lia]
                       | lia | lia | lia].
Qed.

(** The same rules with the sums left to arithmetic. *)
Lemma costs_seq {A B} (m : M A) (k : A -> M B) g1 o1 m1 g2 o2 m2 g o ms :
  costs m g1 o1 m1 -> (forall a, costs (k a) g2 o2 m2) ->
  0 <= m2 -> (g1 + g2 <= g)%nat -> (o1 + o2 <= o)%nat -> m1 + m2 <= ms ->
  costs (bind m k) g o ms.
Proof.
  intros Hm Hk Hpos Hg Ho Hms.
  eapply costs_weaken; [apply costs_bind; eassumption | | |]; assumption.
Qed.

Lemma costs_try {A} (body : M A) (handler : string -> M A)
      g1 o1 m1 g2 o2 m2 g o ms :
  costs body g1 o1 m1 -> (forall e, costs (handler e) g2 o2 m2) ->
  0 <= m2 -> (g1 + g2 <= g)%nat -> (o1 + o2 <= o)%nat -> m1 + m2 <= ms ->
  costs (tryCatch body handler) g o ms.
Proof.
  intros Hb Hh Hpos Hg Ho Hms.
  eapply costs_weaken; [apply costs_tryCatch; eassumption | | |]; assumption.
Qed.

(** A step that costs nothing, at any budget that is not negative. *)
Lemma costs_free {A} (m : M A) g o ms :
  costs m 0 0 0 -> 0 <= ms -> costs m g o ms.
Proof. intros H Hms. eapply costs_weaken; [exact H | lia | lia | exact Hms]. Qed.

Lemma costs_callGemini E prompt : costs (callGemini E prompt) 1 0 0.
Proof.
  unfold callGemini.
  apply costs_seq with
    (g1 := 1%nat) (o1 := O) (m1 := 0) (g2 := O) (o2 := O) (m2 := 0);
    [apply costs_awaitGemini | intros result; apply costs_lift
    | lia | lia | lia | lia].
Qed.

Lemma backoff_nonneg left : forall attempt, 0 <= backoff left attempt.
Proof.
  induction left as [|left IH]; intros attempt; cbn [backoff]; [lia|].
  specialize (IH (S attempt)).
  destruct (attempt <? _)%nat; [|lia].
  assert (0 <= 2 ^ Z.of_nat attempt) by (apply Z.pow_nonneg; lia).
  unfold Visibility.baseDelay. lia.
Qed.

Section WithEnv.
Variable E : Env.

Lemma costs_retry fullPrompt left :
  forall attempt lastError,
    costs (Visibility.retry E left attempt lastError fullPrompt)
          left 0 (backoff left attempt).
Proof.
  induction left as [|left IH]; intros attempt lastError;
    cbn [Visibility.retry backoff].
  - apply costs_throw.
  - pose proof (backoff_nonneg left (S attempt)) as Hb.
    assert (Hp : 0 <= 2 ^ Z.of_nat attempt) by (apply Z.pow_nonneg; lia).
    assert (Hd : 0 <= Visibility.baseDelay * 2 ^ Z.of_nat attempt)
      by (unfold Visibility.baseDelay; lia).
    apply costs_try with
      (g1 := 1%nat) (o1 := O) (m1 := 0) (g2 := left) (o2 := O)
      (m2 := (if (attempt <? Visibility.maxRetries - 1)%nat
              then Visibility.baseDelay * 2 ^ Z.of_nat attempt else 0)
             + backoff left (S attempt));
      [apply costs_awaitGemini | | | lia | lia | lia].
    + intros e.
      destruct (Visibility.is503Error e); cbn [andb];
        destruct (attempt <? Visibility.maxRetries - 1)%nat;
        try (apply costs_free; [apply costs_throw | lia]).
      eapply costs_seq;
        [apply costs_sleep | intros u; apply IH | exact Hb | | |]; lia.
    + destruct (attempt <? _)%nat; lia.
Qed.

Lemma costs_singleModel prompt domain :
  costs (Visibility.singleModel E prompt domain) 3 0 3000.
Proof.
  unfold Visibility.singleModel.
  apply costs_seq with (g1 := 3%nat) (o1 := O) (m1 := 3000)
                       (g2 := O) (o2 := O) (m2 := 0);
    [ | | lia | lia | lia | lia].
  - unfold Visibility.generateWithRetry.
    apply costs_seq with (g1 := 3%nat) (o1 := O) (m1 := 3000)
                         (g2 := O) (o2 := O) (m2 := 0);
      [ | intros result; apply costs_lift | lia | lia | lia | lia].
    apply (costs_retry (Text.fullPrompt domain prompt)
             Visibility.maxRetries 0 None).
  - intros raw. cbv zeta.
    eapply costs_seq;
      [apply costs_lift | intros a; apply costs_ret | | | |]; lia.
Qed.

Lemma costs_getRecommendations domain brand promptId :
  costs (Visibility.getRecommendations E domain brand promptId) 1 0 0.
Proof.
  unfold Visibility.getRecommendations.
  apply costs_guard; [|intros e; apply costs_ret].
  apply costs_seq with (g1 := 1%nat) (o1 := O) (m1 := 0)
                       (g2 := O) (o2 := O) (m2 := 0);
    [apply costs_callGemini | | lia | lia | lia | lia].
  intros raw. cbv zeta.
  destruct (JSON_parse E _) as [[| | | | |]|];
    try destruct (Js.get _ _); apply costs_ret.
Qed.

Lemma costs_analyzeWithGemini prompt domain :
  costs (MultiLLM.analyzeWithGemini E prompt domain) 1 0 0.
Proof.
  unfold MultiLLM.analyzeWithGemini.
  apply costs_guard; [|intros e; apply costs_throw].
  apply costs_seq with (g1 := 1%nat) (o1 := O) (m1 := 0)
                       (g2 := O) (o2 := O) (m2 := 0);
    [apply costs_callGemini | | lia | lia | lia | lia].
  intros raw. cbv zeta. destruct (JSON_parse E _); apply costs_ret.
Qed.

Lemma costs_tryModels domain prompt models :
  costs (MultiLLM.tryModels E domain prompt models) 0 (List.length models) 0.
Proof.
  induction models as [|model rest IH]; cbn [MultiLLM.tryModels List.length].
  - apply costs_throw.
  - apply costs_try with (g1 := O) (o1 := 1%nat) (m1 := 0)
                         (g2 := O) (o2 := List.length rest) (m2 := 0);
      [apply costs_postOpenRouter | | lia | lia | lia | lia].
    intros e. destruct rest; [apply costs_throw | exact IH].
Qed.

(** Without [OPENROUTER_API_KEY] nothing is posted; with it, at most one
    post for each model of the list that is tried. *)
Lemma costs_analyzeWithOpenRouter prompt domain preferredModel :
  costs (MultiLLM.analyzeWithOpenRouter E prompt domain preferredModel)
        0
        (posts E (match preferredModel with
                  | Some m => if String.eqb m "" then 4 else 1
                  | None => 4
                  end))
        0.
Proof.
  unfold MultiLLM.analyzeWithOpenRouter, posts.
  destruct (OPENROUTER_API_KEY E); cbn [negb]; [|apply costs_ret].
  apply costs_guard; [|intros e; apply costs_throw].
  eapply costs_seq with (g2 := O) (o2 := O) (m2 := 0);
    [apply costs_tryModels | | lia | lia | | lia].
  - intros answer. cbv zeta. destruct (JSON_parse E _); apply costs_ret.
  - destruct preferredModel as [m|]; [destruct (String.eqb m "")|]; cbn; lia.
Qed.

Lemma costs_settle provider (branch : M JSON) g o ms :
  costs branch g o ms -> costs (MultiLLM.settle provider branch) g o ms.
Proof.
  intros Hb. unfold MultiLLM.settle.
  apply costs_guard; [|intros e; apply costs_ret].
  eapply costs_seq with (g2 := O) (o2 := O) (m2 := 0);
    [exact Hb | intros r; apply costs_ret | | | |]; lia.
Qed.

Lemma costs_analyzeWithMultipleLLMs prompt domain :
  costs (MultiLLM.analyzeWithMultipleLLMs E prompt domain)
        1 (posts E 2) 0.
Proof.
  unfold MultiLLM.analyzeWithMultipleLLMs.
  apply costs_seq with (g1 := 1%nat) (o1 := O) (m1 := 0)
                       (g2 := O) (o2 := posts E 2) (m2 := 0);
    [apply costs_settle, costs_analyzeWithGemini | | lia | lia | lia | lia].
  intros g.
  apply costs_seq with (g1 := O) (o1 := posts E 1) (m1 := 0)
                       (g2 := O) (o2 := posts E 1) (m2 := 0);
    [ | | lia | lia | | lia].
  - apply costs_settle.
    apply (costs_analyzeWithOpenRouter prompt domain
             (Some "openrouter/sherlock-dash-alpha")).
  - intros o1.
    apply costs_seq with (g1 := O) (o1 := posts E 1) (m1 := 0)
                         (g2 := O) (o2 := O) (m2 := 0);
      [ | intros o2; apply costs_ret | lia | lia | lia | lia].
    apply costs_settle.
    apply (costs_analyzeWithOpenRouter prompt domain
             (Some "mistralai/mistral-7b-instruct:free")).
  - unfold posts. destruct (OPENROUTER_API_KEY E); lia.
Qed.

Lemma costs_multiModel prompt domain :
  costs (Visibility.multiModel E prompt domain) 1 (posts E 2) 0.
Proof.
  unfold Visibility.multiModel.
  apply costs_guard; [|intros e; apply costs_ret].
  eapply costs_seq with (g2 := O) (o2 := O) (m2 := 0);
    [apply costs_analyzeWithMultipleLLMs | | lia | lia | lia | lia].
  intros r.
  eapply costs_seq;
    [apply costs_lift | intros a; apply costs_ret | | | |]; lia.
Qed.

Lemma costs_obtain premium pt domain brand topic :
  costs (Visibility.obtain E premium pt domain brand topic)
        (perPromptCalls premium - 1) (perPromptPosts E premium) 3000.
Proof.
  unfold Visibility.obtain.
  apply costs_seq with (g1 := O) (o1 := O) (m1 := 0)
                       (g2 := (perPromptCalls premium - 1)%nat)
                       (o2 := perPromptPosts E premium) (m2 := 3000);
    [apply costs_lift | | lia | lia | lia | lia].
  intros prompt.
  apply costs_seq with (g1 := (perPromptCalls premium - 4)%nat)
                       (o1 := perPromptPosts E premium) (m1 := 0)
                       (g2 := 3%nat) (o2 := O) (m2 := 3000);
    [ | | lia | | lia | lia].
  - destruct premium; [apply costs_multiModel | apply costs_ret].
  - intros [ar|].
    + apply costs_free; [apply costs_ret | lia].
    + eapply costs_seq with (g2 := O) (o2 := O) (m2 := 0);
        [apply costs_singleModel | intros a; apply costs_ret | | | |]; lia.
  - destruct premium; cbn; lia.
Qed.

Lemma costs_record premium acc pt domain brand prompt ar :
  costs (Visibility.record E premium acc pt domain brand prompt ar) 1 0 500.
Proof.
  unfold Visibility.record.
  apply costs_seq with (g1 := O) (o1 := O) (m1 := 0)
                       (g2 := 1%nat) (o2 := O) (m2 := 500);
    [apply costs_lift | | lia | lia | lia | lia].
  intros analysis.
  apply costs_seq with (g1 := 1%nat) (o1 := O) (m1 := 0)
                       (g2 := O) (o2 := O) (m2 := 500);
    [ | | lia | lia | lia | lia].
  - destruct (citations analysis); [destruct (mentioned analysis)|];
      try (apply costs_free; [apply costs_ret | lia]).
    apply costs_guard; [apply costs_getRecommendations|].
    intros e. apply costs_ret.
  - intros recs.
    eapply costs_seq with (g2 := O) (o2 := O) (m2 := 0);
      [apply costs_sleep | intros u; apply costs_ret | | | |]; lia.
Qed.

Lemma costs_processPrompt premium domain brand topic acc pt :
  costs (Visibility.processPrompt E premium domain brand topic acc pt)
        (perPromptCalls premium) (perPromptPosts E premium) 3500.
Proof.
  unfold Visibility.processPrompt.
  apply costs_guard; [|intros e; apply costs_ret].
  eapply costs_seq with (g2 := 1%nat) (o2 := O) (m2 := 500);
    [apply costs_obtain | | lia | | lia | lia].
  - intros pa. cbv zeta.
    apply costs_guard; [apply costs_record | intros e; apply costs_ret].
  - destruct premium; cbn; lia.
Qed.

Lemma costs_dispatch premium domain brand topic prompts :
  forall acc,
    costs (Visibility.dispatch E premium domain brand topic prompts acc)
          (List.length prompts * perPromptCalls premium)
          (List.length prompts * perPromptPosts E premium)
          (Z.of_nat (List.length prompts) * 3500).
Proof.
  induction prompts as [|pt rest IH]; intros acc;
    cbn [Visibility.dispatch List.length].
  - apply costs_ret.
  - eapply costs_seq;
      [apply costs_processPrompt | intros acc'; apply IH | | | |]; lia.
Qed.

Lemma costs_generateBusinessPrompts brandName brandSummary industry url :
  costs (PromptGeneration.generateBusinessPrompts E brandName brandSummary
           industry url) 1 0 0.
Proof.
  unfold PromptGeneration.generateBusinessPrompts, PromptGeneration.generate.
  apply costs_guard; [|intros e; apply costs_ret].
  eapply costs_seq with (g2 := O) (o2 := O) (m2 := 0);
    [apply costs_callGemini | | lia | lia | lia | lia].
  intros raw. cbv zeta.
  destruct (PromptGeneration.fromJson E _); [apply costs_ret|].
  destruct (PromptGeneration.fromLines _); apply costs_ret.
Qed.

Lemma costs_selectPrompts url options brand topic :
  costs (Visibility.selectPrompts E url options brand topic)
        (selectionCalls options) 0 0.
Proof.
  unfold Visibility.selectPrompts, selectionCalls.
  destruct (isPremium options); [destruct (businessInfo options)|];
    try apply costs_ret.
  apply costs_guard; [|intros e; apply costs_ret].
  eapply costs_seq with (g2 := O) (o2 := O) (m2 := 0);
    [apply costs_generateBusinessPrompts | intros ps; apply costs_ret
    | | | |]; lia.
Qed.

(** The whole run, whatever the options. *)
Lemma costs_analyzeLLMVisibility url options t :
  exists prompts acc t',
    Visibility.analyzeLLMVisibility E url options t
    = (Return (Visibility.report (isPremium options) prompts acc), t')
    /\ extends t t'
         (selectionCalls options
          + List.length prompts * perPromptCalls (isPremium options))
         (List.length prompts * perPromptPosts E (isPremium options))
         (Z.of_nat (List.length prompts) * 3500).
Proof.
  unfold Visibility.analyzeLLMVisibility.
  set (domain := Visibility.extractDomain E url).
  set (brand := Visibility.extractBrand domain).
  set (topic := Visibility.guessTopic brand).
  destruct (SelectFacts.selectPrompts_yields E url options brand topic t)
    as (prompts & t1 & Es & _).
  destruct (RunFacts.dispatch_yields E (isPremium options) domain brand topic
              prompts Visibility.emptyAcc t1) as (acc & t2 & Ed & _).
  pose proof (costs_selectPrompts url options brand topic t) as C1.
  pose proof (costs_dispatch (isPremium options) domain brand topic prompts
                Visibility.emptyAcc t1) as C2.
  rewrite Es in C1. rewrite Ed in C2. cbn [snd] in C1, C2.
  exists prompts, acc, t2. split.
  - unfold bind. rewrite Es, Ed. reflexivity.
  - eapply extends_weaken; [exact (extends_trans _ _ _ _ _ _ _ _ _ C1 C2)
                           | lia | lia | lia].
Qed.

End WithEnv.

End BudgetFacts.

Section BudgetExtras.
Import Budget BudgetFacts.

(** X8.  What a run costs, whatever the providers answer.  The run returns a
    report and only adds to the trace: at most 4 calls of the model for each
    prompt used (5 in a premium run, and one more when business information
    was given), at most 2 posts to OpenRouter for each prompt, none at all
    when the run is not premium or no OpenRouter key is configured, and
    pauses of at most 3500 ms for each prompt. *)
Theorem run_budget (E : Env) (url : string) (options : Options) (t : Trace) :
  exists r t' gs os ss,
    Visibility.analyzeLLMVisibility E url options t = (Return r, t')
    /\ geminiCalls t' = (geminiCalls t ++ gs)%list
    /\ openRouterCalls t' = (openRouterCalls t ++ os)%list
    /\ sleeps t' = (sleeps t ++ ss)%list
    /\ Z.of_nat (List.length gs)
       <= (if isPremium options then 5 else 4) * promptsUsed (metadata r)
          + Z.of_nat (selectionCalls options)
    /\ Z.of_nat (List.length os) <= 2 * promptsUsed (metadata r)
    /\ (isPremium options = false \/ OPENROUTER_API_KEY E = false -> os = [])
    /\ total ss <= 3500 * promptsUsed (metadata r).
Proof.
  destruct (costs_analyzeLLMVisibility E url options t)
    as (prompts & acc & t' & Er & gs & os & ss & Hg & Ho & Hs & Lg & Lo & Ls).
  exists (Visibility.report (isPremium options) prompts acc), t', gs, os, ss.
  split; [exact Er|]. split; [exact Hg|]. split; [exact Ho|].
  split; [exact Hs|].
  cbn [Visibility.report metadata promptsUsed].
  unfold perPromptCalls, perPromptPosts, posts in *.
  split; [|split; [|split]].
  - destruct (isPremium options); nia.
  - destruct (isPremium options); [destruct (OPENROUTER_API_KEY E)|]; nia.
  - intros [Hp | Hk].
    + rewrite Hp in Lo. rewrite Nat.mul_0_r in Lo.
      destruct os; [reflexivity | cbn in Lo; lia].
    + rewrite Hk in Lo.
      assert (List.length os = O) as Hz
          by (destruct (isPremium options); lia).
      destruct os; [reflexivity | discriminate Hz].
  - lia.
Qed.

End BudgetExtras.

(** ** The requests of the multi-LLM service *)

Module FanOutFacts.
Import Async MultiLLM FanOutSpec.

Lemma posted_nil content t : posted [] content t = t.
Proof. unfold posted. cbn. rewrite app_nil_r. destruct t; reflexivity. Qed.

Lemma posted_cons model models content t :
  posted (model :: models) content t
  = posted models content (posted [model] content t).
Proof. unfold posted. cbn. rewrite <- app_assoc. reflexivity. Qed.

Lemma answerOf_next E t i model m content :
  answerOf E (posted [model] content t) i m content
  = answerOf E t (S i) m content.
Proof.
  unfold answerOf, posted. cbn. rewrite length_app. cbn.
  f_equal. lia.
Qed.

Section WithEnv.
Variable E : Env.

(** The loop over the models: the models are asked in order, each one
    because the one before threw, and the outcome of the last one asked is
    the outcome of the loop. *)
Lemma tryModels_order domain prompt models :
  models <> [] ->
  forall t,
  exists tried model rest,
    models = (tried ++ model :: rest)%list
    /\ snd (tryModels E domain prompt models t)
       = posted (tried ++ [model]) (userMessage domain prompt) t
    /\ fst (tryModels E domain prompt models t)
       = answerOf E t (List.length tried) model (userMessage domain prompt)
    /\ (forall i m, nth_error tried i = Some m ->
                    exists e, answerOf E t i m (userMessage domain prompt)
                              = Throw e)
    /\ (forall e, fst (tryModels E domain prompt models t) = Throw e ->
                  rest = []).
Proof.
  induction models as [|model rest IH]; intros Hne t; [contradiction|].
  cbn [tryModels]. unfold tryCatch, postOpenRouter.
  fold (userMessage domain prompt).
  destruct (openRouterPost E (List.length (openRouterCalls t)) model
              (userMessage domain prompt)) as [answer|e] eqn:Ep.
  - exists [], model, rest. cbn [app List.length fst snd].
    split; [reflexivity|]. split; [reflexivity|].
    split; [unfold answerOf; rewrite Nat.add_0_r; symmetry; exact Ep|].
    split; [intros [|i] m H; discriminate H | intros e H; discriminate H].
  - destruct rest as [|model' rest'].
    + exists [], model, []. cbn [app List.length fst snd throw].
      split; [reflexivity|]. split; [reflexivity|].
      split; [unfold answerOf; rewrite Nat.add_0_r; symmetry; exact Ep|].
      split; [intros [|i] m H; discriminate H | reflexivity].
    + change {| geminiCalls := geminiCalls t;
                openRouterCalls :=
                  (openRouterCalls t ++ [(model, userMessage domain prompt)])%list;
                sleeps := sleeps t |}
        with (posted [model] (userMessage domain prompt) t).
      destruct (IH ltac:(discriminate)
                   (posted [model] (userMessage domain prompt) t))
        as (tried & m1 & rest1 & Hm & Hs & Hf & Ht & Hr).
      exists (model :: tried), m1, rest1.
      split; [cbn [app]; rewrite <- Hm; reflexivity|].
      split; [rewrite Hs; cbn [app]; symmetry; apply posted_cons|].
      split; [rewrite Hf; apply answerOf_next|].
      split; [|exact Hr].
      intros [|i] m H.
      * injection H as <-. exists e. unfold answerOf.
        rewrite Nat.add_0_r. exact Ep.
      * cbn in H. destruct (Ht i m H) as [e' He'].
        exists e'. rewrite <- (answerOf_next E t i model m). exact He'.
Qed.

(** With a key, [analyzeWithOpenRouter] posts what its loop posts, returns
    when the loop got an answer and throws the error of the loop with its
    own prefix. *)
Lemma analyzeWithOpenRouter_loop prompt domain preferredModel t :
  OPENROUTER_API_KEY E = true ->
  snd (analyzeWithOpenRouter E prompt domain preferredModel t)
  = snd (tryModels E domain prompt (candidates preferredModel) t)
  /\ match fst (tryModels E domain prompt (candidates preferredModel) t) with
     | Return _ =>
         exists parsed,
           fst (analyzeWithOpenRouter E prompt domain preferredModel t)
           = Return parsed
     | Throw e =>
         fst (analyzeWithOpenRouter E prompt domain preferredModel t)
         = Throw ("OpenRouter analysis failed: " ++ e)
     end.
Proof.
  intros Hkey. unfold analyzeWithOpenRouter. rewrite Hkey. cbn [negb].
  fold (candidates preferredModel).
  unfold tryCatch, bind.
  destruct (tryModels E domain prompt (candidates preferredModel) t)
    as [[answer|e] t1]; cbn [fst snd].
  - destruct (JSON_parse E _) as [parsed|]; cbn [ret fst snd];
      (split; [reflexivity | eexists; reflexivity]).
  - split; reflexivity.
Qed.

Lemma analyzeWithOpenRouter_no_key prompt domain preferredModel t :
  OPENROUTER_API_KEY E = false ->
  analyzeWithOpenRouter E prompt domain preferredModel t = (Return JNull, t).
Proof.
  intros Hkey. unfold analyzeWithOpenRouter. rewrite Hkey. reflexivity.
Qed.

(** One preferred model: one post, or none without a key. *)
Lemma analyzeWithOpenRouter_one prompt domain model t :
  String.eqb model "" = false ->
  snd (analyzeWithOpenRouter E prompt domain (Some model) t)
  = (if OPENROUTER_API_KEY E
     then posted [model] (userMessage domain prompt) t else t)
  /\ (OPENROUTER_API_KEY E = false ->
      fst (analyzeWithOpenRouter E prompt domain (Some model) t)
      = Return JNull)
  /\ (forall m, fst (analyzeWithOpenRouter E prompt domain (Some model) t)
                = Throw m -> failureOf "openrouter" m).
Proof.
  intros Hm. destruct (OPENROUTER_API_KEY E) eqn:Hkey.
  - destruct (analyzeWithOpenRouter_loop prompt domain (Some model) t Hkey)
      as [Hs Hf].
    unfold candidates in Hs, Hf. rewrite Hm in Hs, Hf.
    split.
    { rewrite Hs. cbn [tryModels]. unfold tryCatch, postOpenRouter.
      fold (userMessage domain prompt).
      destruct (openRouterPost E _ _ _); reflexivity. }
    split; [discriminate|].
    intros m Hthrow.
    destruct (fst (tryModels E domain prompt [model] t)) as [a|e].
    + destruct Hf as [parsed Hf]. rewrite Hf in Hthrow. discriminate Hthrow.
    + rewrite Hf in Hthrow. injection Hthrow as <-. exists e. reflexivity.
  - rewrite (analyzeWithOpenRouter_no_key prompt domain (Some model) t Hkey).
    split; [reflexivity|]. split; [reflexivity | discriminate].
Qed.

Lemma analyzeWithGemini_once prompt domain t :
  snd (analyzeWithGemini E prompt domain t)
  = TraceSpec.called 1 (Text.fullPrompt domain prompt) t
  /\ (forall m, fst (analyzeWithGemini E prompt domain t) = Throw m ->
                failureOf "gemini" m).
Proof.
  unfold analyzeWithGemini, tryCatch, bind, callGemini, awaitGemini, bind,
    lift.
  destruct (generateContent E _ _) as [[raw|e]|e];
    cbn [readText fst snd].
  - destruct (JSON_parse E _); cbn [ret fst snd];
      (split; [reflexivity | discriminate]).
  - split; [reflexivity|]. intros m H. injection H as <-.
    exists e. reflexivity.
  - split; [reflexivity|]. intros m H. injection H as <-.
    exists e. reflexivity.
Qed.

(** A settled branch returns: its value and no error, or null and the error
    under the name of the provider. *)
Lemma settle_outcome provider (branch : M JSON) t :
  snd (settle provider branch t) = snd (branch t)
  /\ match fst (branch t) with
     | Return r => fst (settle provider branch t) = Return (r, [])
     | Throw m =>
         fst (settle provider branch t) = Return (JNull, [(provider, m)])
     end.
Proof.
  unfold settle, tryCatch, bind.
  destruct (branch t) as [[r|m] t1]; split; reflexivity.
Qed.

End WithEnv.

End FanOutFacts.

Section FanOutExtras.
Import Async MultiLLM FanOutSpec FanOutFacts.

(** X9.  The model fallback of [analyzeWithOpenRouter].  With a key, the
    candidate models (the preferred one, else the four defaults) are asked
    in their order with the same question, each one because the one before
    threw.  The analysis returns as soon as a model answers and throws, with
    the prefix of the service, the error of the last candidate when none
    answers. *)
Theorem openRouter_fallback_order
        (E : Env) (prompt domain : string) (preferredModel : option string)
        (t : Trace)
        (Hkey : OPENROUTER_API_KEY E = true) :
  exists tried model rest,
    candidates preferredModel = (tried ++ model :: rest)%list
    /\ snd (analyzeWithOpenRouter E prompt domain preferredModel t)
       = posted (tried ++ [model]) (userMessage domain prompt) t
    /\ (forall i m, nth_error tried i = Some m ->
                    exists e, answerOf E t i m (userMessage domain prompt)
                              = Throw e)
    /\ match answerOf E t (List.length tried) model (userMessage domain prompt)
       with
       | Return _ =>
           exists parsed,
             fst (analyzeWithOpenRouter E prompt domain preferredModel t)
             = Return parsed
       | Throw e =>
           rest = []
           /\ fst (analyzeWithOpenRouter E prompt domain preferredModel t)
              = Throw ("OpenRouter analysis failed: " ++ e)
       end.
Proof.
  assert (Hne : candidates preferredModel <> []).
  { unfold candidates. destruct preferredModel as [m|];
      [destruct (String.eqb m "")|]; discriminate. }
  destruct (tryModels_order E domain prompt _ Hne t)
    as (tried & model & rest & Hm & Hs & Hf & Ht & Hr).
  destruct (analyzeWithOpenRouter_loop E prompt domain preferredModel t Hkey)
    as [Hs' Hf'].
  exists tried, model, rest.
  split; [exact Hm|]. split; [rewrite Hs'; exact Hs|]. split; [exact Ht|].
  rewrite <- Hf.
  destruct (fst (tryModels E domain prompt (candidates preferredModel) t))
    as [a|e] eqn:Ef.
  - exact Hf'.
  - split; [exact (Hr e eq_refl) | exact Hf'].
Qed.

Lemma openRouter_fallback_witness :
  exists tried model rest,
    candidates None = (tried ++ model :: rest)%list
    /\ snd (analyzeWithOpenRouter secondAnswers "q" "example.com" None
              emptyTrace)
       = posted (tried ++ [model]) (userMessage "example.com" "q") emptyTrace
    /\ (forall i m, nth_error tried i = Some m ->
                    exists e, answerOf secondAnswers emptyTrace i m
                                (userMessage "example.com" "q") = Throw e)
    /\ match answerOf secondAnswers emptyTrace (List.length tried) model
               (userMessage "example.com" "q")
       with
       | Return _ =>
           exists parsed,
             fst (analyzeWithOpenRouter secondAnswers "q" "example.com" None
                    emptyTrace)
             = Return parsed
       | Throw e =>
           rest = []
           /\ fst (analyzeWithOpenRouter secondAnswers "q" "example.com" None
                     emptyTrace)
              = Throw ("OpenRouter analysis failed: " ++ e)
       end.
Proof.
  apply (openRouter_fallback_order secondAnswers "q" "example.com" None
           emptyTrace).
  reflexivity.
Defined.

(** X10.  The fan-out of [analyzeWithMultipleLLMs] never throws and asks
    every provider exactly once: one call of Gemini with the full prompt
    and, when a key is configured, one post to each of the two OpenRouter
    models, in this order; without a key nothing is posted and the three
    OpenRouter results are null.  An entry of [errors] names a provider
    whose result is null and carries the prefix of its service. *)
Theorem fan_out_asks_everyone_once
        (E : Env) (prompt domain : string) (t : Trace) :
  exists r,
    analyzeWithMultipleLLMs E prompt domain t
    = (Return r,
       posted (if OPENROUTER_API_KEY E
               then [ "openrouter/sherlock-dash-alpha";
                      "mistralai/mistral-7b-instruct:free" ]
               else [])
              (userMessage domain prompt)
              (TraceSpec.called 1 (Text.fullPrompt domain prompt) t))
    /\ (forall p m, In (p, m) (errors r) ->
          (p = "gemini" /\ gemini r = JNull /\ failureOf "gemini" m)
          \/ (p = "openrouter1" /\ openrouter1 r = JNull
              /\ failureOf "openrouter" m)
          \/ (p = "openrouter2" /\ openrouter2 r = JNull
              /\ failureOf "openrouter" m))
    /\ NoDup (List.map fst (errors r))
    /\ (OPENROUTER_API_KEY E = false ->
        openrouter1 r = JNull /\ openrouter2 r = JNull
        /\ openrouter r = JNull
        /\ forall p m, In (p, m) (errors r) -> p = "gemini").
Proof.
  unfold analyzeWithMultipleLLMs.
  set (s1 := "openrouter/sherlock-dash-alpha").
  set (s2 := "mistralai/mistral-7b-instruct:free").
  (* Gemini *)
  destruct (settle_outcome "gemini" (analyzeWithGemini E prompt domain) t)
    as [Sg Fg].
  destruct (analyzeWithGemini_once E prompt domain t) as [Tg Eg].
  rewrite Tg in Sg.
  destruct (settle "gemini" (analyzeWithGemini E prompt domain) t)
    as [cg tg] eqn:Rg.
  cbn [fst snd] in Sg, Fg. subst tg.
  set (t1 := TraceSpec.called 1 (Text.fullPrompt domain prompt) t) in *.
  (* the first OpenRouter model *)
  destruct (settle_outcome "openrouter1"
              (analyzeWithOpenRouter E prompt domain (Some s1)) t1)
    as [S1 F1].
  destruct (analyzeWithOpenRouter_one E prompt domain s1 t1 eq_refl)
    as (T1 & K1 & E1).
  rewrite T1 in S1.
  destruct (settle "openrouter1"
              (analyzeWithOpenRouter E prompt domain (Some s1)) t1)
    as [c1 t2] eqn:R1.
  cbn [fst snd] in S1, F1. subst t2.
  set (t2 := if OPENROUTER_API_KEY E
             then posted [s1] (userMessage domain prompt) t1 else t1) in *.
  (* the second OpenRouter model *)
  destruct (settle_outcome "openrouter2"
              (analyzeWithOpenRouter E prompt domain (Some s2)) t2)
    as [S2 F2].
  destruct (analyzeWithOpenRouter_one E prompt domain s2 t2 eq_refl)
    as (T2 & K2 & E2).
  rewrite T2 in S2.
  destruct (settle "openrouter2"
              (analyzeWithOpenRouter E prompt domain (Some s2)) t2)
    as [c2 t3] eqn:R2.
  cbn [fst snd] in S2, F2. subst t3.
  assert (Hg : exists g, cg = Return g
               /\ (snd g = [] \/ exists m, g = (JNull, [("gemini", m)])
                                           /\ failureOf "gemini" m)).
  { destruct (fst (analyzeWithGemini E prompt domain t)) as [r|m] eqn:Ef;
      rewrite Fg; eexists; (split; [reflexivity|]);
      [left; reflexivity | right; exists m; split; [reflexivity|]].
    apply Eg. reflexivity. }
  assert (H1 : exists o, c1 = Return o
               /\ (OPENROUTER_API_KEY E = false -> o = (JNull, []))
               /\ (snd o = [] \/ exists m, o = (JNull, [("openrouter1", m)])
                                           /\ failureOf "openrouter" m)).
  { destruct (fst (analyzeWithOpenRouter E prompt domain (Some s1) t1))
      as [r|m] eqn:Ef; rewrite F1; eexists; (split; [reflexivity|]).
    - split; [|left; reflexivity]. intros Hk.
      specialize (K1 Hk). injection K1 as ->. reflexivity.
    - split; [intros Hk; specialize (K1 Hk); discriminate K1|].
      right. exists m. split; [reflexivity|]. apply E1. reflexivity. }
  assert (H2 : exists o, c2 = Return o
               /\ (OPENROUTER_API_KEY E = false -> o = (JNull, []))
               /\ (snd o = [] \/ exists m, o = (JNull, [("openrouter2", m)])
                                           /\ failureOf "openrouter" m)).
  { destruct (fst (analyzeWithOpenRouter E prompt domain (Some s2) t2))
      as [r|m] eqn:Ef; rewrite F2; eexists; (split; [reflexivity|]).
    - split; [|left; reflexivity]. intros Hk.
      specialize (K2 Hk). injection K2 as ->. reflexivity.
    - split; [intros Hk; specialize (K2 Hk); discriminate K2|].
      right. exists m. split; [reflexivity|]. apply E2. reflexivity. }
  destruct Hg as (g & -> & Hg).
  destruct H1 as (o1 & -> & Hk1 & H1).
  destruct H2 as (o2 & -> & Hk2 & H2).
  unfold bind. rewrite Rg, R1, R2. unfold ret.
  eexists. split; [|split; [|split]].
  - f_equal. subst t2. destruct (OPENROUTER_API_KEY E).
    + rewrite (posted_cons s1 [s2]). reflexivity.
    + symmetry. apply posted_nil.
  - cbn [errors gemini openrouter1 openrouter2].
    intros p m Hin. rewrite !in_app_iff in Hin.
    destruct Hin as [Hin | [Hin | Hin]].
    + destruct Hg as [Hg | (m' & -> & Hf)];
        [rewrite Hg in Hin; contradiction|].
      destruct Hin as [Heq | []]. injection Heq as <- <-. left. auto.
    + destruct H1 as [H1 | (m' & -> & Hf)];
        [rewrite H1 in Hin; contradiction|].
      destruct Hin as [Heq | []]. injection Heq as <- <-. right; left. auto.
    + destruct H2 as [H2 | (m' & -> & Hf)];
        [rewrite H2 in Hin; contradiction|].
      destruct Hin as [Heq | []]. injection Heq as <- <-. right; right. auto.
  - cbn [errors].
    destruct Hg as [-> | (mg & -> & _)];
      destruct H1 as [-> | (m1 & -> & _)];
      destruct H2 as [-> | (m2 & -> & _)]; cbn;
      repeat constructor; cbn; intuition discriminate.
  - intros Hk. rewrite (Hk1 Hk), (Hk2 Hk).
    cbn [errors gemini openrouter1 openrouter2 openrouter fst snd Js.truthy].
    split; [reflexivity|]. split; [reflexivity|]. split; [reflexivity|].
    intros p m Hin. rewrite app_nil_r in Hin.
    destruct Hg as [Hg | (m' & -> & _)];
      [rewrite Hg in Hin; contradiction|].
    destruct Hin as [Heq | []]. injection Heq as <- _. reflexivity.
Qed.

End FanOutExtras.

(** ** The health check: statuses, keys and requests *)

Module CheckFacts.
Import Health HealthSpec HealthFacts CheckSpec.

Lemma length_take n : forall s, (String.length (Str.take n s) <= n)%nat.
Proof.
  induction n as [|n IH]; intros [|c s]; cbn; try lia.
  specialize (IH s). lia.
Qed.

Lemma wellFormed_unhealthy reason : wellFormed (unhealthy reason).
Proof.
  split; [discriminate|]. split; [|reflexivity].
  intros _. split; [eexists; reflexivity | split; reflexivity].
Qed.

Lemma wellFormed_modelDeprecated : wellFormed modelDeprecated.
Proof.
  split; [discriminate|]. split; [|reflexivity].
  intros _. split; [eexists; reflexivity | split; reflexivity].
Qed.

Lemma wellFormed_answered text responseTime :
  wellFormed (answered text responseTime).
Proof.
  split; [|split; [discriminate | reflexivity]].
  intros _. split; [reflexivity|]. split; [eexists; reflexivity|].
  split; [|reflexivity].
  eexists. split; [reflexivity | apply length_take].
Qed.

Lemma wellFormed_rateLimited is429 reason :
  wellFormed (rateLimited is429 reason).
Proof.
  split; [discriminate|]. split; [|destruct is429; reflexivity].
  intros _. split; [eexists; reflexivity | split; reflexivity].
Qed.

Lemma wellFormed_hfFailure modelName err :
  wellFormed (hfFailure modelName err).
Proof.
  split; [discriminate|]. split.
  - intros _. split; [eexists; reflexivity | split; reflexivity].
  - unfold hfFailure. cbv zeta. cbn [Status.retryAfter Status.isRateLimit].
    destruct (hasStatus err 429 || _ || _); reflexivity.
Qed.

Lemma testGeminiModel_reports N modelName :
  reports (testGeminiModel N modelName).
Proof.
  intros w. unfold testGeminiModel.
  destruct (GEMINI_API_KEY N); cbn [negb];
    [|apply wellFormed_unhealthy].
  unfold andThen, request. destruct (send N _ _) as [text el|err el].
  - apply wellFormed_answered.
  - apply wellFormed_rateLimited.
Qed.

Lemma testOpenRouterModel_reports N modelName :
  reports (testOpenRouterModel N modelName).
Proof.
  intros w. unfold testOpenRouterModel.
  destruct (OPENROUTER_KEY N); cbn [negb];
    [|apply wellFormed_unhealthy].
  unfold andThen, request. destruct (send N _ _) as [text el|err el].
  - apply wellFormed_answered.
  - apply wellFormed_rateLimited.
Qed.

Lemma testHuggingFaceModel_reports N modelName :
  reports (testHuggingFaceModel N modelName).
Proof.
  intros w. unfold testHuggingFaceModel.
  destruct (HUGGINGFACE_API_KEY N); cbn [negb];
    [|apply wellFormed_unhealthy].
  unfold andThen.
  destruct (overEndpoints N modelName (endpoints modelName) None 0 w)
    as [[[text|lastError|err] spent] w1]; cbn [fst snd pure].
  - apply wellFormed_answered.
  - apply wellFormed_hfFailure.
  - apply wellFormed_hfFailure.
Qed.

Lemma setKey_wellFormed key value results :
  wellFormed value -> allWellFormed results ->
  allWellFormed (setKey key value results).
Proof.
  intros Hv. induction 1 as [|[k v] rest Hk Hrest IH]; cbn [setKey].
  - constructor; [exact Hv | constructor].
  - destruct (String.eqb k key).
    + constructor; [exact Hv | exact Hrest].
    + constructor; [exact Hk | exact IH].
Qed.

Lemma always_sound test key config :
  (forall modelName, reports (test modelName)) ->
  sound (always test key config).
Proof.
  intros Ht results w Hr. unfold always, andThen.
  specialize (Ht (Config.name config) w).
  destruct (test (Config.name config) w) as [r w1]. cbn [fst pure] in *.
  apply setKey_wellFormed; assumption.
Qed.

Lemma guarded_sound test key config :
  (forall modelName, reports (test modelName)) ->
  sound (guarded test key config).
Proof.
  intros Ht results w Hr. unfold guarded.
  destruct (Config.deprecated config); cbn [negb].
  - apply setKey_wellFormed; [apply wellFormed_modelDeprecated | exact Hr].
  - apply (always_sound test key config Ht results w Hr).
Qed.

Lemma without_sound key : sound (without key).
Proof.
  intros results w Hr.
  apply setKey_wellFormed; [apply wellFormed_unhealthy | exact Hr].
Qed.

Lemma steps_sound ss : Forall sound ss -> sound (steps ss).
Proof.
  induction 1 as [|s ss Hs _ IH]; intros results w Hr; cbn [steps].
  - exact Hr.
  - unfold andThen. specialize (Hs results w Hr).
    destruct (s results w) as [results1 w1]. apply IH. exact Hs.
Qed.

Ltac step_sound :=
  first
    [ apply without_sound
    | apply always_sound;
      first [ exact (testGeminiModel_reports _)
            | exact (testHuggingFaceModel_reports _)
            | exact (testOpenRouterModel_reports _) ]
    | apply guarded_sound;
      first [ exact (testGeminiModel_reports _)
            | exact (testHuggingFaceModel_reports _)
            | exact (testOpenRouterModel_reports _) ] ].

Lemma blocks_sound N :
  sound (steps (geminiBlock N ++ huggingFaceBlock N ++ openRouterBlock N)).
Proof.
  apply steps_sound.
  unfold geminiBlock, huggingFaceBlock, openRouterBlock.
  destruct (GEMINI_API_KEY N), (HUGGINGFACE_API_KEY N), (OPENROUTER_KEY N);
    cbn [app]; repeat (constructor; [step_sound|]); constructor.
Qed.

(** *** The keys *)

Lemma map_fst_setKey key value results :
  List.map fst (setKey key value results) = addKey key (List.map fst results).
Proof.
  induction results as [|[k v] rest IH]; cbn [setKey addKey List.map fst].
  - reflexivity.
  - destruct (String.eqb k key); cbn [List.map fst]; [reflexivity|].
    rewrite IH. reflexivity.
Qed.

Lemma always_writes test key config : writes (always test key config) key.
Proof.
  intros results w. unfold always, andThen.
  destruct (test (Config.name config) w) as [r w1]. cbn [fst pure].
  apply map_fst_setKey.
Qed.

Lemma guarded_writes test key config : writes (guarded test key config) key.
Proof.
  intros results w. unfold guarded.
  destruct (Config.deprecated config); cbn [negb].
  - apply map_fst_setKey.
  - apply always_writes.
Qed.

Lemma without_writes key : writes (without key) key.
Proof. intros results w. apply map_fst_setKey. Qed.

Lemma steps_writes ss keys :
  Forall2 writes ss keys ->
  forall results w,
    List.map fst (fst (steps ss results w))
    = fold_left (fun ks k => addKey k ks) keys (List.map fst results).
Proof.
  induction 1 as [|s key ss keys Hs _ IH]; intros results w;
    cbn [steps fold_left]; [reflexivity|].
  unfold andThen. specialize (Hs results w).
  destruct (s results w) as [results1 w1]. cbn [fst] in Hs.
  rewrite IH, Hs. reflexivity.
Qed.

Ltac step_writes :=
  first [ apply without_writes | apply always_writes | apply guarded_writes ].

(** The keys of the results: the statements that run depend on the keys
    configured, the keys written do not. *)
Lemma blocks_keys N results w :
  results = fst (steps (geminiBlock N ++ huggingFaceBlock N
                        ++ openRouterBlock N) [] w) ->
  NoDup (List.map fst results)
  /\ List.length results = List.length MODELS
  /\ forall key, In key (List.map fst MODELS) -> In key (List.map fst results).
Proof.
  intros ->.
  assert (Hkeys :
    exists keys,
      List.map fst (fst (steps (geminiBlock N ++ huggingFaceBlock N
                                ++ openRouterBlock N) [] w)) = keys
      /\ (keys = [ "gemini"; "huggingfaceQwen"; "huggingfaceGemma";
                   "huggingfaceLlama"; "huggingfaceMistral7B";
                   "huggingfaceMixtral"; "huggingfaceLayoutLM";
                   "huggingfaceDistilBERT"; "huggingfaceBGE";
                   "huggingfaceFlanT5"; "geminiExp"; "openrouterDeepSeek";
                   "openrouterQwenCoder"; "openrouterMistral";
                   "openrouterDeepSeekChimera"; "openrouterSherlockDash";
                   "openrouterSherlockThink"; "openrouterKatCoder" ]
          \/ keys = [ "gemini"; "huggingfaceQwen"; "huggingfaceGemma";
                      "huggingfaceLlama"; "huggingfaceMistral7B";
                      "huggingfaceMixtral"; "huggingfaceLayoutLM";
                      "huggingfaceDistilBERT"; "huggingfaceBGE";
                      "huggingfaceFlanT5"; "geminiExp"; "openrouterDeepSeek";
                      "openrouterMistral"; "openrouterQwenCoder";
                      "openrouterDeepSeekChimera"; "openrouterSherlockDash";
                      "openrouterSherlockThink"; "openrouterKatCoder" ])).
  { eexists. split; [reflexivity|].
    unfold geminiBlock, huggingFaceBlock, openRouterBlock.
    destruct (GEMINI_API_KEY N), (HUGGINGFACE_API_KEY N), (OPENROUTER_KEY N);
      cbn [app];
      (erewrite steps_writes;
       [|repeat (constructor; [step_writes|]); constructor]);
      vm_compute; auto. }
  destruct Hkeys as (keys & Hk & Hcases).
  rewrite <- (length_map fst). rewrite Hk.
  destruct Hcases as [-> | ->].
  - split; [|split; [reflexivity|]].
    + repeat (constructor; [cbn; intuition discriminate|]). constructor.
    + intros key Hin. cbn in Hin |- *. intuition.
  - split; [|split; [reflexivity|]].
    + repeat (constructor; [cbn; intuition discriminate|]). constructor.
    + intros key Hin. cbn in Hin |- *. intuition.
Qed.

Lemma assoc_In {A} key (v : A) l : Js.assoc key l = Some v -> In (key, v) l.
Proof.
  induction l as [|[k a] rest IH]; cbn [Js.assoc]; [discriminate|].
  destruct (String.eqb key k) eqn:Ek.
  - apply String.eqb_eq in Ek. subst k. intros H. injection H as ->.
    left. reflexivity.
  - intros H. right. apply IH. exact H.
Qed.

Lemma assoc_present {A} key (l : list (string * A)) :
  In key (List.map fst l) -> exists v, Js.assoc key l = Some v.
Proof.
  induction l as [|[k a] rest IH]; cbn [Js.assoc List.map fst In];
    [intros []|].
  intros [<- | Hin].
  - rewrite String.eqb_refl. eexists; reflexivity.
  - destruct (String.eqb key k); [eexists; reflexivity | apply IH; exact Hin].
Qed.

Lemma In_assoc {A} key (v : A) l :
  NoDup (List.map fst l) -> In (key, v) l -> Js.assoc key l = Some v.
Proof.
  induction l as [|[k a] rest IH]; cbn [Js.assoc List.map fst];
    intros Hnd Hin; [destruct Hin|].
  inversion Hnd as [|? ? Hnot Hnd']; subst.
  destruct Hin as [Heq | Hin].
  - injection Heq as -> ->. rewrite String.eqb_refl. reflexivity.
  - destruct (String.eqb key k) eqn:Ek; [|apply IH; assumption].
    apply String.eqb_eq in Ek. subst k. destruct Hnot.
    apply in_map_iff. exists (key, v). split; [reflexivity | exact Hin].
Qed.

End CheckFacts.

Module SpendFacts.
Import Health HealthSpec HealthFacts CheckSpec BudgetFacts.

Lemma spends_pure {A} (a : A) : spends (pure a) 0 0.
Proof.
  intros w. exists [], []. cbn. rewrite !app_nil_r. repeat split; lia.
Qed.

Lemma spends_request N r : spends (request N r) 1 0.
Proof.
  intros w. exists [r], []. cbn. rewrite app_nil_r. repeat split; lia.
Qed.

Lemma spends_wait ms : spends (wait ms) 0 ms.
Proof.
  intros w. exists [], [ms]. cbn. rewrite app_nil_r. repeat split; lia.
Qed.

Lemma spends_andThen {A B} (m : H A) (k : A -> H B) n1 m1 n2 m2 n ms :
  spends m n1 m1 -> (forall a, spends (k a) n2 m2) ->
  (n1 + n2 <= n)%nat -> m1 + m2 <= ms ->
  spends (andThen m k) n ms.
Proof.
  intros Hm Hk Hn Hms w. unfold andThen.
  destruct (Hm w) as (s1 & w1 & R1 & W1 & L1 & T1).
  destruct (m w) as [a wa]. cbn [snd] in R1, W1.
  destruct (Hk a wa) as (s2 & w2 & R2 & W2 & L2 & T2).
  exists (s1 ++ s2)%list, (w1 ++ w2)%list.
  rewrite R2, R1, W2, W1, <- !app_assoc, length_app, total_app.
  repeat split; lia.
Qed.

Lemma spends_weaken {A} (m : H A) n ms n' ms' :
  spends m n ms -> (n <= n')%nat -> ms <= ms' -> spends m n' ms'.
Proof.
  intros Hm Hn Hms w. destruct (Hm w) as (s & ws & R & W & L & T).
  exists s, ws. repeat split; try assumption; lia.
Qed.

Lemma testGeminiModel_spends N modelName :
  spends (testGeminiModel N modelName) (if GEMINI_API_KEY N then 1 else 0) 0.
Proof.
  unfold testGeminiModel.
  destruct (GEMINI_API_KEY N); cbn [negb]; [|apply spends_pure].
  eapply spends_andThen with (n2 := O) (m2 := 0);
    [apply spends_request | | lia | lia].
  intros [text el|err el]; apply spends_pure.
Qed.

Lemma testOpenRouterModel_spends N modelName :
  spends (testOpenRouterModel N modelName) (if OPENROUTER_KEY N then 1 else 0) 0.
Proof.
  unfold testOpenRouterModel.
  destruct (OPENROUTER_KEY N); cbn [negb]; [|apply spends_pure].
  eapply spends_andThen with (n2 := O) (m2 := 0);
    [apply spends_request | | lia | lia].
  intros [text el|err el]; apply spends_pure.
Qed.

Lemma loadingWaits_nonneg left : forall attempt, 0 <= loadingWaits left attempt.
Proof.
  induction left as [|left IH]; intros attempt; cbn [loadingWaits]; [lia|].
  specialize (IH (S attempt)). destruct (attempt <? _)%nat; lia.
Qed.

Lemma attempts_spends N modelName url isLast left :
  forall attempt lastError spent,
    spends (attempts N modelName url isLast left attempt lastError spent)
           left (loadingWaits left attempt).
Proof.
  induction left as [|left IH]; intros attempt lastError spent;
    cbn [attempts loadingWaits]; [apply spends_pure|].
  pose proof (loadingWaits_nonneg left (S attempt)) as Hpos.
  eapply spends_andThen with
    (n2 := left)
    (m2 := (if (attempt <? hfMaxRetries)%nat
            then (Z.of_nat attempt + 1) * 5000 else 0)
           + loadingWaits left (S attempt));
    [apply spends_request | | lia | lia].
  intros [text el|err el].
  - eapply spends_weaken; [apply spends_pure | lia|].
    destruct (attempt <? _)%nat; lia.
  - destruct (hasStatus err 503); cbn [andb];
      [destruct (attempt <? hfMaxRetries)%nat eqn:Ha|].
    + eapply spends_andThen; [apply spends_wait | intros u; apply IH | |]; lia.
    + repeat match goal with
             | |- context [if ?b then _ else _] => destruct b
             end; (eapply spends_weaken; [apply spends_pure | lia | lia]).
    + repeat match goal with
             | |- spends (if ?b then _ else _) _ _ => destruct b
             end;
        (eapply spends_weaken; [apply spends_pure | lia|]);
        destruct (attempt <? _)%nat; lia.
Qed.

Lemma overEndpoints_spends N modelName urls :
  forall lastError spent,
    spends (overEndpoints N modelName urls lastError spent)
           (List.length urls * 3) (Z.of_nat (List.length urls) * 15000).
Proof.
  induction urls as [|url rest IH]; intros lastError spent;
    cbn [overEndpoints List.length]; [apply spends_pure|].
  eapply spends_andThen with (n2 := (List.length rest * 3)%nat)
                             (m2 := Z.of_nat (List.length rest) * 15000).
  - apply (attempts_spends N modelName url _ (S hfMaxRetries) O).
  - intros [[text|lastError'|err] spent']; cbn [fst snd];
      try (eapply spends_weaken; [apply spends_pure | lia | lia]).
    apply IH.
  - cbn. lia.
  - change (loadingWaits (S hfMaxRetries) 0) with 15000. lia.
Qed.

Lemma testHuggingFaceModel_spends N modelName :
  spends (testHuggingFaceModel N modelName)
         (if HUGGINGFACE_API_KEY N then 9 else 0)
         (if HUGGINGFACE_API_KEY N then 45000 else 0).
Proof.
  unfold testHuggingFaceModel.
  destruct (HUGGINGFACE_API_KEY N); cbn [negb]; [|apply spends_pure].
  eapply spends_andThen with (n2 := O) (m2 := 0);
    [apply overEndpoints_spends | | cbn; lia | cbn; lia].
  intros [[text|lastError|err] spent]; apply spends_pure.
Qed.

Lemma always_spends test key config results n ms :
  (forall modelName, spends (test modelName) n ms) ->
  spends (always test key config results) n ms.
Proof.
  intros Ht. unfold always.
  eapply spends_andThen with (n2 := O) (m2 := 0);
    [apply Ht | intros r; apply spends_pure | lia | lia].
Qed.

Lemma guarded_spends test key config results n ms :
  (forall modelName, spends (test modelName) n ms) ->
  spends (guarded test key config results)
         (if Config.deprecated config then 0 else n)
         (if Config.deprecated config then 0 else ms).
Proof.
  intros Ht. unfold guarded.
  destruct (Config.deprecated config); cbn [negb]; [apply spends_pure|].
  apply always_spends. exact Ht.
Qed.

Lemma without_spends key results : spends (without key results) 0 0.
Proof. apply spends_pure. Qed.

Lemma steps_nil_spends results : spends (steps [] results) 0 0.
Proof. apply spends_pure. Qed.

Lemma steps_cons_spends s ss n1 m1 n2 m2 :
  (forall results, spends (s results) n1 m1) ->
  (forall results, spends (steps ss results) n2 m2) ->
  forall results, spends (steps (s :: ss) results) (n1 + n2) (m1 + m2).
Proof.
  intros Hs Hss results. cbn [steps].
  eapply spends_andThen; [apply Hs | exact Hss | lia | lia].
Qed.

Lemma steps_app_spends ss1 ss2 n1 m1 n2 m2 :
  (forall results, spends (steps ss1 results) n1 m1) ->
  (forall results, spends (steps ss2 results) n2 m2) ->
  0 <= m1 ->
  forall results, spends (steps (ss1 ++ ss2) results) (n1 + n2) (m1 + m2).
Proof.
  revert n1 m1. induction ss1 as [|s ss1 IH]; intros n1 m1 H1 H2 Hpos results.
  - cbn [app]. eapply spends_weaken; [apply H2 | lia | lia].
  - cbn [app steps]. intros w. unfold andThen.
    specialize (H1 results w). cbn [steps] in H1. unfold andThen in H1.
    destruct (s results w) as [results1 w1].
    destruct H1 as (s1 & ws1 & R1 & W1 & L1 & T1).
    destruct (H2 (fst (steps ss1 results1 w1)) (snd (steps ss1 results1 w1)))
      as (s2 & ws2 & R2 & W2 & L2 & T2).
    assert (Hrun : steps (ss1 ++ ss2) results1 w1
                   = steps ss2 (fst (steps ss1 results1 w1))
                           (snd (steps ss1 results1 w1))).
    { clear. revert results1 w1.
      induction ss1 as [|s' ss1 IH']; intros results1 w1; cbn [app steps fst snd].
      - reflexivity.
      - unfold andThen. destruct (s' results1 w1) as [r2 w2]. apply IH'. }
    rewrite Hrun.
    exists (s1 ++ s2)%list, (ws1 ++ ws2)%list.
    rewrite R2, R1, W2, W1, <- !app_assoc, length_app, total_app.
    repeat split; lia.
Qed.

Lemma geminiBlock_spends N results :
  spends (steps (geminiBlock N) results) (if GEMINI_API_KEY N then 1 else 0) 0.
Proof.
  unfold geminiBlock. destruct (GEMINI_API_KEY N) eqn:Hk.
  - eapply spends_weaken.
    + apply steps_cons_spends; [|apply steps_nil_spends].
      intros r. apply always_spends. intros m.
      pose proof (testGeminiModel_spends N m) as H. rewrite Hk in H. exact H.
    + lia.
    + lia.
  - eapply spends_weaken.
    + apply steps_cons_spends; [intros r; apply without_spends
                               | apply steps_nil_spends].
    + lia.
    + lia.
Qed.

Ltac step_spends test_spends :=
  intros ?;
  first [ apply without_spends
        | apply always_spends; exact test_spends
        | apply guarded_spends; exact test_spends ].

Lemma huggingFaceBlock_spends N results :
  spends (steps (huggingFaceBlock N) results)
         (if HUGGINGFACE_API_KEY N then 9 else 0)
         (if HUGGINGFACE_API_KEY N then 45000 else 0).
Proof.
  pose proof (testHuggingFaceModel_spends N) as Ht.
  unfold huggingFaceBlock. destruct (HUGGINGFACE_API_KEY N).
  - eapply spends_weaken.
    + repeat (apply steps_cons_spends; [step_spends Ht|]).
      apply steps_nil_spends.
    + cbn. lia.
    + cbn. lia.
  - eapply spends_weaken.
    + repeat (apply steps_cons_spends; [step_spends Ht|]).
      apply steps_nil_spends.
    + cbn. lia.
    + cbn. lia.
Qed.

Lemma openRouterBlock_spends N results :
  spends (steps (openRouterBlock N) results)
         (if OPENROUTER_KEY N then 5 else 0) 0.
Proof.
  pose proof (testOpenRouterModel_spends N) as Ht.
  unfold openRouterBlock. destruct (OPENROUTER_KEY N).
  - eapply spends_weaken.
    + repeat (apply steps_cons_spends; [step_spends Ht|]).
      apply steps_nil_spends.
    + cbn. lia.
    + cbn. lia.
  - eapply spends_weaken.
    + repeat (apply steps_cons_spends; [step_spends Ht|]).
      apply steps_nil_spends.
    + cbn. lia.
    + cbn. lia.
Qed.

Lemma blocks_spend N results :
  spends (steps (geminiBlock N ++ huggingFaceBlock N ++ openRouterBlock N)
                results)
         ((if GEMINI_API_KEY N then 1 else 0)
          + ((if HUGGINGFACE_API_KEY N then 9 else 0)
             + (if OPENROUTER_KEY N then 5 else 0)))
         (0 + ((if HUGGINGFACE_API_KEY N then 45000 else 0) + 0)).
Proof.
  apply steps_app_spends; [apply geminiBlock_spends | | lia].
  apply steps_app_spends;
    [apply huggingFaceBlock_spends | apply openRouterBlock_spends|].
  destruct (HUGGINGFACE_API_KEY N); lia.
Qed.

End SpendFacts.

Section CheckExtras.
Import Health HealthSpec HealthFacts CheckSpec CheckFacts SpendFacts.
Import HealthExamples.

(** X11.  On every network, [checkAllModels] leaves exactly one status for
    each of the eighteen models of [MODELS], whatever keys are configured,
    and the cache it leaves is the object it returns, stamped with the time
    of the check.  Every status is well formed: a healthy one has a response
    time, at most 100 characters of the answer and no error; an unhealthy
    one has an error and neither; [retryAfter] is 60 exactly when the
    failure was a rate limit. *)
Theorem health_check_covers_every_model (N : Net) (w : Wire) :
  let results := fst (fst (checkAllModels N w)) in
  let cache := snd (fst (checkAllModels N w)) in
  models cache = results
  /\ lastChecked cache <> None
  /\ List.length results = 18%nat
  /\ NoDup (List.map fst results)
  /\ (forall key config,
        In (key, config) MODELS ->
        exists r, Js.assoc key results = Some r /\ wellFormed r)
  /\ (forall key r, In (key, r) results ->
        wellFormed r /\ exists config, Js.assoc key MODELS = Some config).
Proof.
  intros results cache. subst results cache.
  rewrite checkAllModels_unfold. cbn [fst snd models lastChecked].
  set (results := fst (steps (geminiBlock N ++ huggingFaceBlock N
                              ++ openRouterBlock N) [] w)).
  destruct (blocks_keys N results w eq_refl) as (Hnd & Hlen & Hall).
  assert (Hwf : allWellFormed results)
    by (apply blocks_sound; constructor).
  assert (Htidy : keysWithin results)
    by (apply blocks_tidy; constructor).
  unfold allWellFormed in Hwf. unfold keysWithin in Htidy.
  rewrite Forall_forall in Hwf, Htidy.
  split; [reflexivity|]. split; [discriminate|].
  split; [exact Hlen|]. split; [exact Hnd|]. split.
  - intros key config Hin.
    destruct (assoc_present key results) as [r Hr].
    { apply Hall. apply in_map_iff. exists (key, config). auto. }
    exists r. split; [exact Hr|].
    apply (Hwf (key, r)). apply assoc_In. exact Hr.
  - intros key r Hin. split; [exact (Hwf _ Hin)|].
    apply assoc_present. exact (Htidy _ Hin).
Qed.

(** X12.  What a health check costs.  [checkAllModels] sends at most one
    request to Gemini, nine to HuggingFace and five to OpenRouter, each of
    them only when the key of the provider is configured, all of them to
    models that are not deprecated, and it waits at most 45 seconds, for a
    HuggingFace model that is loading. *)
Theorem health_check_budget (N : Net) (w : Wire) :
  exists sent ws,
    requests (snd (checkAllModels N w)) = (requests w ++ sent)%list
    /\ waited (snd (checkAllModels N w)) = (waited w ++ ws)%list
    /\ (List.length sent
        <= (if GEMINI_API_KEY N then 1 else 0)
           + (if HUGGINGFACE_API_KEY N then 9 else 0)
           + (if OPENROUTER_KEY N then 5 else 0))%nat
    /\ Budget.total ws <= (if HUGGINGFACE_API_KEY N then 45000 else 0)
    /\ Forall (fun rq => In (toModel rq) probed) sent.
Proof.
  destruct (checkAllModels_targets N w) as (sent' & Hsent' & Hto).
  rewrite checkAllModels_unfold in *. cbn [snd] in *.
  destruct (blocks_spend N [] w) as (sent & ws & R & W & L & T).
  exists sent, ws. split; [exact R|]. split; [exact W|].
  split; [lia|]. split; [lia|].
  rewrite R in Hsent'. apply app_inv_head in Hsent'. subst sent'. exact Hto.
Qed.

End CheckExtras.

(** ** A HuggingFace model that fails with one status *)

Module RefusalFacts.
Import Health HealthSpec CheckSpec.

Lemma hasStatus_code err code c :
  status err = Some code -> hasStatus err c = (code =? c).
Proof. intros H. unfold hasStatus. rewrite H. reflexivity. Qed.

Section Refused.
Variable N : Net.
Variable code : Z.
Hypothesis Hfail : alwaysFails N code.

(** One iteration of the retry loop. *)
Lemma attempts_fail_step modelName url isLast left attempt lastError spent w :
  exists err elapsed,
    status err = Some code
    /\ attempts N modelName url isLast (S left) attempt lastError spent w
       = if (code =? 503) && (attempt <? hfMaxRetries)%nat
         then attempts N modelName url isLast left (S attempt) (Some err)
                (spent + elapsed + (Z.of_nat attempt + 1) * 5000)
                {| requests := (requests w ++ [hit modelName url])%list;
                   waited :=
                     (waited w ++ [(Z.of_nat attempt + 1) * 5000])%list |}
         else ((endOf code isLast err, spent + elapsed),
               {| requests := (requests w ++ [hit modelName url])%list;
                  waited := waited w |}).
Proof.
  destruct (Hfail (List.length (requests w)) (hit modelName url))
    as (err & el & Hs & Hc).
  exists err, el. split; [exact Hc|].
  cbn [attempts]. unfold andThen, request, wait, pure.
  fold (hit modelName url). rewrite Hs.
  rewrite !(hasStatus_code err code _ Hc).
  destruct ((code =? 503) && (attempt <? hfMaxRetries)%nat); [reflexivity|].
  unfold endOf.
  repeat match goal with
         | |- context [if ?b then _ else _] => destruct b
         end; reflexivity.
Qed.

(** One endpoint: a single request, or three with the two waits when the
    model is loading. *)
Lemma attempts_all_fail modelName url isLast lastError spent w :
  exists err spent',
    status err = Some code
    /\ attempts N modelName url isLast (S hfMaxRetries) 0 lastError spent w
       = ((endOf code isLast err, spent'),
          {| requests :=
               (requests w
                ++ List.map (hit modelName)
                     (if code =? 503 then [url; url; url] else [url]))%list;
             waited :=
               (waited w
                ++ (if code =? 503 then [5000; 10000] else []))%list |}).
Proof.
  change (S hfMaxRetries) with 3%nat.
  destruct (attempts_fail_step modelName url isLast 2 0 lastError spent w)
    as (err1 & el1 & Hc1 & E1).
  rewrite E1. clear E1.
  destruct (code =? 503) eqn:E503; cbn [andb].
  - change (0 <? hfMaxRetries)%nat with true. cbn iota.
    match goal with
    | |- context [attempts N modelName url isLast 2 1 ?l ?s ?w1] =>
        destruct (attempts_fail_step modelName url isLast 1 1 l s w1)
          as (err2 & el2 & Hc2 & E2)
    end.
    rewrite E2, E503. clear E2.
    change (1 <? hfMaxRetries)%nat with true. cbn [andb]. cbn iota.
    match goal with
    | |- context [attempts N modelName url isLast 1 2 ?l ?s ?w1] =>
        destruct (attempts_fail_step modelName url isLast 0 2 l s w1)
          as (err3 & el3 & Hc3 & E3)
    end.
    rewrite E3, E503. clear E3.
    change (2 <? hfMaxRetries)%nat with false. cbn [andb]. cbn iota.
    exists err3. eexists. split; [exact Hc3|].
    cbn [requests waited List.map]. rewrite <- !app_assoc. reflexivity.
  - exists err1. eexists. split; [exact Hc1|].
    cbn [List.map]. rewrite app_nil_r. reflexivity.
Qed.

Lemma overEndpoints_all_fail modelName w :
  exists err spent',
    status err = Some code
    /\ overEndpoints N modelName (endpoints modelName) None 0 w
       = ((Thrown err, spent'),
          {| requests :=
               (requests w
                ++ List.map (hit modelName)
                     (plan code (endpoints modelName)))%list;
             waited :=
               (waited w
                ++ (if code =? 503
                    then [5000; 10000; 5000; 10000; 5000; 10000]
                    else []))%list |}).
Proof.
  unfold endpoints. cbn [overEndpoints]. unfold andThen, pure.
  set (u1 := ("https://router.huggingface.co/hf-inference/models/"
              ++ modelName)%string).
  set (u2 := ("https://router.huggingface.co/hf-inference/"
              ++ modelName)%string).
  set (u3 := ("https://router.huggingface.co/models/" ++ modelName)%string).
  destruct (attempts_all_fail modelName u1 false None 0 w)
    as (err1 & sp1 & Hc1 & E1).
  rewrite E1. cbn [fst snd].
  set (w1 := {| requests := _; waited := _ |}) in *.
  destruct (attempts_all_fail modelName u2 false (Some err1) sp1 w1)
    as (err2 & sp2 & Hc2 & E2).
  set (w2 := {| requests := (requests w1 ++ _)%list; waited := _ |}) in *.
  destruct (attempts_all_fail modelName u3 true (Some err2) sp2 w2)
    as (err3 & sp3 & Hc3 & E3).
  unfold plan, endOf in *.
  destruct ((code =? 401) || (code =? 403)) eqn:Ekey;
    destruct ((code =? 410) || (code =? 404)) eqn:Egone;
    destruct (code =? 503) eqn:Eload;
    try (exfalso; clear - Ekey Egone Eload; lia);
    cbn [negb fst snd] in *.
  - (* the key is refused *)
    exists err1, sp1. split; [exact Hc1|].
    subst w1. cbn [firstn List.map]. rewrite app_nil_r. reflexivity.
  - (* the model is gone *)
    rewrite E2. cbn [fst snd]. rewrite E3. cbn [fst snd].
    exists err3, sp3. split; [exact Hc3|].
    subst w2 w1. cbn [requests waited List.map].
    rewrite <- !app_assoc, !app_nil_r. reflexivity.
  - (* the model is loading *)
    rewrite E2. cbn [fst snd]. rewrite E3.
    exists err3, sp3. split; [exact Hc3|].
    subst w2 w1. cbn [requests waited List.map flat_map app].
    rewrite <- !app_assoc. reflexivity.
  - (* any other status *)
    rewrite E2. cbn [fst snd]. rewrite E3.
    exists err3, sp3. split; [exact Hc3|].
    subst w2 w1. cbn [requests waited List.map].
    rewrite <- !app_assoc, !app_nil_r. reflexivity.
Qed.

End Refused.

End RefusalFacts.

Section RefusalExtras.
Import Health HealthSpec CheckSpec RefusalFacts.

(** X13.  A HuggingFace model whose every request fails with the same HTTP
    status.  [testHuggingFaceModel] reports the model unhealthy with that
    status code.  A refused key (401, 403) ends the test at the first of the
    three endpoints; a loading model (503) is asked three times at each
    endpoint, 5 and 10 seconds apart, nine requests and 45 seconds in all;
    any other status costs one request for each endpoint.  A model that is
    not found (404) or gone (410) is flagged [isDeprecated]. *)
Theorem huggingFace_failure_paths
        (N : Net) (modelName : string) (w : Wire) (code : Z)
        (Hkey : HUGGINGFACE_API_KEY N = true)
        (Hfail : alwaysFails N code) :
  let out := testHuggingFaceModel N modelName w in
  Status.healthy (fst out) = false
  /\ Status.statusCode (fst out) = Some code
  /\ requests (snd out)
     = (requests w
        ++ List.map (hit modelName) (plan code (endpoints modelName)))%list
  /\ waited (snd out)
     = (waited w
        ++ (if code =? 503
            then [5000; 10000; 5000; 10000; 5000; 10000] else []))%list
  /\ (code = 404 \/ code = 410 ->
      Status.isDeprecated (fst out) = Some true).
Proof.
  intros out. subst out. unfold testHuggingFaceModel.
  rewrite Hkey. cbn [negb]. unfold andThen, pure.
  destruct (overEndpoints_all_fail N code Hfail modelName w)
    as (err & spent & Hc & E).
  rewrite E. cbn [fst snd requests waited].
  split; [reflexivity|]. split; [exact Hc|].
  split; [reflexivity|]. split; [reflexivity|].
  intros Hgone. unfold hfFailure. cbv zeta. cbn [Status.isDeprecated].
  rewrite !(hasStatus_code err code _ Hc).
  destruct Hgone as [-> | ->]; cbn [Z.eqb Pos.eqb orb].
  - rewrite Bool.orb_true_r. reflexivity.
  - reflexivity.
Qed.

Lemma huggingFace_failure_witness :
  let out := testHuggingFaceModel (refusing 503) "BAAI/bge-large-en-v1.5"
                                  idle in
  Status.healthy (fst out) = false
  /\ Status.statusCode (fst out) = Some 503
  /\ requests (snd out)
     = (requests idle
        ++ List.map (hit "BAAI/bge-large-en-v1.5")
             (plan 503 (endpoints "BAAI/bge-large-en-v1.5")))%list
  /\ waited (snd out)
     = (waited idle
        ++ (if 503 =? 503
            then [5000; 10000; 5000; 10000; 5000; 10000] else []))%list
  /\ (503 = 404 \/ 503 = 410 ->
      Status.isDeprecated (fst out) = Some true).
Proof.
  apply (huggingFace_failure_paths (refusing 503) "BAAI/bge-large-en-v1.5"
           idle 503).
  - reflexivity.
  - intros n rq. eexists _, _. split; reflexivity.
Defined.

End RefusalExtras.

(** ** Looking a model up after a health check *)

Module LookupFacts.
Import Health HealthSpec HealthFacts ResolutionSpec ResolutionFacts.
Import CheckSpec CheckFacts.

(** The name of a configured model is not a key of [MODELS], and the alias
    table sends it to the key of the model or knows nothing of it. *)
Lemma name_resolves key config :
  In (key, config) MODELS ->
  ~ In (Config.name config) (List.map fst MODELS)
  /\ Config.name config <> ""
  /\ (Js.assoc (Config.name config) modelNameMap = None
      \/ Js.assoc (Config.name config) modelNameMap = Some key).
Proof.
  intros Hin. cbn [MODELS In] in Hin.
  repeat (destruct Hin as [Hin|Hin];
          [injection Hin as <- <-;
           split; [cbn; intuition discriminate
                  | split; [discriminate
                           | first [left; reflexivity | right; reflexivity]]]
          |]).
  destruct Hin.
Qed.

Lemma key_nonempty key config : In (key, config) MODELS -> key <> "".
Proof.
  intros Hin. cbn [MODELS In] in Hin.
  repeat (destruct Hin as [Hin|Hin]; [injection Hin as <- _; discriminate|]).
  destruct Hin.
Qed.

(** In a cache whose keys are keys of [MODELS], the name of a model finds
    the entry of the key of the model. *)
Lemma resolves_by_name healthStatus key config r :
  keysWithin (models healthStatus) ->
  In (key, config) MODELS ->
  Js.assoc key (models healthStatus) = Some r ->
  isModelHealthy healthStatus (Config.name config)
  = Some (Status.healthy r).
Proof.
  intros Htidy Hin Hr.
  destruct (name_resolves key config Hin) as (Hnokey & Hnamed & Halias).
  assert (Hnone : Js.assoc (Config.name config) (models healthStatus) = None).
  { apply assoc_absent. intros Hk. apply Hnokey.
    unfold keysWithin in Htidy. rewrite Forall_forall in Htidy.
    apply in_map_iff in Hk. destruct Hk as (entry & <- & Hentry).
    apply Htidy. exact Hentry. }
  assert (Hplain : ~ inherited (Config.name config))
    by (apply (proj2 (models_plain key config Hin)); reflexivity).
  unfold isModelHealthy, byKey, byMap.
  rewrite (healthOf_absent _ _ Hnone Hplain).
  destruct Halias as [-> | ->].
  - destruct (byName (models healthStatus) (Config.name config) MODELS)
      as [h|] eqn:En.
    + apply byName_models in En.
      destruct En as (k & c & r' & Hin' & _ & Heq & Hr' & ->).
      rewrite (names_unique k c key config Hin' Hin Heq) in Hr'.
      rewrite Hr in Hr'. injection Hr' as <-. reflexivity.
    + destruct (byName_complete (models healthStatus) (Config.name config)
                  MODELS En key config r Hin Hnamed eq_refl Hr).
  - destruct (String.eqb key "") eqn:Ek.
    + apply String.eqb_eq in Ek. destruct (key_nonempty key config Hin Ek).
    + rewrite (healthOf_own _ _ _ Hr). reflexivity.
Qed.

Lemma resolves_by_key healthStatus key r :
  Js.assoc key (models healthStatus) = Some r ->
  isModelHealthy healthStatus key = Some (Status.healthy r).
Proof.
  intros Hr. unfold isModelHealthy, byKey.
  rewrite (healthOf_own _ _ _ Hr). reflexivity.
Qed.

(** What [getHealthyModels] lists, entry by entry. *)
Lemma getHealthyModels_iff healthStatus provider hm :
  In hm (getHealthyModels healthStatus provider)
  <-> In (hm_name hm, hm_status hm) (models healthStatus)
      /\ Status.healthy (hm_status hm) = true
      /\ hm_config hm = Js.lookup (hm_name hm) MODELS
      /\ match provider with
         | None => True
         | Some p =>
             p = ""
             \/ exists c, hm_config hm = Js.Own c /\ Config.provider c = p
         end.
Proof.
  unfold getHealthyModels. rewrite in_flat_map. split.
  - intros ([name result] & Hentry & Hhm).
    destruct (Status.healthy result) eqn:Hh; cbn [andb] in Hhm;
      [|destruct Hhm].
    destruct provider as [p|].
    + destruct (String.eqb p "") eqn:Ep.
      * destruct Hhm as [<-|[]]. cbn.
        apply String.eqb_eq in Ep. auto.
      * destruct (Js.lookup name MODELS) as [c| |] eqn:Ec;
          [|destruct Hhm|destruct Hhm].
        destruct (String.eqb (Config.provider c) p) eqn:Ec';
          [|destruct Hhm].
        destruct Hhm as [<-|[]]. cbn.
        apply String.eqb_eq in Ec'.
        repeat split; [exact Hentry | exact Hh | symmetry; exact Ec|].
        right. exists c. auto.
    + destruct Hhm as [<-|[]]. cbn. auto.
  - intros (Hentry & Hh & Hc & Hp).
    destruct hm as [n c0 s]. cbn [hm_name hm_status hm_config] in *.
    subst c0. exists (n, s). split; [exact Hentry|].
    cbv beta iota. rewrite Hh. cbn [andb].
    destruct provider as [p|]; [|left; reflexivity].
    destruct Hp as [-> | (c & Hc' & Hpc)]; [left; reflexivity|].
    destruct (String.eqb p ""); [left; reflexivity|].
    rewrite Hc', Hpc, String.eqb_refl. left. reflexivity.
Qed.

Lemma getHealthyModels_names healthStatus provider :
  NoDup (List.map fst (models healthStatus)) ->
  NoDup (List.map hm_name (getHealthyModels healthStatus provider)).
Proof.
  unfold getHealthyModels.
  induction (models healthStatus) as [|[name result] rest IH];
    cbn [flat_map List.map fst]; intros Hnd; [constructor|].
  inversion Hnd as [|? ? Hnot Hnd']; subst.
  rewrite map_app. specialize (IH Hnd').
  match goal with
  | |- NoDup (List.map _ (if ?b then _ else _) ++ _) => destruct b
  end; cbn [List.map app hm_name]; [|exact IH].
  constructor; [|exact IH].
  intros Hin. apply Hnot. apply in_map_iff in Hin.
  destruct Hin as (hm & Hname & Hin). apply in_flat_map in Hin.
  destruct Hin as ([name' result'] & Hentry & Hhm).
  match type of Hhm with
  | In _ (if ?b then _ else _) => destruct b
  end; [|destruct Hhm].
  destruct Hhm as [<-|[]]. cbn in Hname. subst name'.
  apply in_map_iff. exists (name, result'). auto.
Qed.

End LookupFacts.

Section LookupExtras.
Import Health HealthSpec HealthFacts ResolutionSpec ResolutionFacts.
Import CheckSpec CheckFacts LookupFacts HealthExamples.

(** X14.  After a health check, [isModelHealthy] gives the same answer for
    the config key of a model of [MODELS] and for the full name of the
    model: the health recorded under the key. *)
Theorem name_and_key_agree
        (N : Net) (w : Wire) (key : string) (config : Config.t)
        (Hin : In (key, config) MODELS) :
  let cache := snd (fst (checkAllModels N w)) in
  exists r,
    Js.assoc key (models cache) = Some r
    /\ isModelHealthy cache key = Some (Status.healthy r)
    /\ isModelHealthy cache (Config.name config) = Some (Status.healthy r).
Proof.
  intros cache. subst cache. rewrite checkAllModels_unfold.
  cbn [fst snd].
  set (results := fst (steps (geminiBlock N ++ huggingFaceBlock N
                              ++ openRouterBlock N) [] w)).
  set (cache := {| lastChecked := _; models := results |}).
  destruct (blocks_keys N results w eq_refl) as (_ & _ & Hall).
  assert (Htidy : keysWithin results) by (apply blocks_tidy; constructor).
  destruct (assoc_present key results) as [r Hr].
  { apply Hall. apply in_map_iff. exists (key, config). auto. }
  exists r. split; [exact Hr|]. split.
  - apply (resolves_by_key cache key r Hr).
  - apply (resolves_by_name cache key config r Htidy Hin Hr).
Qed.

Lemma name_and_key_agree_witness :
  let cache := snd (fst (checkAllModels allUp idle)) in
  exists r,
    Js.assoc "openrouterKatCoder" (models cache) = Some r
    /\ isModelHealthy cache "openrouterKatCoder" = Some (Status.healthy r)
    /\ isModelHealthy cache (Config.name openrouterKatCoder)
       = Some (Status.healthy r).
Proof.
  apply (name_and_key_agree allUp idle "openrouterKatCoder"
           openrouterKatCoder).
  cbn. tauto.
Defined.

(** X15.  After a health check, [getHealthyModels] and [isModelHealthy]
    tell the same story: without a provider the list holds exactly the keys
    of [MODELS] for which [isModelHealthy] is true, each key once; with a
    provider it holds healthy models of that provider only; and a model it
    lists is never one whose configuration is flagged deprecated. *)
Theorem healthy_list_matches_lookup
        (N : Net) (w : Wire) (provider : option string) :
  let cache := snd (fst (checkAllModels N w)) in
  (forall key,
      In key (List.map hm_name (getHealthyModels cache None))
      <-> In key (List.map fst MODELS)
          /\ isModelHealthy cache key = Some true)
  /\ NoDup (List.map hm_name (getHealthyModels cache provider))
  /\ (forall hm,
        In hm (getHealthyModels cache provider) ->
        exists config,
          hm_config hm = Js.Own config
          /\ In (hm_name hm, config) MODELS
          /\ Config.deprecated config = false
          /\ isModelHealthy cache (hm_name hm) = Some true
          /\ (forall p, provider = Some p -> p <> "" ->
                        Config.provider config = p)).
Proof.
  intros cache. subst cache. rewrite checkAllModels_unfold.
  cbn [fst snd].
  set (results := fst (steps (geminiBlock N ++ huggingFaceBlock N
                              ++ openRouterBlock N) [] w)).
  set (cache := {| lastChecked := _; models := results |}).
  destruct (blocks_keys N results w eq_refl) as (Hnd & _ & Hall).
  assert (Htidy : keysWithin results) by (apply blocks_tidy; constructor).
  pose proof Htidy as Htidy'. unfold keysWithin in Htidy'.
  rewrite Forall_forall in Htidy'.
  split; [|split].
  - intros key. rewrite in_map_iff. split.
    + intros (hm & <- & Hhm). apply getHealthyModels_iff in Hhm.
      destruct Hhm as (Hentry & Hh & _ & _).
      split; [exact (Htidy' _ Hentry)|].
      rewrite (resolves_by_key cache (hm_name hm) (hm_status hm));
        [rewrite Hh; reflexivity|].
      apply In_assoc; assumption.
    + intros [Hkey Hh].
      destruct (assoc_present key results (Hall key Hkey)) as [r Hr].
      rewrite (resolves_by_key cache key r Hr) in Hh.
      injection Hh as Hh.
      exists {| hm_name := key; hm_config := Js.lookup key MODELS;
                hm_status := r |}.
      split; [reflexivity|]. apply getHealthyModels_iff. cbn.
      split; [apply assoc_In; exact Hr|]. auto.
  - apply getHealthyModels_names. exact Hnd.
  - intros hm Hhm. apply getHealthyModels_iff in Hhm.
    destruct Hhm as (Hentry & Hh & Hc & Hp).
    destruct (assoc_present (hm_name hm) MODELS) as [config Hconfig].
    { exact (Htidy' _ Hentry). }
    assert (Hown : Js.lookup (hm_name hm) MODELS = Js.Own config)
      by (unfold Js.lookup; rewrite Hconfig; reflexivity).
    exists config. rewrite Hc. split; [exact Hown|].
    pose proof (assoc_In _ _ _ Hconfig) as Hin.
    split; [exact Hin|]. split; [|split].
    + destruct (Config.deprecated config) eqn:Hdep; [|reflexivity].
      pose proof (blocks_quiet_deprecated N (hm_name hm) config Hin Hdep
                    [] w (Forall_nil _)) as Hquiet.
      unfold unhealthyAt in Hquiet. rewrite Forall_forall in Hquiet.
      specialize (Hquiet _ Hentry eq_refl). cbn [snd] in Hquiet.
      rewrite Hquiet in Hh. discriminate Hh.
    + rewrite (resolves_by_key cache (hm_name hm) (hm_status hm));
        [rewrite Hh; reflexivity|].
      apply In_assoc; assumption.
    + intros p -> Hne. destruct Hp as [-> | (c & Hc' & Hpc)];
        [destruct Hne; reflexivity|].
      rewrite Hc, Hown in Hc'. injection Hc' as <-. exact Hpc.
Qed.

End LookupExtras.

(** ** The recommendation service *)

Module WarningFacts.
Import Warning WarningSpec.




Lemma builtIn_fields warningLower warning :
  Js.get (builtIn warningLower warning) "warning" = Some warning
  /\ Js.get (builtIn warningLower warning) "model" = Some (JStr "fallback")
  /\ exists s1 s2 s3 s4 s5 r1 r2 r3,
       Js.get (builtIn warningLower warning) "steps"
       = Some (JArr [JStr s1; JStr s2; JStr s3; JStr s4; JStr s5])
       /\ Js.get (builtIn warningLower warning) "resources"
          = Some (JArr [JStr r1; JStr r2; JStr r3]).
Proof.
  unfold builtIn.
  repeat match goal with
         | |- context [if ?b then _ else _] => destruct b
         end;
    (split; [reflexivity|]; split; [reflexivity|];
     do 8 eexists; split; reflexivity).
Qed.




Lemma stringOrAbsent_printable R x : stringOrAbsent x -> printable R x.
Proof.
  intros Hx v -> _. destruct v; try destruct Hx. eexists. reflexivity.
Qed.

(** A prompt is there when every value it interpolates can be printed. *)
Lemma seoPrompt_printable R warning context :
  printable R (Some warning) ->
  Js.truthy warning = true ->
  printable R (brandName context) ->
  printable R (industry context) ->
  exists prompt, seoPrompt R warning context = Return prompt.
Proof.
  intros Hw Ht Hb Hi. unfold seoPrompt.
  destruct (Hw warning eq_refl Ht) as [issue ->].
  assert (Hl : forall label x, printable R x ->
                 exists line, labelled R label x = Return line).
  { intros label [v|] Hx; cbn [labelled]; [|eexists; reflexivity].
    destruct (Js.truthy v) eqn:Hv; [|eexists; reflexivity].
    destruct (Hx v eq_refl Hv) as [text ->]. eexists; reflexivity. }
  destruct (Hl "Brand: " _ Hb) as [brandLine ->].
  destruct (Hl "Industry: " _ Hi) as [industryLine ->].
  eexists. reflexivity.
Qed.

Lemma seoPrompt_string R text context :
  printable R (brandName context) ->
  printable R (industry context) ->
  exists prompt, seoPrompt R (JStr text) context = Return prompt.
Proof.
  intros Hb Hi. unfold seoPrompt. cbn [interpolate].
  assert (Hl : forall label x, printable R x ->
                 exists line, labelled R label x = Return line).
  { intros label [v|] Hx; cbn [labelled]; [|eexists; reflexivity].
    destruct (Js.truthy v) eqn:Hv; [|eexists; reflexivity].
    destruct (Hx v eq_refl Hv) as [line ->]. eexists; reflexivity. }
  destruct (Hl "Brand: " _ Hb) as [brandLine ->].
  destruct (Hl "Industry: " _ Hi) as [industryLine ->].
  eexists. reflexivity.
Qed.

(** What the prompt throws, its first interpolation threw when that one
    throws. *)
Lemma seoPrompt_first R warning context message :
  interpolate R warning = Throw message ->
  seoPrompt R warning context = Throw message.
Proof. intros H. unfold seoPrompt. rewrite H. reflexivity. Qed.

(** One model: one post, or two with a pause of two seconds between them
    when the first one was rate limited. *)
Lemma tryModelRequest_two R modelName prompt s :
  let out := tryModelRequest R modelName prompt 2 s in
  exists k,
    (k = 1 \/ k = 2)%nat
    /\ posts (snd out)
       = (posts s ++ repeat (chat modelName prompt) k)%list
    /\ pauses (snd out) = (pauses s ++ repeat 2000 (k - 1))%list
    /\ console (snd out) = console s
    /\ fst out <> Null
    /\ (forall content, fst out = Responded content ->
          exists before,
            posts (snd out) = (before ++ [chat modelName prompt])%list
            /\ post R (List.length before) (chat modelName prompt)
               = Replied content).
Proof.
  unfold tryModelRequest. cbn [requestLoop].
  unfold andNext, send, pause, yield.
  destruct (post R (List.length (posts s)) (chat modelName prompt))
    as [content|err] eqn:E1.
  - exists 1%nat. cbn [fst snd posts pauses console repeat Nat.sub].
    rewrite app_nil_r.
    split; [left; reflexivity|]. split; [reflexivity|].
    split; [reflexivity|]. split; [reflexivity|].
    split; [discriminate|].
    intros c Hc. injection Hc as <-. exists (posts s). auto.
  - destruct (is429 err); cbn [andb Nat.ltb Nat.leb Nat.sub].
    + cbn [posts pauses console].
      destruct (post R (List.length (posts s ++ [chat modelName prompt]))
                  (chat modelName prompt)) as [content|err2] eqn:E2.
      * exists 2%nat. cbn [fst snd posts pauses console repeat Nat.sub].
        rewrite <- app_assoc.
        split; [right; reflexivity|]. split; [reflexivity|].
        split; [reflexivity|]. split; [reflexivity|].
        split; [discriminate|].
        intros c Hc. injection Hc as <-.
        exists (posts s ++ [chat modelName prompt])%list.
        rewrite <- app_assoc. auto.
      * destruct (is429 err2); cbn [andb];
          (exists 2%nat; cbn [fst snd posts pauses console repeat Nat.sub];
           rewrite <- app_assoc;
           split; [right; reflexivity|]; split; [reflexivity|];
           split; [reflexivity|]; split; [reflexivity|];
           split; discriminate).
    + exists 1%nat. cbn [fst snd posts pauses console repeat Nat.sub].
      rewrite app_nil_r.
      split; [left; reflexivity|]. split; [reflexivity|].
      split; [reflexivity|]. split; [reflexivity|].
      split; discriminate.
Qed.

Lemma origin_weaken R warning prompt modelName rest out :
  origin R warning prompt rest out ->
  origin R warning prompt (modelName :: rest) out.
Proof.
  unfold origin. destruct (fst out) as [r|message]; [|exact (fun H => H)].
  intros [H | (m & parsed & content & before & Hin & H)]; [left; exact H|].
  right. exists m, parsed, content, before. split; [right; exact Hin|exact H].
Qed.

(** The loop over the models. *)
Lemma overModels_run R warning prompt models :
  forall s,
    let out := overModels R warning prompt models s in
    (exists counts,
        (List.length counts <= List.length models)%nat
        /\ Forall (fun k => k = 1 \/ k = 2)%nat counts
        /\ posts (snd out)
           = (posts s
              ++ List.map (fun m => chat m prompt) (asked models counts))%list
        /\ pauses (snd out)
           = (pauses s ++ repeat 2000 (retries counts))%list
        /\ console (snd out) = console s
        /\ (models <> [] -> counts <> []))
    /\ origin R warning prompt models out.
Proof.
  induction models as [|modelName rest IH]; intros s; cbn [overModels].
  - cbn zeta. split.
    + exists []. cbn. rewrite !app_nil_r. repeat split; auto.
    + unfold origin, yield. cbn [fst].
      destruct (getFallbackRecommendation warning); [left|]; reflexivity.
  - cbn zeta. unfold andNext.
    destruct (tryModelRequest_two R modelName prompt s)
      as (k & Hk & Hp & Hz & Hc & Hnull & Hresp).
    destruct (tryModelRequest R modelName prompt 2 s) as [tried s1].
    cbn [fst snd] in Hp, Hz, Hc, Hnull, Hresp.
    assert (Hnext :
      let out := overModels R warning prompt rest s1 in
      (exists counts,
          (List.length counts <= List.length (modelName :: rest))%nat
          /\ Forall (fun k => k = 1 \/ k = 2)%nat counts
          /\ posts (snd out)
             = (posts s
                ++ List.map (fun m => chat m prompt)
                     (asked (modelName :: rest) counts))%list
          /\ pauses (snd out)
             = (pauses s ++ repeat 2000 (retries counts))%list
          /\ console (snd out) = console s
          /\ (modelName :: rest <> [] -> counts <> []))
      /\ origin R warning prompt (modelName :: rest) out).
    { cbn zeta.
      destruct (IH s1) as [(counts & Hl & Hf & Hp' & Hz' & Hc' & _) Hres].
      split.
      - exists (k :: counts). cbn [List.length asked retries fold_right].
        fold (retries counts).
        split; [lia|]. split; [constructor; assumption|].
        rewrite Hp', Hp, Hz', Hz, Hc', Hc.
        rewrite map_app, map_repeat, repeat_app, <- !app_assoc.
        repeat split; discriminate.
      - apply origin_weaken. exact Hres. }
    assert (Hhere :
      (exists counts,
          (List.length counts <= List.length (modelName :: rest))%nat
          /\ Forall (fun k => k = 1 \/ k = 2)%nat counts
          /\ posts s1
             = (posts s
                ++ List.map (fun m => chat m prompt)
                     (asked (modelName :: rest) counts))%list
          /\ pauses s1 = (pauses s ++ repeat 2000 (retries counts))%list
          /\ console s1 = console s
          /\ (modelName :: rest <> [] -> counts <> []))).
    { exists [k]. cbn [List.length asked retries fold_right].
      split; [lia|]. split; [constructor; [assumption | constructor]|].
      rewrite Hp, Hz, Hc.
      destruct rest; rewrite ?app_nil_r, map_repeat, Nat.add_0_r;
        repeat split; discriminate. }
    destruct tried as [[content|]| |err]; try exact Hnext.
    destruct (parseJSON R _) as [parsed|] eqn:Eparse.
    + cbn [yield fst snd]. split; [exact Hhere|].
      unfold origin. cbn [fst snd]. right.
      destruct (Hresp (Some content) eq_refl) as (before & Hb & Hpost).
      exists modelName, parsed, content, before.
      split; [left; reflexivity|]. auto.
    + destruct (getFallbackRecommendation warning) as [fallback|message]
        eqn:Ef; [|exact Hnext].
      cbn [yield fst snd]. split; [exact Hhere|].
      unfold origin. cbn [fst]. left. exact Ef.
Qed.

Lemma asked_within models : forall counts m,
  In m (asked models counts) -> In m models.
Proof.
  induction models as [|m0 ms IH]; intros [|k ks] m; cbn [asked];
    try (intros []).
  rewrite in_app_iff. intros [H | H].
  - apply repeat_spec in H. left. symmetry. exact H.
  - right. eapply IH. exact H.
Qed.

Lemma asked_length models : forall counts,
  Forall (fun k => k = 1 \/ k = 2)%nat counts ->
  (List.length counts <= List.length models)%nat ->
  (List.length counts <= List.length (asked models counts)
   <= 2 * List.length counts)%nat
  /\ (List.length (asked models counts)
      = List.length counts + retries counts)%nat.
Proof.
  induction models as [|m0 ms IH]; intros [|k ks] Hf Hl;
    cbn [asked List.length retries fold_right] in *; try lia.
  inversion Hf as [|? ? Hk Hf']; subst.
  fold (retries ks). rewrite length_app, repeat_length.
  destruct (IH ks Hf' ltac:(lia)) as [H1 H2]. lia.
Qed.

End WarningFacts.

Section WarningExtras.
Import Warning WarningSpec WarningFacts StrFacts.


(** X17.  What a recommendation costs.  The models of the priority list
    are asked in their order, from the first one on, each one once, or
    twice with a pause of two seconds when it was rate limited the first
    time: at most ten posts, all with the same prompt, and at most ten
    seconds of pauses.  When the prompt cannot be built nothing is posted;
    it can always be built for a warning that is a string and a context whose
    brand name and industry are strings or absent. *)
Theorem warning_recommendation_budget
        (R : Router) (healthStatus : HealthStatus) (warning : JSON)
        (context : Context) (s : Session) :
  let out := generateWarningRecommendation R healthStatus warning context s in
  exists counts,
    (List.length counts <= 5)%nat
    /\ Forall (fun k => k = 1 \/ k = 2)%nat counts
    /\ match seoPrompt R warning context with
       | Return prompt =>
           posts (snd out)
           = (posts s
              ++ List.map (fun m => chat m prompt)
                   (asked MODEL_PRIORITY counts))%list
       | Throw _ => counts = [] /\ posts (snd out) = posts s
       end
    /\ pauses (snd out) = (pauses s ++ repeat 2000 (retries counts))%list
    /\ (List.length (asked MODEL_PRIORITY counts) <= 10)%nat
    /\ (retries counts <= 5)%nat
    /\ (forall m, In m (asked MODEL_PRIORITY counts) -> In m MODEL_PRIORITY)
    /\ (ROUTER_API_KEY R = true ->
        (exists prompt, seoPrompt R warning context = Return prompt) ->
        hd_error (asked MODEL_PRIORITY counts)
        = Some "openrouter/sherlock-dash-alpha")
    /\ (forall text,
          warning = JStr text ->
          stringOrAbsent (brandName context) ->
          stringOrAbsent (industry context) ->
          exists prompt, seoPrompt R warning context = Return prompt).
Proof.
  intros out.
  assert (Hprompt : forall text,
            warning = JStr text ->
            stringOrAbsent (brandName context) ->
            stringOrAbsent (industry context) ->
            exists prompt, seoPrompt R warning context = Return prompt).
  { intros text -> Hb Hi.
    apply seoPrompt_string; apply stringOrAbsent_printable; assumption. }
  cut (exists counts,
    (List.length counts <= 5)%nat
    /\ Forall (fun k => k = 1 \/ k = 2)%nat counts
    /\ match seoPrompt R warning context with
       | Return prompt =>
           posts (snd out)
           = (posts s
              ++ List.map (fun m => chat m prompt)
                   (asked MODEL_PRIORITY counts))%list
       | Throw _ => counts = [] /\ posts (snd out) = posts s
       end
    /\ pauses (snd out) = (pauses s ++ repeat 2000 (retries counts))%list
    /\ (List.length (asked MODEL_PRIORITY counts) <= 10)%nat
    /\ (retries counts <= 5)%nat
    /\ (forall m, In m (asked MODEL_PRIORITY counts) -> In m MODEL_PRIORITY)
    /\ (ROUTER_API_KEY R = true ->
        (exists prompt, seoPrompt R warning context = Return prompt) ->
        hd_error (asked MODEL_PRIORITY counts)
        = Some "openrouter/sherlock-dash-alpha")).
  { intros (counts & H1 & H2 & H3 & H4 & H5 & H6 & H7 & H8).
    exists counts. repeat (split; [assumption|]). exact Hprompt. }
  clear Hprompt.
  subst out. unfold generateWarningRecommendation.
  assert (Hnone : forall out : Completion JSON * Session,
            posts (snd out) = posts s ->
            pauses (snd out) = pauses s ->
            (ROUTER_API_KEY R = true ->
             forall prompt, seoPrompt R warning context <> Return prompt) ->
            exists counts,
              (List.length counts <= 5)%nat
              /\ Forall (fun k => k = 1 \/ k = 2)%nat counts
              /\ match seoPrompt R warning context with
                 | Return prompt =>
                     posts (snd out)
                     = (posts s
                        ++ List.map (fun m => chat m prompt)
                             (asked MODEL_PRIORITY counts))%list
                 | Throw _ => counts = [] /\ posts (snd out) = posts s
                 end
              /\ pauses (snd out)
                 = (pauses s ++ repeat 2000 (retries counts))%list
              /\ (List.length (asked MODEL_PRIORITY counts) <= 10)%nat
              /\ (retries counts <= 5)%nat
              /\ (forall m, In m (asked MODEL_PRIORITY counts) ->
                            In m MODEL_PRIORITY)
              /\ (ROUTER_API_KEY R = true ->
                  (exists prompt, seoPrompt R warning context = Return prompt) ->
                  hd_error (asked MODEL_PRIORITY counts)
                  = Some "openrouter/sherlock-dash-alpha")).
  { intros out Hs Hz Hno. exists []. rewrite Hs, Hz.
    split; [cbn; lia|]. split; [constructor|].
    split; [destruct (seoPrompt R warning context); cbn;
            [rewrite app_nil_r; reflexivity | auto]|].
    split; [cbn; rewrite app_nil_r; reflexivity|].
    split; [cbn; lia|]. split; [cbn; lia|].
    split; [intros m []|].
    intros Hkey [prompt Hp]. destruct (Hno Hkey prompt Hp). }
  destruct (ROUTER_API_KEY R) eqn:Hkey; cbn [negb].
  - destruct (interpolate R warning) as [issue|message] eqn:Ei.
    + unfold andNext, log.
      destruct (seoPrompt R warning context) as [prompt|message] eqn:Ep.
      * match goal with
        | |- context [overModels R warning prompt MODEL_PRIORITY ?s1] =>
            destruct (overModels_run R warning prompt MODEL_PRIORITY s1)
              as [(counts & Hl & Hf & Hp & Hz & _ & Hne) _]
        end.
        cbn zeta in Hp, Hz. cbn [posts pauses] in Hp, Hz.
        exists counts.
        destruct (asked_length MODEL_PRIORITY counts Hf Hl) as [Hlen Hsum].
        cbn [MODEL_PRIORITY List.length] in Hl.
        split; [exact Hl|]. split; [exact Hf|]. split; [exact Hp|].
        split; [exact Hz|]. split; [lia|]. split; [lia|].
        split; [apply asked_within|].
        intros _ _. destruct counts as [|k ks];
          [destruct Hne; [discriminate | reflexivity]|].
        inversion Hf as [|? ? Hk _]; subst.
        destruct Hk as [-> | ->]; reflexivity.
      * apply Hnone; [reflexivity | reflexivity|].
        intros _ prompt Hp. discriminate Hp.
    + apply Hnone; [reflexivity | reflexivity|].
      intros _ prompt Hp.
      rewrite (seoPrompt_first R warning context message Ei) in Hp.
      discriminate Hp.
  - apply Hnone; [reflexivity | reflexivity|]. intros Hk. discriminate Hk.
Qed.

End WarningExtras.

Module ConsoleFacts.
Import Warning WarningSpec.










End ConsoleFacts.

Section ConsoleExtras.
Import Warning WarningSpec WarningFacts ConsoleFacts StrFacts.


(** X19.  The built-in advice does not depend on the letter case of the
    warning: two warnings that differ in letter case only get the same
    summary, impact, steps, resources and time estimate.  Whatever the
    warning, a string, the advice has five steps and three resources, names
    the model [fallback] and echoes the warning as it was given. *)
Theorem fallback_ignores_letter_case
        (warning warning' : string)
        (Hcase : Str.toLowerCase warning = Str.toLowerCase warning') :
  exists r r',
    getFallbackRecommendation (JStr warning) = Return r
    /\ getFallbackRecommendation (JStr warning') = Return r'
    /\ advice r = advice r'
    /\ Js.get r "warning" = Some (JStr warning)
    /\ Js.get r "model" = Some (JStr "fallback")
    /\ exists s1 s2 s3 s4 s5 r1 r2 r3,
         Js.get r "steps"
         = Some (JArr [JStr s1; JStr s2; JStr s3; JStr s4; JStr s5])
         /\ Js.get r "resources" = Some (JArr [JStr r1; JStr r2; JStr r3]).
Proof.
  eexists _, _. split; [reflexivity|]. split; [reflexivity|].
  split; [|apply builtIn_fields].
  rewrite Hcase. unfold builtIn.
  repeat match goal with
         | |- context [if ?b then _ else _] => destruct b
         end; reflexivity.
Qed.

Lemma fallback_letter_case_witness :
  exists r r',
    getFallbackRecommendation (JStr "Missing TITLE tag") = Return r
    /\ getFallbackRecommendation (JStr "missing title tag") = Return r'
    /\ advice r = advice r'
    /\ Js.get r "warning" = Some (JStr "Missing TITLE tag")
    /\ Js.get r "model" = Some (JStr "fallback")
    /\ exists s1 s2 s3 s4 s5 r1 r2 r3,
         Js.get r "steps"
         = Some (JArr [JStr s1; JStr s2; JStr s3; JStr s4; JStr s5])
         /\ Js.get r "resources" = Some (JArr [JStr r1; JStr r2; JStr r3]).
Proof.
  apply (fallback_ignores_letter_case "Missing TITLE tag" "missing title tag").
  reflexivity.
Defined.

End ConsoleExtras.
